(** * BubbleShooter: the simulation core of [components/BubbleShooter.tsx]

    A shallow embedding of the state-changing callbacks of the
    [BubbleShooter] component: [activateNextBubble], [handleMatchResults],
    [triggerSpecialEffect], [resolveLanding], [performShoot], [loseLife],
    [dropCycle], [applyTimeLimit], [updateMovingRows], [updateActiveBubble],
    [animationLoop], the pointer and keyboard handlers and [resetLevelState].

    Modelling conventions.
    - A JavaScript [number] is an ideal real number ([R]); rounding of
      binary64 arithmetic is not modelled.  Array indices and lengths are
      [nat].
    - The React refs of the component ([runtimeRef], [gridRef],
      [activeBubbleRef], ...) are the fields of one record [State] that every
      callback takes and returns.  Display-only React state ([hud],
      [statusMessage], [stars], [effects], [gridVersion], [dynamicLight]) and
      the audio calls change nothing the callbacks read back and are left out.
    - [performance.now()] and [Date.now()] are arguments of the callback that
      reads them; the readings taken inside one callback are one value.
    - The functions, constants and types imported from [@/lib/gameUtils] are
      not part of the component: they are the fields of the class
      [GameUtils], and every definition and theorem of the component is stated
      for an arbitrary instance.  Functions that use [Math.random] thread a
      seed; functions that write into the array they are given return the
      array's new contents.
    - The field [history] is a ghost log: it records, in order, the row
      drops, lost lives, launches and landings that the callbacks perform.  No
      callback reads it. *)

From Stdlib Require Import Reals Lra Lia List Bool Arith.
From Stdlib Require String.
From Stdlib Require Import ZArith DecimalString.
Import ListNotations.

Local Open Scope R_scope.

(** ** JavaScript numbers as reals *)

Module JS.

Definition leb (a b : R) : bool := if Rle_dec a b then true else false.
Definition ltb (a b : R) : bool := if Rlt_dec a b then true else false.
Definition geb (a b : R) : bool := leb b a.
Definition gtb (a b : R) : bool := ltb b a.

(** [ToBoolean] of a number: [0] is falsy. *)
Definition truthy (a : R) : bool := if Req_dec_T a 0 then false else true.

(** [a ?? d] on an optional number. *)
Definition orElse (a : option R) (d : R) : R :=
  match a with Some v => v | None => d end.

(** [arr[i] = v] on an array that may have holes: writing past the end
    lengthens the array and leaves holes in between. *)
Fixpoint setIndex (i : nat) (v : R) (arr : list (option R))
  : list (option R) :=
  match i, arr with
  | O, [] => [Some v]
  | O, _ :: rest => Some v :: rest
  | S i', [] => None :: setIndex i' v []
  | S i', a :: rest => a :: setIndex i' v rest
  end.

(** [arr[i]]: [undefined] (here [None]) for a hole or past the end. *)
Definition getIndex (i : nat) (arr : list (option R)) : option R :=
  match nth_error arr i with Some a => a | None => None end.

End JS.

Infix "<=?" := JS.leb (at level 70, no associativity) : R_scope.
Infix "<?" := JS.ltb (at level 70, no associativity) : R_scope.
Infix ">=?" := JS.geb (at level 70, no associativity) : R_scope.
Infix ">?" := JS.gtb (at level 70, no associativity) : R_scope.

(** ** Data model ([@/lib/gameTypes], [@/constants/levels]) *)

(** [SpecialBubble | "normal" | "obstacle"], the [type] of a bubble. *)
Inductive BubbleType :=
| normal | bomb | rainbow | freeze | aim | obstacle.

Definition isObstacle (t : BubbleType) : bool :=
  match t with obstacle => true | _ => false end.

Definition isNormal (t : BubbleType) : bool :=
  match t with normal => true | _ => false end.

(** A grid cell; only the fields the component reads. *)
Record Cell := mkCell {
  cell_x : R;
  cell_y : R;
  cell_color : String.string;
  cell_type : BubbleType
}.

(** [Grid]: rows of cells, an empty slot being [null]. *)
Definition Grid := list (list (option Cell)).

Record ShooterBubbleCandidate := mkCandidate {
  cand_color : String.string;
  cand_type : BubbleType
}.

Record ActiveBubble := mkBubble {
  id : R;
  color : String.string;
  type : BubbleType;
  x : R;
  y : R;
  dx : R;
  dy : R;
  speed : R;
  launchedAt : R
}.

(** [LevelConfig]: the fields the component reads. *)
Record LevelConfig := mkLevel {
  levelNumber : R;                     (* level.level *)
  timeLimitSeconds : option R;
  descentInterval : R;
  movingRows : option (list nat);
  movingAmplitude : option R;
  movingSpeed : option R;
  endless : bool
}.

Record LevelRuntimeState := mkRuntime {
  level : LevelConfig;
  score : R;
  combo : R;
  lives : R;
  cleared : bool;
  timeLeft : option R;
  lastDropAt : R
}.

(** The result of [computeMatchResult]. *)
Record MatchResult := mkMatch {
  removed : list Cell;
  floating : list Cell;
  comboBonus : R;
  triggeredSpecials : list Cell
}.

(** [GAME_METRICS]. *)
Record Metrics := mkMetrics {
  width : R;
  height : R;
  shooterY : R;
  bubbleRadius : R;
  topMargin : R
}.

(** Ghost log entries. *)
Inductive Event :=
| RowDropped
| LifeLost
| Fired (b : ActiveBubble)
| Landed (b : ActiveBubble).

Definition isLanded (e : Event) : bool :=
  match e with Landed _ => true | _ => false end.

(** ** The imports from [@/lib/gameUtils]

    None of these is defined in the component.  [clamp] comes with the three
    facts its callers rely on; the other functions are unconstrained. *)
Class GameUtils := {
  Seed : Type;
  GAME_METRICS : Metrics;
  GRID_COLS : nat;
  MAX_ROWS : nat;
  clamp : R -> R -> R -> R;
  computeMatchResult : Grid -> nat -> nat -> MatchResult * Grid;
  dropNewRow : Grid -> LevelConfig -> Seed -> Grid * Seed;
  generateInitialGrid : LevelConfig -> Seed -> Grid * Seed;
  generateShooterBubble : LevelConfig -> Seed -> ShooterBubbleCandidate * Seed;
  gridCleared : Grid -> bool;
  gridReachedFailureLine : Grid -> bool;
  placeBubbleOnGrid : Grid -> ActiveBubble -> Grid * nat * nat;
  (** [Math.atan2], read by the pointer handler, and [Math.random] as a step
      of the generator that the imports share with the component. *)
  Math_atan2 : R -> R -> R;
  Math_random : Seed -> R * Seed;
  clamp_below : forall v lo hi, lo <= hi -> v <= lo -> clamp v lo hi = lo;
  clamp_inside : forall v lo hi, lo <= v <= hi -> clamp v lo hi = v;
  clamp_above : forall v lo hi, lo <= hi -> hi <= v -> clamp v lo hi = hi
}.

(** ** The component *)

Section Component.

Context {U : GameUtils}.

(** The refs of the component, the seed of [Math.random] and the ghost log. *)
Record State := mkState {
  runtime : LevelRuntimeState;          (* runtimeRef *)
  grid : Grid;                          (* gridRef *)
  activeBubble : option ActiveBubble;   (* activeBubbleRef *)
  aimAngle : R;                         (* aimAngleRef *)
  aimStrength : R;                      (* aimStrengthRef *)
  pointerLocked : bool;                 (* pointerLockedRef *)
  nextQueue : list ShooterBubbleCandidate;  (* nextQueueRef *)
  shots : R;                            (* shotsRef *)
  rowOffset : list (option R);          (* rowOffsetRef *)
  lastFrame : option R;                 (* lastFrameRef *)
  freezeUntil : option R;               (* freezeUntilRef *)
  aimBoostUntil : option R;             (* aimBoostUntilRef *)
  rng : Seed;
  history : list Event
}.

(** *** Field updates *)

Definition with_score (v : R) (r : LevelRuntimeState) : LevelRuntimeState :=
  mkRuntime (level r) v (combo r) (lives r) (cleared r) (timeLeft r)
    (lastDropAt r).

Definition with_combo (v : R) (r : LevelRuntimeState) : LevelRuntimeState :=
  mkRuntime (level r) (score r) v (lives r) (cleared r) (timeLeft r)
    (lastDropAt r).

Definition with_lives (v : R) (r : LevelRuntimeState) : LevelRuntimeState :=
  mkRuntime (level r) (score r) (combo r) v (cleared r) (timeLeft r)
    (lastDropAt r).

Definition with_cleared (v : bool) (r : LevelRuntimeState)
  : LevelRuntimeState :=
  mkRuntime (level r) (score r) (combo r) (lives r) v (timeLeft r)
    (lastDropAt r).

Definition with_timeLeft (v : option R) (r : LevelRuntimeState)
  : LevelRuntimeState :=
  mkRuntime (level r) (score r) (combo r) (lives r) (cleared r) v
    (lastDropAt r).

Definition with_lastDropAt (v : R) (r : LevelRuntimeState)
  : LevelRuntimeState :=
  mkRuntime (level r) (score r) (combo r) (lives r) (cleared r) (timeLeft r)
    v.

Definition set_runtime (v : LevelRuntimeState) (s : State) : State :=
  mkState v (grid s) (activeBubble s) (aimAngle s) (aimStrength s)
    (pointerLocked s) (nextQueue s) (shots s) (rowOffset s) (lastFrame s)
    (freezeUntil s) (aimBoostUntil s) (rng s) (history s).

Definition set_grid (v : Grid) (s : State) : State :=
  mkState (runtime s) v (activeBubble s) (aimAngle s) (aimStrength s)
    (pointerLocked s) (nextQueue s) (shots s) (rowOffset s) (lastFrame s)
    (freezeUntil s) (aimBoostUntil s) (rng s) (history s).

Definition set_activeBubble (v : option ActiveBubble) (s : State) : State :=
  mkState (runtime s) (grid s) v (aimAngle s) (aimStrength s)
    (pointerLocked s) (nextQueue s) (shots s) (rowOffset s) (lastFrame s)
    (freezeUntil s) (aimBoostUntil s) (rng s) (history s).

Definition set_aimAngle (v : R) (s : State) : State :=
  mkState (runtime s) (grid s) (activeBubble s) v (aimStrength s)
    (pointerLocked s) (nextQueue s) (shots s) (rowOffset s) (lastFrame s)
    (freezeUntil s) (aimBoostUntil s) (rng s) (history s).

Definition set_aimStrength (v : R) (s : State) : State :=
  mkState (runtime s) (grid s) (activeBubble s) (aimAngle s) v
    (pointerLocked s) (nextQueue s) (shots s) (rowOffset s) (lastFrame s)
    (freezeUntil s) (aimBoostUntil s) (rng s) (history s).

Definition set_pointerLocked (v : bool) (s : State) : State :=
  mkState (runtime s) (grid s) (activeBubble s) (aimAngle s) (aimStrength s)
    v (nextQueue s) (shots s) (rowOffset s) (lastFrame s)
    (freezeUntil s) (aimBoostUntil s) (rng s) (history s).

Definition set_nextQueue (v : list ShooterBubbleCandidate) (s : State)
  : State :=
  mkState (runtime s) (grid s) (activeBubble s) (aimAngle s) (aimStrength s)
    (pointerLocked s) v (shots s) (rowOffset s) (lastFrame s)
    (freezeUntil s) (aimBoostUntil s) (rng s) (history s).

Definition set_shots (v : R) (s : State) : State :=
  mkState (runtime s) (grid s) (activeBubble s) (aimAngle s) (aimStrength s)
    (pointerLocked s) (nextQueue s) v (rowOffset s) (lastFrame s)
    (freezeUntil s) (aimBoostUntil s) (rng s) (history s).

Definition set_rowOffset (v : list (option R)) (s : State) : State :=
  mkState (runtime s) (grid s) (activeBubble s) (aimAngle s) (aimStrength s)
    (pointerLocked s) (nextQueue s) (shots s) v (lastFrame s)
    (freezeUntil s) (aimBoostUntil s) (rng s) (history s).

Definition set_lastFrame (v : option R) (s : State) : State :=
  mkState (runtime s) (grid s) (activeBubble s) (aimAngle s) (aimStrength s)
    (pointerLocked s) (nextQueue s) (shots s) (rowOffset s) v
    (freezeUntil s) (aimBoostUntil s) (rng s) (history s).

Definition set_freezeUntil (v : option R) (s : State) : State :=
  mkState (runtime s) (grid s) (activeBubble s) (aimAngle s) (aimStrength s)
    (pointerLocked s) (nextQueue s) (shots s) (rowOffset s) (lastFrame s)
    v (aimBoostUntil s) (rng s) (history s).

Definition set_aimBoostUntil (v : option R) (s : State) : State :=
  mkState (runtime s) (grid s) (activeBubble s) (aimAngle s) (aimStrength s)
    (pointerLocked s) (nextQueue s) (shots s) (rowOffset s) (lastFrame s)
    (freezeUntil s) v (rng s) (history s).

Definition set_rng (v : Seed) (s : State) : State :=
  mkState (runtime s) (grid s) (activeBubble s) (aimAngle s) (aimStrength s)
    (pointerLocked s) (nextQueue s) (shots s) (rowOffset s) (lastFrame s)
    (freezeUntil s) (aimBoostUntil s) v (history s).

(** Appends an entry to the ghost log. *)
Definition logEvent (e : Event) (s : State) : State :=
  mkState (runtime s) (grid s) (activeBubble s) (aimAngle s) (aimStrength s)
    (pointerLocked s) (nextQueue s) (shots s) (rowOffset s) (lastFrame s)
    (freezeUntil s) (aimBoostUntil s) (rng s) (history s ++ [e]).

(** *** Constants of the component *)

Definition MAX_COMBO_MULTIPLIER : R := 8.

(** [aimAngleConstraints.min] and [.max]. *)
Definition aimAngleMin : R := (-4 * PI) / 5.
Definition aimAngleMax : R := (-1 * PI) / 8.

Definition computeShotSpeed (lvl : LevelConfig) : R :=
  520 + Rmin (levelNumber lvl * 16) 220.

(** The left and right walls of [updateActiveBubble]. *)
Definition leftBound : R := bubbleRadius GAME_METRICS + 24.
Definition rightBound : R :=
  width GAME_METRICS - (bubbleRadius GAME_METRICS + 24).

(** The height at which a bubble sticks to the ceiling. *)
Definition ceilingLine : R :=
  topMargin GAME_METRICS + bubbleRadius GAME_METRICS / 2.

(** The largest centre distance that counts as a contact. *)
Definition contactDistance : R := bubbleRadius GAME_METRICS * 2 - 2.

(** *** Callbacks *)

(** [activateNextBubble]; [activeLevel] is the level the closure captured.
    The head is [None] when the queue is empty ([current] is [undefined]). *)
Definition activateNextBubble (activeLevel : LevelConfig) (s : State)
  : option ShooterBubbleCandidate * State :=
  let current := hd_error (nextQueue s) in
  let rest := tl (nextQueue s) in
  let '(next, seed1) :=
    if (0 <? length rest)%nat then (rest, rng s)
    else let '(c, seed) := generateShooterBubble activeLevel (rng s) in
         ([c], seed) in
  let '(fresh, seed2) := generateShooterBubble activeLevel seed1 in
  (current, set_rng seed2 (set_nextQueue (next ++ [fresh]) s)).

Definition handleMatchResults (removedCount comboBonus : R) (s : State)
  : State :=
  let rt := runtime s in
  if removedCount >? 0 then
    let rt1 := with_combo (clamp (combo rt + 1) 1 MAX_COMBO_MULTIPLIER) rt in
    let gained :=
      removedCount * 80 + comboBonus * combo rt1 * 10
      + (if removedCount >=? 6 then 150 else 0) in
    set_runtime (with_score (score rt1 + gained) rt1) s
  else
    set_runtime (with_combo 1 rt) s.

Definition triggerSpecialEffect (now : R) (t : BubbleType) (s : State)
  : State :=
  match t with
  | obstacle | normal => s
  | freeze => set_freezeUntil (Some (now + 5000)) s
  | aim => set_aimBoostUntil (Some (now + 7000)) s
  | bomb | rainbow => s
  end.

(** [resolveLanding]: [placeBubbleOnGrid] returns the grid that is stored,
    [computeMatchResult] works on the stored grid in place.  Of the visual
    effect only its call of [Math.random] is kept. *)
Definition resolveLanding (now : R) (bubble : ActiveBubble) (s : State)
  : State :=
  let s0 := logEvent (Landed bubble) s in
  let '(g, row, col) := placeBubbleOnGrid (grid s0) bubble in
  let '(m, g') := computeMatchResult g row col in
  let s1 :=
    if (0 <? length (removed m))%nat
    then set_rng (snd (Math_random (rng s0))) (set_grid g' s0)
    else set_grid g' s0 in
  let s2 :=
    handleMatchResults (INR (length (removed m) + length (floating m)))
      (comboBonus m) s1 in
  let s3 :=
    fold_left (fun st cell => triggerSpecialEffect now (cell_type cell) st)
      (triggeredSpecials m) s2 in
  if gridCleared (grid s3)
  then set_runtime (with_cleared true (runtime s3)) s3
  else s3.

(** [performShoot].  With an empty queue [shooter] is [undefined] and
    [shooter.color] throws after [activateNextBubble] has run. *)
Definition performShoot (activeLevel : LevelConfig) (now dateNow : R)
  (s : State) : State :=
  if cleared (runtime s) || (lives (runtime s) <=? 0) then s
  else match activeBubble s with
  | Some _ => s
  | None =>
    let '(shooter, s1) := activateNextBubble activeLevel s in
    match shooter with
    | None => s1
    | Some sh =>
      let bubble := {|
        id := dateNow;
        color := cand_color sh;
        type := cand_type sh;
        x := width GAME_METRICS / 2;
        y := shooterY GAME_METRICS - bubbleRadius GAME_METRICS - 4;
        dx := cos (aimAngle s1);
        dy := sin (aimAngle s1);
        speed := computeShotSpeed (level (runtime s1));
        launchedAt := now |} in
      let s2 := logEvent (Fired bubble) (set_activeBubble (Some bubble) s1) in
      let s3 :=
        if isNormal (cand_type sh) then s2
        else triggerSpecialEffect now (cand_type sh) s2 in
      set_shots (shots s3 + 1) s3
    end
  end.

(** What [loseLife] writes into the runtime object it is handed. *)
Definition loseLifeInPlace (rt : LevelRuntimeState) : LevelRuntimeState :=
  with_combo 1 (with_lives (lives rt - 1) rt).

(** [loseLife]: the stored runtime is a copy of the object written in place;
    at zero lives a second copy with [cleared: false] replaces it. *)
Definition loseLife (s : State) : State :=
  let rt := loseLifeInPlace (runtime s) in
  let s1 := logEvent LifeLost (set_runtime rt s) in
  let '(g, seed) := generateInitialGrid (level rt) (rng s1) in
  let s2 := set_activeBubble None (set_rng seed (set_grid g s1)) in
  if lives rt <=? 0 then set_runtime (with_cleared false rt) s2 else s2.

(** [frozen] of [dropCycle]: [freezeUntilRef.current &&
    freezeUntilRef.current > timestamp]. *)
Definition frozen (timestamp : R) (s : State) : bool :=
  match freezeUntil s with
  | None => false
  | Some f => JS.truthy f && (f >? timestamp)
  end.

(** [interval] of [dropCycle]. *)
Definition interval (timestamp : R) (s : State) : R :=
  let lvl := level (runtime s) in
  if frozen timestamp s then descentInterval lvl * 1.65
  else descentInterval lvl.

(** The test of [dropCycle]. *)
Definition dropDue (timestamp : R) (s : State) : bool :=
  timestamp - lastDropAt (runtime s) >=? interval timestamp s.

(** [dropCycle]: [dropNewRow] works on the stored grid in place. *)
Definition dropCycle (timestamp : R) (s : State) : State :=
  if dropDue timestamp s then
    let '(g, seed) := dropNewRow (grid s) (level (runtime s)) (rng s) in
    let s1 := logEvent RowDropped (set_rng seed (set_grid g s)) in
    let s2 := set_runtime (with_lastDropAt timestamp (runtime s1)) s1 in
    if gridReachedFailureLine (grid s2) then loseLife s2 else s2
  else s.

(** [applyTimeLimit].  After [loseLife] returns, [runtime] still names the
    object that [loseLife] wrote in place, and a copy of that object is what
    is stored last. *)
Definition applyTimeLimit (now delta : R) (s : State) : State :=
  match timeLimitSeconds (level (runtime s)) with
  | None => s
  | Some _ =>
    let remaining := JS.orElse (timeLeft (runtime s)) 0 - delta / 1000 in
    let rt := with_timeLeft (Some remaining) (runtime s) in
    if remaining <=? 0 then
      let rt0 := with_timeLeft (Some 0) rt in
      let s1 := loseLife (set_runtime rt0 s) in
      set_runtime (with_lastDropAt now (loseLifeInPlace rt0)) s1
    else set_runtime rt s
  end.

Definition updateMovingRows (timestamp : R) (s : State) : State :=
  let lvl := level (runtime s) in
  match movingRows lvl with
  | None | Some [] => s
  | Some rows =>
    let amplitude := JS.orElse (movingAmplitude lvl) 20 in
    let spd := JS.orElse (movingSpeed lvl) 1 in
    set_rowOffset
      (fold_left
         (fun offsets row =>
            let offset :=
              sin (timestamp / (900 / spd) + INR row) * amplitude
              * (if Nat.even row then 1 else -1) in
            JS.setIndex row offset offsets)
         rows (rowOffset s))
      s
  end.

(** [gridRef.current[row]?.[col]]; [None] is [null] or [undefined]. *)
Definition cellAt (g : Grid) (row col : nat) : option Cell :=
  match nth_error g row with
  | Some cells =>
    match nth_error cells col with Some c => c | None => None end
  | None => None
  end.

(** The first two statements of [updateActiveBubble] after the guard. *)
Definition integrate (deltaMs : R) (b : ActiveBubble) : ActiveBubble :=
  let deltaSeconds := deltaMs / 1000 in
  mkBubble (id b) (color b) (type b)
    (x b + dx b * speed b * deltaSeconds)
    (y b + dy b * speed b * deltaSeconds)
    (dx b) (dy b) (speed b) (launchedAt b).

(** The wall test and the bounce. *)
Definition bounce (b : ActiveBubble) : ActiveBubble :=
  if (x b <=? leftBound) || (x b >=? rightBound) then
    mkBubble (id b) (color b) (type b)
      (clamp (x b) leftBound rightBound) (y b)
      (dx b * -1) (dy b) (speed b) (launchedAt b)
  else b.

(** The ceiling test. *)
Definition atCeiling (b : ActiveBubble) : bool := y b <=? ceilingLine.

(** [dist] of the inner loop body, for a cell of row [row]. *)
Definition distanceTo (offsets : list (option R)) (b : ActiveBubble)
  (row : nat) (cell : Cell) : R :=
  let offset := JS.orElse (JS.getIndex row offsets) 0 in
  let cx := cell_x cell + offset in
  let dx := x b - cx in
  let dy := y b - cell_y cell in
  sqrt (dx * dx + dy * dy).

(** The inner loop body: does slot ([row], [col]) stop the bubble? *)
Definition touches (g : Grid) (offsets : list (option R)) (b : ActiveBubble)
  (row col : nat) : bool :=
  match cellAt g row col with
  | None => false
  | Some cell =>
    if isObstacle (cell_type cell) then false
    else distanceTo offsets b row cell <=? contactDistance
  end.

(** The loop over [col], from [col] for [n] more slots: the first slot that
    stops the bubble. *)
Fixpoint scanCols (g : Grid) (offsets : list (option R)) (b : ActiveBubble)
  (row col n : nat) : option (nat * nat) :=
  match n with
  | O => None
  | S n' =>
    if touches g offsets b row col then Some (row, col)
    else scanCols g offsets b row (S col) n'
  end.

(** The loop over [row], from [row] for [n] more rows. *)
Fixpoint scanRows (g : Grid) (offsets : list (option R)) (b : ActiveBubble)
  (row n : nat) : option (nat * nat) :=
  match n with
  | O => None
  | S n' =>
    match scanCols g offsets b row 0 GRID_COLS with
    | Some hit => Some hit
    | None => scanRows g offsets b (S row) n'
    end
  end.

(** Both loops of [updateActiveBubble]. *)
Definition firstContact (s : State) (b : ActiveBubble) : option (nat * nat) :=
  scanRows (grid s) (rowOffset s) b 0 (length (grid s)).

(** [updateActiveBubble]: the bubble object is moved in place, and on either
    stop [resolveLanding] runs once and the ref is set to [null]. *)
Definition updateActiveBubble (now deltaMs : R) (s : State) : State :=
  match activeBubble s with
  | None => s
  | Some b0 =>
    let bubble := bounce (integrate deltaMs b0) in
    let s1 := set_activeBubble (Some bubble) s in
    if atCeiling bubble then
      set_activeBubble None (resolveLanding now bubble s1)
    else
      match firstContact s1 bubble with
      | Some _ => set_activeBubble None (resolveLanding now bubble s1)
      | None => s1
      end
  end.

(** [delta] of [animationLoop]: a [null] or zero [lastFrameRef] is first set
    to [timestamp]. *)
Definition frameDelta (timestamp : R) (s : State) : R :=
  let last :=
    match lastFrame s with
    | Some t => if JS.truthy t then t else timestamp
    | None => timestamp
    end in
  timestamp - last.

(** The calls of [animationLoop] that follow [updateActiveBubble]. *)
Definition finishFrame (timestamp now delta : R) (s : State) : State :=
  let s1 := updateMovingRows timestamp s in
  match timeLimitSeconds (level (runtime s1)) with
  | Some _ => applyTimeLimit now delta s1
  | None => s1
  end.

(** One run of [loop]; [pruneEffects], [drawScene] and [setDynamicLight]
    leave [State] as it is. *)
Definition animationLoop (timestamp now : R) (s : State) : State :=
  let delta := frameDelta timestamp s in
  let s0 := set_lastFrame (Some timestamp) s in
  let s1 := dropCycle timestamp s0 in
  let s2 := updateActiveBubble now delta s1 in
  finishFrame timestamp now delta s2.

(** [handlePointerMove]; [px], [py] are the pointer position in the canvas
    ([event.clientX - rect.left], [event.clientY - rect.top]). *)
Definition handlePointerMove (px py : R) (s : State) : State :=
  if negb (pointerLocked s) then s
  else
    let dx := px - width GAME_METRICS / 2 in
    let dy := py - (shooterY GAME_METRICS - bubbleRadius GAME_METRICS) in
    let angle := clamp (Math_atan2 dy dx) aimAngleMin aimAngleMax in
    set_aimStrength
      (clamp (1 - Rmin (Rabs dx / (width GAME_METRICS / 2)) 0.85) 0.45 1)
      (set_aimAngle angle s).

Definition handlePointerDown (activeLevel : LevelConfig) (now dateNow : R)
  (s : State) : State :=
  performShoot activeLevel now dateNow (set_pointerLocked true s).

Definition handlePointerUp (s : State) : State := set_pointerLocked false s.

(** [event.code] as far as [handleKeyDown] tells codes apart. *)
Inductive KeyCode := Space | ArrowLeft | ArrowRight | OtherKey.

Definition handleKeyDown (activeLevel : LevelConfig) (now dateNow : R)
  (code : KeyCode) (s : State) : State :=
  match code with
  | Space => performShoot activeLevel now dateNow s
  | ArrowLeft =>
    set_aimAngle (clamp (aimAngle s - 0.08) aimAngleMin aimAngleMax) s
  | ArrowRight =>
    set_aimAngle (clamp (aimAngle s + 0.08) aimAngleMin aimAngleMax) s
  | OtherKey => s
  end.

(** [Array(MAX_ROWS).fill(0)]. *)
Definition zeroOffsets : list (option R) := repeat (Some 0) MAX_ROWS.

(** [resetLevelState]; [levelIndex] is the index the closure captured. *)
Definition resetLevelState (levelIndex : nat) (lvl : LevelConfig) (now : R)
  (s : State) : State :=
  let rt := {|
    level := lvl;
    score := if (levelIndex =? 0)%nat then 0 else score (runtime s);
    combo := 1;
    lives := 3;
    cleared := false;
    timeLeft := timeLimitSeconds lvl;
    lastDropAt := now |} in
  let '(g, seed0) := generateInitialGrid lvl (rng s) in
  let '(c1, seed1) := generateShooterBubble lvl seed0 in
  let '(c2, seed2) := generateShooterBubble lvl seed1 in
  {| runtime := rt;
     grid := g;
     activeBubble := None;
     aimAngle := - PI / 2;
     aimStrength := 1;
     pointerLocked := pointerLocked s;
     nextQueue := [c1; c2];
     shots := 0;
     rowOffset := zeroOffsets;
     lastFrame := None;
     freezeUntil := None;
     aimBoostUntil := None;
     rng := seed2;
     history := history s |}.

(** The refs as the first render creates them. *)
Definition initialState (activeLevel : LevelConfig) (now : R) (seed : Seed)
  : State :=
  let '(g, seed0) := generateInitialGrid activeLevel seed in
  let '(c1, seed1) := generateShooterBubble activeLevel seed0 in
  let '(c2, seed2) := generateShooterBubble activeLevel seed1 in
  {| runtime := {|
       level := activeLevel;
       score := 0;
       combo := 1;
       lives := 3;
       cleared := false;
       timeLeft := timeLimitSeconds activeLevel;
       lastDropAt := now |};
     grid := g;
     activeBubble := None;
     aimAngle := - PI / 2;
     aimStrength := 1;
     pointerLocked := false;
     nextQueue := [c1; c2];
     shots := 0;
     rowOffset := zeroOffsets;
     lastFrame := None;
     freezeUntil := None;
     aimBoostUntil := None;
     rng := seed2;
     history := [] |}.

(** *** The component as a transition system *)

(** What the browser can deliver to the component.  [activeLevel] and
    [levelIndex] are the values captured by the closure that runs.  A render
    evaluates the arguments of [useRef] again ([generateInitialGrid] and
    [generateShooterBubble], whose results are dropped) and so leaves the
    generator of [Math.random] in another state. *)
Inductive Input :=
| Render (seed : Seed)
| Frame (timestamp now : R)
| PointerMove (px py : R)
| PointerDown (activeLevel : LevelConfig) (now dateNow : R)
| PointerUp
| KeyDown (activeLevel : LevelConfig) (now dateNow : R) (code : KeyCode)
| ResetLevel (levelIndex : nat) (lvl : LevelConfig) (now : R).

Definition step (s : State) (i : Input) : State :=
  match i with
  | Render seed => set_rng seed s
  | Frame timestamp now => animationLoop timestamp now s
  | PointerMove px py => handlePointerMove px py s
  | PointerDown activeLevel now dateNow =>
    handlePointerDown activeLevel now dateNow s
  | PointerUp => handlePointerUp s
  | KeyDown activeLevel now dateNow code =>
    handleKeyDown activeLevel now dateNow code s
  | ResetLevel levelIndex lvl now => resetLevelState levelIndex lvl now s
  end.

Definition run (s : State) (inputs : list Input) : State :=
  fold_left step inputs s.

(** The states the component can be in. *)
Inductive reachable : State -> Prop :=
| reachable_init : forall activeLevel now seed,
    reachable (initialState activeLevel now seed)
| reachable_step : forall s i, reachable s -> reachable (step s i).

(** Does the input ask for a shot? *)
Definition isFire (i : Input) : bool :=
  match i with
  | PointerDown _ _ _ => true
  | KeyDown _ _ _ Space => true
  | _ => false
  end.

(** The log entries added between two states. *)
Definition newEvents (before after : State) : list Event :=
  skipn (length (history before)) (history after).

Definition landings (evs : list Event) : nat :=
  length (filter isLanded evs).

(** *** Vocabulary of the properties *)

(** [s'] differs from [s] at most in the two effect timers. *)
Definition sameButTimers (s s' : State) : Prop :=
  runtime s' = runtime s /\ grid s' = grid s
  /\ activeBubble s' = activeBubble s /\ aimAngle s' = aimAngle s
  /\ nextQueue s' = nextQueue s /\ rowOffset s' = rowOffset s
  /\ rng s' = rng s /\ history s' = history s.

(** The grid and seed that [dropNewRow] leaves behind. *)
Definition droppedGrid (s : State) : Grid :=
  fst (dropNewRow (grid s) (level (runtime s)) (rng s)).

(** Does the row drop of this frame push a bubble over the failure line? *)
Definition dropBreaches (s : State) : bool :=
  gridReachedFailureLine (droppedGrid s).

(** The log entries of [dropCycle]. *)
Definition dropEvents (timestamp : R) (s : State) : list Event :=
  if dropDue timestamp s then
    if dropBreaches s then [RowDropped; LifeLost] else [RowDropped]
  else [].

(** The log entries of [applyTimeLimit]. *)
Definition timeLimitEvents (delta : R) (s : State) : list Event :=
  match timeLimitSeconds (level (runtime s)) with
  | None => []
  | Some _ =>
    if JS.orElse (timeLeft (runtime s)) 0 - delta / 1000 <=? 0
    then [LifeLost] else []
  end.

(** Slot ([r'], [c']) is visited before slot ([r], [c]). *)
Definition scannedBefore (r' c' r c : nat) : Prop :=
  (r' < r \/ (r' = r /\ c' < c))%nat.

(** The bubble after the two position updates and the wall test. *)
Definition moved (deltaMs : R) (b : ActiveBubble) : ActiveBubble :=
  bounce (integrate deltaMs b).

(** Does the moved bubble stop in this frame? *)
Definition stops (s : State) (b : ActiveBubble) : bool :=
  atCeiling b
  || match firstContact s b with Some _ => true | None => false end.

(** The log entries of [updateActiveBubble]. *)
Definition motionEvents (deltaMs : R) (s : State) : list Event :=
  match activeBubble s with
  | None => []
  | Some b0 =>
    if stops s (moved deltaMs b0) then [Landed (moved deltaMs b0)] else []
  end.

(** The test that makes [performShoot] return at once. *)
Definition rejects (s : State) : bool :=
  cleared (runtime s) || (lives (runtime s) <=? 0)
  || match activeBubble s with Some _ => true | None => false end.

(** The bubble that [performShoot] launches for candidate [sh]. *)
Definition launched (now dateNow : R) (sh : ShooterBubbleCandidate)
  (s : State) : ActiveBubble :=
  {| id := dateNow;
     color := cand_color sh;
     type := cand_type sh;
     x := width GAME_METRICS / 2;
     y := shooterY GAME_METRICS - bubbleRadius GAME_METRICS - 4;
     dx := cos (aimAngle s);
     dy := sin (aimAngle s);
     speed := computeShotSpeed (level (runtime s));
     launchedAt := now |}.

(** The state of a frame before and after each of its first two calls. *)
Definition frameStart (timestamp : R) (s : State) : State :=
  set_lastFrame (Some timestamp) s.

Definition afterDescent (timestamp : R) (s : State) : State :=
  dropCycle timestamp (frameStart timestamp s).

Definition afterMotion (timestamp now : R) (s : State) : State :=
  updateActiveBubble now (frameDelta timestamp s) (afterDescent timestamp s).

(** The log entries of one frame. *)
Definition frameEvents (timestamp now : R) (s : State) : list Event :=
  dropEvents timestamp (frameStart timestamp s)
  ++ motionEvents (frameDelta timestamp s) (afterDescent timestamp s)
  ++ timeLimitEvents (frameDelta timestamp s) (afterMotion timestamp now s).

Definition queueFull (s : State) : Prop :=
  exists c1 c2, nextQueue s = [c1; c2].

Definition aimInRange (s : State) : Prop :=
  aimAngleMin <= aimAngle s <= aimAngleMax.

Definition comboInRange (s : State) : Prop :=
  1 <= combo (runtime s) <= MAX_COMBO_MULTIPLIER.

(** *** Vocabulary of the further properties *)

(** What holds of a projectile from its launch to its landing: it keeps the
    direction of an angle of the aim range, mirrored or not by the walls. *)
Definition inFlight (b : ActiveBubble) : Prop :=
  (exists angle,
     aimAngleMin <= angle <= aimAngleMax
     /\ dy b = sin angle /\ (dx b = cos angle \/ dx b = - cos angle))
  /\ speed b <= 740.

(** The match that [resolveLanding] computes for [bubble]. *)
Definition landingMatch (s : State) (bubble : ActiveBubble) : MatchResult :=
  let '(g, row, col) := placeBubbleOnGrid (grid s) bubble in
  fst (computeMatchResult g row col).

(** The grid that [resolveLanding] leaves. *)
Definition landedGrid (s : State) (bubble : ActiveBubble) : Grid :=
  let '(g, row, col) := placeBubbleOnGrid (grid s) bubble in
  snd (computeMatchResult g row col).

Definition isFreeze (cell : Cell) : bool :=
  match cell_type cell with freeze => true | _ => false end.

Definition isAim (cell : Cell) : bool :=
  match cell_type cell with aim => true | _ => false end.

(** The offset that [updateMovingRows] writes for [row]. *)
Definition waveOffset (timestamp amplitude spd : R) (row : nat) : R :=
  sin (timestamp / (900 / spd) + INR row) * amplitude
  * (if Nat.even row then 1 else -1).

(** The refs that only the input handlers and [animationLoop] itself
    write. *)
Definition controls (s : State) : R * option R * bool * R :=
  (aimStrength s, lastFrame s, pointerLocked s, shots s).

End Component.

Arguments State U : clear implicits.

(** ** Ratings, the clock display and the visual effects

    The functions of the component that only feed the display. *)

Section Display.

Import String.StringSyntax.
Local Open Scope string_scope.
Local Open Scope list_scope.
Local Open Scope R_scope.

(** [a === b] on numbers. *)
Definition numEq (a b : R) : bool := if Req_dec_T a b then true else false.

(** [difficultyModifier] of [computeStarRating]; [difficulty] is
    [level.difficulty], a field of the level that the callbacks of the
    simulation do not read. *)
Definition difficultyModifier (difficulty : String.string) : R :=
  if String.eqb difficulty "Easy" then 0.9
  else if String.eqb difficulty "Medium" then 1
  else if String.eqb difficulty "Hard" then 1.18
  else if String.eqb difficulty "Very Hard" then 1.3
  else 1.42.

(** [thresholds] of [computeStarRating]. *)
Definition starThresholds (lvl : LevelConfig) : R * R * R :=
  (3000 + levelNumber lvl * 160,
   5500 + levelNumber lvl * 260,
   8000 + levelNumber lvl * 340).

(** [computeStarRating]; [level.difficulty] is passed beside the level. *)
Definition computeStarRating (score shots livesLeft : R)
  (difficulty : String.string) (lvl : LevelConfig) : R :=
  let accuracy := score / Rmax shots 1 in
  let scoreNorm := score * difficultyModifier difficulty + livesLeft * 400 in
  let '(t0, t1, t2) := starThresholds lvl in
  if (scoreNorm >=? t2) && (accuracy >? 120) then 3
  else if (scoreNorm >=? t1) && (accuracy >? 95) then 2
  else if scoreNorm >=? t0 then 1
  else 0.

(** [n.toString()] for a natural number that is written without an
    exponent (below [10 ^ 21]). *)
Definition toString (n : Z) : String.string :=
  NilEmpty.string_of_uint (N.to_uint (Z.to_N n)).

(** [text.padStart(2, "0")]. *)
Definition padStart2 (text : String.string) : String.string :=
  match String.length text with
  | O => "00"
  | 1%nat => String.append "0" text
  | _ => text
  end.

(** [formatTime]; [None] is [undefined]. *)
Definition formatTime (seconds : option R) : String.string :=
  match seconds with
  | None => ""
  | Some t =>
    let clamped := Z.max 0 (Zfloor t) in
    let mins := padStart2 (toString (clamped / 60)) in
    let secs := padStart2 (toString (clamped mod 60)) in
    String.append mins (String.append ":" secs)
  end.

Record StarTrack := mkStarTrack {
  star_level : R;
  star_stars : R;
  star_score : R
}.

(** The update that [resolveLanding] passes to [setStars] when the grid is
    cleared. *)
Definition recordStars (lvl : LevelConfig) (starRating score : R)
  (prev : list StarTrack) : list StarTrack :=
  filter (fun entry => negb (numEq (star_level entry) (levelNumber lvl))) prev
  ++ [{| star_level := levelNumber lvl; star_stars := starRating;
         star_score := score |}].

(** [currentLevelStars]; [lvl] is [hud.level]. *)
Definition currentLevelStars (stars : list StarTrack) (lvl : LevelConfig)
  : R :=
  match find (fun entry => numEq (star_level entry) (levelNumber lvl)) stars
  with
  | Some entry => star_stars entry
  | None => 0
  end.

(** [starSummary] as the pair ([earned], [total]); [levelCount] is
    [LEVELS.length]. *)
Definition starSummary (levelCount levelIndex : R) (stars : list StarTrack)
  : R * R :=
  fold_left (fun acc entry => (fst acc + star_stars entry, snd acc + 3))
    stars (0, Rmin levelCount (levelIndex + 1) * 3).

Record VisualEffect := mkEffect {
  fx_id : R;
  fx_x : R;
  fx_y : R;
  fx_radius : R;
  fx_color : String.string;
  fx_createdAt : R;
  fx_duration : R
}.

(** [addEffect] on the list held by [effectRef]. *)
Definition addEffect (effect : VisualEffect) (effects : list VisualEffect)
  : list VisualEffect :=
  effects ++ [effect].

(** [pruneEffects] on the list held by [effectRef]: the filtered list is
    stored only when its length differs. *)
Definition pruneEffects (now : R) (effects : list VisualEffect)
  : list VisualEffect :=
  let filtered :=
    filter (fun fx => now - fx_createdAt fx <? fx_duration fx) effects in
  if negb (length filtered =? length effects)%nat then filtered else effects.

(** The effect that [resolveLanding] adds when cells were removed; [rnd] is
    the value of [Math.random()]. *)
Definition landingEffect (now dateNow rnd : R) (bubble : ActiveBubble)
  (m : MatchResult) : VisualEffect :=
  {| fx_id := dateNow + rnd;
     fx_x := x bubble;
     fx_y := y bubble;
     fx_radius := 10 + INR (length (removed m)) * 2;
     fx_color := color bubble;
     fx_createdAt := now;
     fx_duration := 420 |}.

(** [scoreNorm] and [accuracy] of [computeStarRating]. *)
Definition scoreNorm (score livesLeft : R) (difficulty : String.string) : R :=
  score * difficultyModifier difficulty + livesLeft * 400.

Definition accuracy (score shots : R) : R := score / Rmax shots 1.

End Display.

(** ** A concrete [@/lib/gameUtils]

    The component's theorems hold for every instance of [GameUtils].  This
    one is used to run the component on concrete inputs. *)

Module Sample.

Import String.StringSyntax.
Local Open Scope string_scope.
Local Open Scope R_scope.

(** Modelled from the spec: [GAME_METRICS] is not defined in the component.
    The canvas is 512 by 640; the other three lengths are sample values. *)
Definition metrics : Metrics :=
  {| width := 512; height := 640; shooterY := 580; bubbleRadius := 20;
     topMargin := 40 |}.

(** Modelled from the spec: [GRID_COLS], "fixed column count". *)
Definition cols : nat := 4.

(** Modelled from the spec: [MAX_ROWS], "rows bounded by a maximum row
    count". *)
Definition maxRows : nat := 5.

(** Modelled from the spec: the failure line, "a row near the shooter, not
    necessarily the last row". *)
Definition failureRow : nat := 3.

(** Modelled from the spec: [clamp], "clamp x back inside bounds". *)
Definition clamp (v lo hi : R) : R := Rmin (Rmax v lo) hi.

(** Modelled from the spec: [cellCenter], "a fixed horizontal spacing and a
    half-column offset on odd rows; vertical spacing fixed per row". *)
Definition cellCenter (row col : nat) : R * R :=
  (44 + 40 * INR col + (if Nat.even row then 0 else 20), 60 + 36 * INR row).

Definition makeCell (row col : nat) (c : String.string) (t : BubbleType)
  : Cell :=
  {| cell_x := fst (cellCenter row col); cell_y := snd (cellCenter row col);
     cell_color := c; cell_type := t |}.

Definition emptyRow : list (option Cell) := repeat None cols.

(** The palette of the sample levels. *)
Definition pick (n : nat) : String.string :=
  match Nat.modulo n 3 with
  | O => "red"
  | 1%nat => "blue"
  | _ => "green"
  end.

(** A full row of normal bubbles, coloured from the seed. *)
Definition freshRow (row seed : nat) : list (option Cell) :=
  map (fun col => Some (makeCell row col (pick (seed + col)) normal))
    (seq 0 cols).

(** Modelled from the spec: [generateShooterBubble], "produces the next
    shooter bubble (color + special type)"; the seed stands for
    [Math.random]. *)
Definition generateShooterBubble (lvl : LevelConfig) (seed : nat)
  : ShooterBubbleCandidate * nat :=
  ({| cand_color := pick seed; cand_type := normal |}, S seed).

(** Modelled from the spec: [generateInitialGrid], "fills a fixed number of
    top rows, leaving lower rows empty". *)
Definition generateInitialGrid (lvl : LevelConfig) (seed : nat)
  : Grid * nat :=
  (freshRow 0 seed :: freshRow 1 (S seed) :: repeat emptyRow (maxRows - 2),
   seed + 2)%nat.

(** A row moved down to index [row]: its cells get the centres of that
    row. *)
Definition moveRow (row : nat) (cells : list (option Cell))
  : list (option Cell) :=
  map (fun '(col, slot) =>
         option_map
           (fun c => makeCell row col (cell_color c) (cell_type c)) slot)
    (combine (seq 0 (length cells)) cells).

(** Modelled from the spec: [dropNewRow], "shifts every existing row down by
    one index (rows beyond the maximum are permanently lost) and synthesizes
    a new row 0". *)
Definition dropNewRow (g : Grid) (lvl : LevelConfig) (seed : nat)
  : Grid * nat :=
  let kept := firstn (maxRows - 1) g in
  (freshRow 0 seed
   :: map (fun '(row, cells) => moveRow (S row) cells)
        (combine (seq 0 (length kept)) kept),
   S seed).

Definition occupied (slot : option Cell) : bool :=
  match slot with Some _ => true | None => false end.

(** Modelled from the spec: [gridCleared], "true iff no cell is occupied". *)
Definition gridCleared (g : Grid) : bool :=
  forallb (fun cells => negb (existsb occupied cells)) g.

(** Modelled from the spec: [gridReachedFailureLine], "true iff any occupied
    cell's row index is at or beyond the configured failure row threshold". *)
Definition gridReachedFailureLine (g : Grid) : bool :=
  existsb (existsb occupied) (skipn failureRow g).

(** The slot ([row], [col]) of a grid, written. *)
Definition setCell (g : Grid) (row col : nat) (slot : option Cell) : Grid :=
  map (fun '(r, cells) =>
         if (r =? row)%nat then
           map (fun '(c, old) => if (c =? col)%nat then slot else old)
             (combine (seq 0 (length cells)) cells)
         else cells)
    (combine (seq 0 (length g)) g).

(** The empty slots of a grid, row by row. *)
Definition emptySlots (g : Grid) : list (nat * nat) :=
  filter (fun '(row, col) => negb (occupied (cellAt g row col)))
    (list_prod (seq 0 (length g)) (seq 0 cols)).

Definition squaredDistance (b : ActiveBubble) (rc : nat * nat) : R :=
  let '(cx, cy) := cellCenter (fst rc) (snd rc) in
  (x b - cx) * (x b - cx) + (y b - cy) * (y b - cy).

(** Modelled from the spec: [placeBubbleOnGrid], "resolves final row/col
    [to the nearest empty cell] and writes the projectile's color/special
    kind into that cell"; a full grid is returned as it is. *)
Definition placeBubbleOnGrid (g : Grid) (b : ActiveBubble)
  : Grid * nat * nat :=
  match emptySlots g with
  | [] => (g, 0%nat, 0%nat)
  | first :: others =>
    let best :=
      fold_left
        (fun best rc =>
           if squaredDistance b rc <? squaredDistance b best then rc
           else best)
        others first in
    (setCell g (fst best) (snd best)
       (Some (makeCell (fst best) (snd best) (color b) (type b))),
     fst best, snd best)
  end.

(** Modelled from the spec: [neighbors], "same row left/right, row-1 and
    row+1 each contribute two neighbors whose column offset depends on row
    parity; coordinates outside grid bounds are excluded". *)
Definition neighbors (row col : nat) : list (nat * nat) :=
  let left := match col with S c => [c] | O => [] end in
  let slanted := if Nat.even row then left ++ [col] else [col; S col] in
  let above :=
    match row with S r => map (pair r) slanted | O => [] end in
  filter (fun '(r, c) => (r <? maxRows)%nat && (c <? cols)%nat)
    (map (pair row) (left ++ [S col]) ++ above ++ map (pair (S row)) slanted).

Definition sameSlot (a b : nat * nat) : bool :=
  ((fst a =? fst b) && (snd a =? snd b))%nat.

Definition visitedIn (rc : nat * nat) (seen : list (nat * nat)) : bool :=
  existsb (sameSlot rc) seen.

(** The slots reachable from [frontier] through [neighbors] over slots that
    satisfy [joins]. *)
Fixpoint flood (fuel : nat) (joins : nat * nat -> bool)
  (frontier seen : list (nat * nat)) : list (nat * nat) :=
  match fuel, frontier with
  | O, _ | _, [] => seen
  | S fuel', rc :: rest =>
    if visitedIn rc seen || negb (joins rc) then flood fuel' joins rest seen
    else flood fuel' joins (neighbors (fst rc) (snd rc) ++ rest) (rc :: seen)
  end.

Definition floodFuel : nat := 8 * maxRows * cols + 8.

Definition cellsAt (g : Grid) (slots : list (nat * nat)) : list Cell :=
  flat_map
    (fun rc =>
       match cellAt g (fst rc) (snd rc) with Some c => [c] | None => [] end)
    slots.

Definition clearSlots (g : Grid) (slots : list (nat * nat)) : Grid :=
  fold_left (fun g' rc => setCell g' (fst rc) (snd rc) None) slots g.

(** Does the bubble of slot [rc] continue a cluster of colour [c]? *)
Definition matches (g : Grid) (c : String.string) (rc : nat * nat) : bool :=
  match cellAt g (fst rc) (snd rc) with
  | Some cell =>
    match cell_type cell with
    | obstacle => false
    | rainbow => true
    | _ => String.eqb (cell_color cell) c
    end
  | None => false
  end.

Definition isTrigger (cell : Cell) : bool :=
  match cell_type cell with freeze | aim => true | _ => false end.

(** Modelled from the spec: [computeMatchResult], "finds the maximal
    same-color/wild connected cluster; if size >= 3, removes it [a bomb
    removes its neighbors whatever the size]; then removes all cells no
    longer connected to the ceiling row; any removed cell whose kind is
    freeze or aim contributes a triggered-special entry; combo bonus is
    proportional to floating-cluster size". *)
Definition computeMatchResult (g : Grid) (row col : nat)
  : MatchResult * Grid :=
  match cellAt g row col with
  | None => ({| removed := []; floating := []; comboBonus := 0;
                triggeredSpecials := [] |}, g)
  | Some placed =>
    let cluster :=
      flood floodFuel (matches g (cell_color placed)) [(row, col)] [] in
    let blast :=
      match cell_type placed with
      | bomb => (row, col) :: neighbors row col
      | _ => []
      end in
    let gone :=
      if (3 <=? length cluster)%nat
      then cluster ++ filter (fun rc => negb (visitedIn rc cluster)) blast
      else blast in
    let g1 := clearSlots g gone in
    let anchored :=
      flood floodFuel (fun rc => occupied (cellAt g1 (fst rc) (snd rc)))
        (map (pair 0%nat) (seq 0 cols)) [] in
    let adrift :=
      filter
        (fun '(r, c) =>
           occupied (cellAt g1 r c) && negb (visitedIn (r, c) anchored))
        (list_prod (seq 0 (length g1)) (seq 0 cols)) in
    let removedCells := cellsAt g gone in
    let floatingCells := cellsAt g1 adrift in
    ({| removed := removedCells;
        floating := floatingCells;
        comboBonus := INR (length floatingCells);
        triggeredSpecials := filter isTrigger (removedCells ++ floatingCells)
     |},
     clearSlots g1 adrift)
  end.

(** [Math.atan2] as the language defines it: the angle of the point
    ([dx], [dy]), between [-PI] and [PI]. *)
Definition atan2 (dy dx : R) : R :=
  if dx <? 0 then (if dy <? 0 then atan (dy / dx) - PI else atan (dy / dx) + PI)
  else if 0 <? dx then atan (dy / dx)
  else if dy <? 0 then - (PI / 2)
  else if 0 <? dy then PI / 2
  else 0.

(** [Math.random] as a step of a generator whose state is a counter. *)
Definition random (seed : nat) : R * nat :=
  (INR (Nat.modulo seed 7) / 7, S seed).

#[export] Instance utils : GameUtils.
Proof.
  refine (Build_GameUtils nat metrics cols maxRows clamp computeMatchResult
            dropNewRow generateInitialGrid generateShooterBubble gridCleared
            gridReachedFailureLine placeBubbleOnGrid atan2 random _ _ _).
  - intros v lo hi Hlh Hv. unfold clamp.
    rewrite Rmax_right by exact Hv. apply Rmin_left. exact Hlh.
  - intros v lo hi [Hlo Hhi]. unfold clamp.
    rewrite Rmax_left by exact Hlo. apply Rmin_left. exact Hhi.
  - intros v lo hi Hlh Hv. unfold clamp.
    rewrite Rmax_left by lra. apply Rmin_right. exact Hv.
Defined.

(** *** Sample states *)

Definition level1 : LevelConfig :=
  {| levelNumber := 1; timeLimitSeconds := None; descentInterval := 12000;
     movingRows := None; movingAmplitude := None; movingSpeed := None;
     endless := false |}.

(** The component right after its first render, at time 0. *)
Definition start : State utils := initialState level1 0 0%nat.

(** [start] after one row drop: rows 0 to 2 are full, so the next drop
    reaches the failure row. *)
Definition crowded : State utils :=
  set_grid (fst (dropNewRow (grid start) level1 5%nat)) start.

(** A bubble going straight up at 600 pixels per second. *)
Definition rising (px py : R) : ActiveBubble :=
  {| id := 1; color := "red"; type := normal; x := px; y := py;
     dx := 0; dy := -1; speed := 600; launchedAt := 0 |}.

(** A grid whose only bubble is an obstacle in slot (0, 1), centre (84, 60),
    and a projectile 12 pixels below that centre. *)
Definition underObstacle : State utils :=
  set_activeBubble (Some (rising 84 72))
    (set_grid
       ([None; Some (makeCell 0 1 "slate" obstacle); None; None]
        :: repeat emptyRow (maxRows - 1))
       start).

(** A grid whose only bubble is an obstacle in slot (1, 2), centre (144, 96),
    in a row that is shifted 15 pixels to the right, and a projectile below
    it. *)
Definition underShiftedObstacle : State utils :=
  set_activeBubble (Some (rising 162 112))
    (set_rowOffset (JS.setIndex 1 15 zeroOffsets)
       (set_grid
          [emptyRow;
           [None; None; Some (makeCell 1 2 "slate" obstacle); None];
           emptyRow; emptyRow; emptyRow]
          start)).

(** [start] with a projectile 34 pixels below the bubble of slot (1, 0),
    centre (64, 96), after its move of 12 pixels. *)
Definition underBubble : State utils :=
  set_activeBubble (Some (rising 64 142)) start.

(** An empty grid and a projectile 5 pixels below the ceiling line. *)
Definition underCeiling : State utils :=
  set_lastFrame (Some 100)
    (set_activeBubble (Some (rising 200 55))
       (set_grid (repeat emptyRow maxRows) start)).

(** A bubble going left, 5 pixels from the left bound. *)
Definition leftward : ActiveBubble :=
  {| id := 1; color := "red"; type := normal; x := 49; y := 300;
     dx := -1; dy := 0; speed := 600; launchedAt := 0 |}.

Definition towardsWall : State utils := set_activeBubble (Some leftward) start.

(** [start] after a fire request at time 10. *)
Definition fired : State utils :=
  step start (KeyDown level1 10 1 Space).

(** [start] with a freeze bubble at the head of the queue. *)
Definition freezeLoaded : State utils :=
  set_nextQueue
    [{| cand_color := "blue"; cand_type := freeze |};
     {| cand_color := "red"; cand_type := normal |}]
    start.

(** [start] with one life left. *)
Definition lastLife : State utils :=
  set_runtime (with_lives 1 (runtime start)) start.

(** A level with a time limit of 90 seconds whose rows 1 and 3 swing by 12
    pixels. *)
Definition level2 : LevelConfig :=
  {| levelNumber := 2; timeLimitSeconds := Some 90; descentInterval := 10000;
     movingRows := Some [1%nat; 3%nat]; movingAmplitude := Some 12;
     movingSpeed := None; endless := false |}.

(** The component right after its first render on [level2]. *)
Definition timed : State utils := initialState level2 0 0%nat.

(** [timed] when the time has run out. *)
Definition expired : State utils :=
  set_runtime (with_timeLeft (Some 0) (runtime timed)) timed.

(** [s] 10 ms after its last frame, at time 11990, with a projectile that
    goes straight up below column 1 and is at height 169 after those
    10 ms: 37 below the centre (84, 132) of slot (2, 1). *)
Definition approaching (s : State utils) : State utils :=
  set_lastFrame (Some 11990) (set_activeBubble (Some (rising 84 175)) s).

End Sample.

(** * Properties *)

(** ** Comparisons of numbers *)

Lemma leb_true a b : (a <=? b) = true <-> a <= b.
Proof.
  unfold JS.leb; destruct (Rle_dec a b); split; intros; try lra; auto;
    discriminate.
Qed.

Lemma leb_false a b : (a <=? b) = false <-> b < a.
Proof.
  unfold JS.leb; destruct (Rle_dec a b); split; intros; try lra; auto;
    discriminate.
Qed.

Lemma ltb_true a b : (a <? b) = true <-> a < b.
Proof.
  unfold JS.ltb; destruct (Rlt_dec a b); split; intros; try lra; auto;
    discriminate.
Qed.

Lemma ltb_false a b : (a <? b) = false <-> b <= a.
Proof.
  unfold JS.ltb; destruct (Rlt_dec a b); split; intros; try lra; auto;
    discriminate.
Qed.

Lemma geb_true a b : (a >=? b) = true <-> b <= a.
Proof. apply leb_true. Qed.

Lemma geb_false a b : (a >=? b) = false <-> a < b.
Proof. apply leb_false. Qed.

Lemma gtb_true a b : (a >? b) = true <-> b < a.
Proof. apply ltb_true. Qed.

Lemma gtb_false a b : (a >? b) = false <-> a <= b.
Proof. apply ltb_false. Qed.

Lemma truthy_true a : JS.truthy a = true <-> a <> 0.
Proof.
  unfold JS.truthy; destruct (Req_dec_T a 0); split; intros; auto;
    try discriminate; contradiction.
Qed.

(** ** The log only grows *)

Lemma newEvents_app {U : GameUtils} (s s' : State U) evs :
  history s' = history s ++ evs -> newEvents s s' = evs.
Proof.
  intros H. unfold newEvents. rewrite H, skipn_app, skipn_all, Nat.sub_diag.
  reflexivity.
Qed.

Lemma newEvents_same {U : GameUtils} (s s' : State U) :
  history s' = history s -> newEvents s s' = [].
Proof.
  intros H. apply newEvents_app. rewrite H, app_nil_r. reflexivity.
Qed.

Lemma landings_app evs1 evs2 :
  landings (evs1 ++ evs2) = (landings evs1 + landings evs2)%nat.
Proof. unfold landings. rewrite filter_app, length_app. reflexivity. Qed.

Section CallbackFacts.

Context {U : GameUtils}.

Lemma sameButTimers_refl s : sameButTimers s s.
Proof. repeat split. Qed.

Lemma sameButTimers_trans s1 s2 s3 :
  sameButTimers s1 s2 -> sameButTimers s2 s3 -> sameButTimers s1 s3.
Proof.
  unfold sameButTimers. intros H12 H23.
  decompose [and] H12; decompose [and] H23. repeat split; congruence.
Qed.

Lemma triggerSpecialEffect_timers now t s :
  sameButTimers s (triggerSpecialEffect now t s).
Proof. destruct t; repeat split. Qed.

Lemma triggerSpecials_timers now cells : forall s,
  sameButTimers s
    (fold_left (fun st cell => triggerSpecialEffect now (cell_type cell) st)
       cells s).
Proof.
  induction cells as [|c cells IH]; intros s; simpl.
  - apply sameButTimers_refl.
  - eapply sameButTimers_trans; [|apply IH].
    apply triggerSpecialEffect_timers.
Qed.

(** *** [handleMatchResults] *)

Lemma handleMatchResults_combo removedCount bonus s :
  combo (runtime (handleMatchResults removedCount bonus s)) =
  if removedCount >? 0
  then clamp (combo (runtime s) + 1) 1 MAX_COMBO_MULTIPLIER
  else 1.
Proof.
  unfold handleMatchResults. destruct (removedCount >? 0); reflexivity.
Qed.

Lemma clamp_range v lo hi : lo <= hi -> lo <= clamp v lo hi <= hi.
Proof.
  intros Hlh.
  destruct (Rle_dec v lo) as [Hlo|Hlo].
  - rewrite clamp_below by assumption. lra.
  - destruct (Rle_dec hi v) as [Hhi|Hhi].
    + rewrite clamp_above by assumption. lra.
    + rewrite clamp_inside by lra. lra.
Qed.

Lemma handleMatchResults_combo_range removedCount bonus s :
  1 <= combo (runtime (handleMatchResults removedCount bonus s))
    <= MAX_COMBO_MULTIPLIER.
Proof.
  rewrite handleMatchResults_combo. unfold MAX_COMBO_MULTIPLIER.
  destruct (removedCount >? 0).
  - apply clamp_range. lra.
  - lra.
Qed.

Lemma handleMatchResults_frame removedCount bonus s :
  let s' := handleMatchResults removedCount bonus s in
  grid s' = grid s /\ activeBubble s' = activeBubble s
  /\ aimAngle s' = aimAngle s /\ nextQueue s' = nextQueue s
  /\ history s' = history s /\ lives (runtime s') = lives (runtime s)
  /\ level (runtime s') = level (runtime s).
Proof.
  unfold handleMatchResults. destruct (removedCount >? 0); repeat split.
Qed.

(** *** [resolveLanding] *)

Lemma resolveLanding_frame now b s :
  let s' := resolveLanding now b s in
  activeBubble s' = activeBubble s /\ aimAngle s' = aimAngle s
  /\ nextQueue s' = nextQueue s /\ history s' = history s ++ [Landed b]
  /\ lives (runtime s') = lives (runtime s)
  /\ level (runtime s') = level (runtime s)
  /\ 1 <= combo (runtime s') <= MAX_COMBO_MULTIPLIER.
Proof.
  unfold resolveLanding.
  destruct (placeBubbleOnGrid _ _) as [[g row] col].
  destruct (computeMatchResult g row col) as [m g'].
  set (s1 := if (0 <? length (removed m))%nat then _ else _).
  set (s2 := handleMatchResults _ _ s1).
  set (s3 := fold_left _ _ s2).
  assert (H3 : sameButTimers s2 s3) by apply triggerSpecials_timers.
  destruct H3 as (Hrt & _ & Hab & Haa & Hq & _ & _ & Hh).
  pose proof (handleMatchResults_frame
                (INR (length (removed m) + length (floating m)))
                (comboBonus m) s1) as H2.
  cbv zeta in H2. fold s2 in H2.
  destruct H2 as (_ & Hab2 & Haa2 & Hq2 & Hh2 & Hl2 & Hv2).
  pose proof (handleMatchResults_combo_range
                (INR (length (removed m) + length (floating m)))
                (comboBonus m) s1) as Hc.
  fold s2 in Hc.
  assert (Hgoal :
    activeBubble s3 = activeBubble s /\ aimAngle s3 = aimAngle s
    /\ nextQueue s3 = nextQueue s /\ history s3 = history s ++ [Landed b]
    /\ lives (runtime s3) = lives (runtime s)
    /\ level (runtime s3) = level (runtime s)
    /\ 1 <= combo (runtime s3) <= MAX_COMBO_MULTIPLIER).
  { assert (H1 : activeBubble s1 = activeBubble s
                 /\ aimAngle s1 = aimAngle s /\ nextQueue s1 = nextQueue s
                 /\ history s1 = history s ++ [Landed b]
                 /\ runtime s1 = runtime s)
      by (subst s1; destruct (0 <? length (removed m))%nat; repeat split).
    destruct H1 as (Hab1 & Haa1 & Hq1 & Hh1 & Hrt1).
    rewrite Hab, Haa, Hq, Hh, Hrt, Hab2, Haa2, Hq2, Hh2, Hl2, Hv2.
    rewrite Hab1, Haa1, Hq1, Hh1, Hrt1.
    repeat split; try reflexivity; apply Hc. }
  destruct (gridCleared (grid s3)); [|exact Hgoal].
  simpl. exact Hgoal.
Qed.

(** *** [loseLife] *)

Lemma loseLife_frame s :
  let s' := loseLife s in
  activeBubble s' = None /\ aimAngle s' = aimAngle s
  /\ nextQueue s' = nextQueue s /\ history s' = history s ++ [LifeLost]
  /\ lives (runtime s') = lives (runtime s) - 1
  /\ combo (runtime s') = 1
  /\ level (runtime s') = level (runtime s)
  /\ lastDropAt (runtime s') = lastDropAt (runtime s)
  /\ grid s' =
     fst (generateInitialGrid (level (runtime s)) (rng s)).
Proof.
  unfold loseLife. simpl.
  destruct (generateInitialGrid _ _) as [g seed]. simpl.
  destruct (lives (runtime s) - 1 <=? 0); simpl; repeat split.
Qed.

(** *** [dropCycle] *)

Lemma dropCycle_idle timestamp s :
  dropDue timestamp s = false -> dropCycle timestamp s = s.
Proof. unfold dropCycle. intros ->. reflexivity. Qed.

Lemma dropCycle_safe timestamp s :
  dropDue timestamp s = true -> dropBreaches s = false ->
  let s' := dropCycle timestamp s in
  grid s' = droppedGrid s
  /\ runtime s' = with_lastDropAt timestamp (runtime s)
  /\ activeBubble s' = activeBubble s
  /\ aimAngle s' = aimAngle s /\ nextQueue s' = nextQueue s
  /\ history s' = history s ++ [RowDropped].
Proof.
  unfold dropCycle, dropBreaches, droppedGrid. intros -> Hsafe.
  destruct (dropNewRow _ _ _) as [g seed]. simpl in *.
  rewrite Hsafe. repeat split.
Qed.

Lemma dropCycle_safe_offsets timestamp s :
  dropDue timestamp s = true -> dropBreaches s = false ->
  rowOffset (dropCycle timestamp s) = rowOffset s.
Proof.
  unfold dropCycle, dropBreaches, droppedGrid. intros -> Hsafe.
  destruct (dropNewRow _ _ _) as [g seed]. simpl in *.
  rewrite Hsafe. reflexivity.
Qed.

Lemma dropCycle_breach timestamp s :
  dropDue timestamp s = true -> dropBreaches s = true ->
  let s' := dropCycle timestamp s in
  activeBubble s' = None
  /\ lives (runtime s') = lives (runtime s) - 1
  /\ combo (runtime s') = 1
  /\ lastDropAt (runtime s') = timestamp
  /\ level (runtime s') = level (runtime s)
  /\ aimAngle s' = aimAngle s /\ nextQueue s' = nextQueue s
  /\ history s' = history s ++ [RowDropped; LifeLost].
Proof.
  unfold dropCycle, dropBreaches, droppedGrid. intros -> Hbreach.
  destruct (dropNewRow _ _ _) as [g seed]. simpl in *.
  rewrite Hbreach.
  match goal with |- context [loseLife ?t] =>
    pose proof (loseLife_frame t) as H; cbv zeta in H; simpl in H end.
  destruct H as (Hab & Haa & Hq & Hh & Hl & Hc & Hv & Hd & _).
  rewrite Hab, Haa, Hq, Hh, Hl, Hc, Hv, Hd, <- app_assoc.
  repeat split.
Qed.

Lemma dropCycle_history timestamp s :
  history (dropCycle timestamp s) = history s ++ dropEvents timestamp s.
Proof.
  unfold dropEvents.
  destruct (dropDue timestamp s) eqn:Hdue.
  - destruct (dropBreaches s) eqn:Hb.
    + apply (dropCycle_breach timestamp s Hdue Hb).
    + apply (dropCycle_safe timestamp s Hdue Hb).
  - rewrite dropCycle_idle by assumption. rewrite app_nil_r. reflexivity.
Qed.

Lemma dropEvents_no_landing timestamp s :
  landings (dropEvents timestamp s) = 0%nat.
Proof.
  unfold dropEvents.
  destruct (dropDue timestamp s); [destruct (dropBreaches s)|]; reflexivity.
Qed.

Lemma dropCycle_frame timestamp s :
  let s' := dropCycle timestamp s in
  aimAngle s' = aimAngle s /\ nextQueue s' = nextQueue s
  /\ level (runtime s') = level (runtime s)
  /\ (combo (runtime s') = combo (runtime s) \/ combo (runtime s') = 1)
  /\ (activeBubble s' = activeBubble s \/ activeBubble s' = None).
Proof.
  cbv zeta.
  destruct (dropDue timestamp s) eqn:Hdue.
  - destruct (dropBreaches s) eqn:Hb.
    + destruct (dropCycle_breach timestamp s Hdue Hb)
        as (Hab & _ & Hc & _ & Hv & Haa & Hq & _).
      repeat split; auto.
    + destruct (dropCycle_safe timestamp s Hdue Hb)
        as (_ & Hrt & Hab & Haa & Hq & _).
      rewrite Hrt. repeat split; auto.
  - rewrite dropCycle_idle by assumption. repeat split; auto.
Qed.

(** *** [updateMovingRows] and [applyTimeLimit] *)

Lemma updateMovingRows_frame timestamp s :
  let s' := updateMovingRows timestamp s in
  runtime s' = runtime s /\ grid s' = grid s
  /\ activeBubble s' = activeBubble s /\ aimAngle s' = aimAngle s
  /\ nextQueue s' = nextQueue s /\ history s' = history s.
Proof.
  unfold updateMovingRows.
  destruct (movingRows (level (runtime s))) as [[|row rows]|];
    repeat split.
Qed.

Lemma applyTimeLimit_frame now delta s :
  let s' := applyTimeLimit now delta s in
  aimAngle s' = aimAngle s /\ nextQueue s' = nextQueue s
  /\ history s' = history s ++ timeLimitEvents delta s
  /\ level (runtime s') = level (runtime s)
  /\ (combo (runtime s') = combo (runtime s) \/ combo (runtime s') = 1)
  /\ (activeBubble s' = activeBubble s \/ activeBubble s' = None).
Proof.
  unfold applyTimeLimit, timeLimitEvents.
  destruct (timeLimitSeconds (level (runtime s))) as [limit|].
  2:{ rewrite app_nil_r. repeat split; auto. }
  destruct (_ <=? 0).
  2:{ rewrite app_nil_r. simpl. repeat split; auto. }
  match goal with |- context [loseLife ?t] =>
    pose proof (loseLife_frame t) as H; cbv zeta in H; simpl in H end.
  destruct H as (Hab & Haa & Hq & Hh & _).
  simpl. rewrite Hab, Haa, Hq, Hh. repeat split; auto.
Qed.

Lemma timeLimitEvents_no_landing delta s :
  landings (timeLimitEvents delta s) = 0%nat.
Proof.
  unfold timeLimitEvents.
  destruct (timeLimitSeconds _); [destruct (_ <=? 0)|]; reflexivity.
Qed.

(** *** The contact scan *)

Lemma touches_true g offsets b row col :
  touches g offsets b row col = true <->
  exists cell, cellAt g row col = Some cell
               /\ cell_type cell <> obstacle
               /\ distanceTo offsets b row cell <= contactDistance.
Proof.
  unfold touches. destruct (cellAt g row col) as [cell|].
  - destruct (cell_type cell) eqn:Ht; simpl;
      rewrite ?leb_true; split;
      try (intros H; exists cell; repeat split; congruence || exact H);
      try (intros (c & Hc & Hno & Hd); injection Hc as <-; congruence);
      try discriminate.
  - split; [discriminate|]. intros (c & Hc & _). discriminate.
Qed.

Lemma touches_obstacle g offsets b row col cell :
  cellAt g row col = Some cell -> cell_type cell = obstacle ->
  touches g offsets b row col = false.
Proof. unfold touches. intros -> ->. reflexivity. Qed.

Lemma scanCols_none g offsets b row n : forall col,
  scanCols g offsets b row col n = None <->
  (forall c, (col <= c < col + n)%nat -> touches g offsets b row c = false).
Proof.
  induction n as [|n IH]; intros col; simpl.
  - split; [intros _ c Hc; lia | reflexivity].
  - destruct (touches g offsets b row col) eqn:Ht.
    + split; [discriminate|]. intros H.
      rewrite H in Ht by lia. discriminate.
    + rewrite IH. split; intros H c Hc.
      * destruct (Nat.eq_dec c col) as [->|]; [exact Ht|apply H; lia].
      * apply H; lia.
Qed.

Lemma scanCols_some g offsets b row n : forall col hit,
  scanCols g offsets b row col n = Some hit ->
  fst hit = row /\ (col <= snd hit < col + n)%nat
  /\ touches g offsets b row (snd hit) = true
  /\ (forall c, (col <= c < snd hit)%nat ->
                touches g offsets b row c = false).
Proof.
  induction n as [|n IH]; intros col hit; simpl; [discriminate|].
  destruct (touches g offsets b row col) eqn:Ht.
  - intros [= <-]. simpl. split; [reflexivity|]. split; [lia|].
    split; [exact Ht|]. intros c Hc; lia.
  - intros H. destruct (IH _ _ H) as (Hr & Hc & Hhit & Hbefore).
    split; [exact Hr|]. split; [lia|]. split; [exact Hhit|].
    intros c Hlt.
    destruct (Nat.eq_dec c col) as [->|]; [exact Ht|apply Hbefore; lia].
Qed.

Lemma scanRows_none g offsets b n : forall row,
  scanRows g offsets b row n = None <->
  (forall r c, (row <= r < row + n)%nat -> (c < GRID_COLS)%nat ->
               touches g offsets b r c = false).
Proof.
  induction n as [|n IH]; intros row; simpl.
  - split; [intros _ r c Hr; lia | reflexivity].
  - destruct (scanCols g offsets b row 0 GRID_COLS) as [hit|] eqn:Hcols.
    + split; [discriminate|]. intros H.
      destruct (scanCols_some _ _ _ _ _ _ _ Hcols) as (_ & Hc & Ht & _).
      rewrite H in Ht by lia. discriminate.
    + rewrite IH. rewrite scanCols_none in Hcols.
      split; intros H r c Hr Hc.
      * destruct (Nat.eq_dec r row) as [->|];
          [apply Hcols; lia | apply H; lia].
      * apply H; lia.
Qed.

Lemma scanRows_some g offsets b n : forall row hit,
  scanRows g offsets b row n = Some hit ->
  (row <= fst hit < row + n)%nat /\ (snd hit < GRID_COLS)%nat
  /\ touches g offsets b (fst hit) (snd hit) = true
  /\ (forall r c, (row <= r)%nat -> (c < GRID_COLS)%nat ->
                  scannedBefore r c (fst hit) (snd hit) ->
                  touches g offsets b r c = false).
Proof.
  induction n as [|n IH]; intros row hit; simpl; [discriminate|].
  destruct (scanCols g offsets b row 0 GRID_COLS) as [h|] eqn:Hcols.
  - intros [= <-].
    destruct (scanCols_some _ _ _ _ _ _ _ Hcols) as (Hr & Hc & Ht & Hb).
    rewrite Hr. split; [lia|]. split; [lia|]. split; [exact Ht|].
    intros r c Hge Hc' [Hlt|[-> Hlt]]; [lia|apply Hb; lia].
  - intros H. destruct (IH _ _ H) as (Hr & Hc & Ht & Hb).
    rewrite scanCols_none in Hcols.
    split; [lia|]. split; [lia|]. split; [exact Ht|].
    intros r c Hge Hc' Hbefore.
    destruct (Nat.eq_dec r row) as [->|]; [apply Hcols; lia|].
    apply Hb; [lia|exact Hc'|exact Hbefore].
Qed.

Lemma firstContact_none s b :
  firstContact s b = None <->
  (forall r c, (r < length (grid s))%nat -> (c < GRID_COLS)%nat ->
               touches (grid s) (rowOffset s) b r c = false).
Proof.
  unfold firstContact. rewrite scanRows_none.
  split; intros H r c Hr Hc; apply H; lia.
Qed.

Lemma firstContact_some s b hit :
  firstContact s b = Some hit ->
  (fst hit < length (grid s))%nat /\ (snd hit < GRID_COLS)%nat
  /\ touches (grid s) (rowOffset s) b (fst hit) (snd hit) = true
  /\ (forall r c, (c < GRID_COLS)%nat ->
                  scannedBefore r c (fst hit) (snd hit) ->
                  touches (grid s) (rowOffset s) b r c = false).
Proof.
  unfold firstContact. intros H.
  destruct (scanRows_some _ _ _ _ _ _ H) as (Hr & Hc & Ht & Hb).
  split; [lia|]. split; [lia|]. split; [exact Ht|].
  intros r c Hc' Hbefore. apply Hb; [lia|exact Hc'|exact Hbefore].
Qed.

(** *** [updateActiveBubble] *)

Lemma updateActiveBubble_idle now deltaMs s :
  activeBubble s = None -> updateActiveBubble now deltaMs s = s.
Proof. unfold updateActiveBubble. intros ->. reflexivity. Qed.

Lemma updateActiveBubble_flying now deltaMs s b0 :
  activeBubble s = Some b0 -> stops s (moved deltaMs b0) = false ->
  updateActiveBubble now deltaMs s =
  set_activeBubble (Some (moved deltaMs b0)) s.
Proof.
  unfold updateActiveBubble, stops, moved. intros -> Hs.
  apply orb_false_iff in Hs. destruct Hs as [Hc Hf]. rewrite Hc.
  change (firstContact (set_activeBubble ?v s) ?b) with (firstContact s b).
  destruct (firstContact s _); [discriminate|reflexivity].
Qed.

Lemma updateActiveBubble_landing now deltaMs s b0 :
  activeBubble s = Some b0 -> stops s (moved deltaMs b0) = true ->
  updateActiveBubble now deltaMs s =
  set_activeBubble None
    (resolveLanding now (moved deltaMs b0)
       (set_activeBubble (Some (moved deltaMs b0)) s)).
Proof.
  unfold updateActiveBubble, stops, moved. intros -> Hs.
  destruct (atCeiling _); [reflexivity|]. simpl in Hs.
  change (firstContact (set_activeBubble ?v s) ?b) with (firstContact s b).
  destruct (firstContact s _); [reflexivity|discriminate].
Qed.

Lemma updateActiveBubble_history now deltaMs s :
  history (updateActiveBubble now deltaMs s) =
  history s ++ motionEvents deltaMs s.
Proof.
  unfold motionEvents. destruct (activeBubble s) as [b0|] eqn:Hb.
  - destruct (stops s (moved deltaMs b0)) eqn:Hs.
    + rewrite (updateActiveBubble_landing now deltaMs s b0 Hb Hs). simpl.
      destruct (resolveLanding_frame now (moved deltaMs b0)
                  (set_activeBubble (Some (moved deltaMs b0)) s))
        as (_ & _ & _ & Hh & _).
      exact Hh.
    + rewrite (updateActiveBubble_flying now deltaMs s b0 Hb Hs). simpl.
      rewrite app_nil_r. reflexivity.
  - rewrite updateActiveBubble_idle by assumption.
    rewrite app_nil_r. reflexivity.
Qed.

Lemma motionEvents_landings deltaMs s :
  (landings (motionEvents deltaMs s) <= 1)%nat.
Proof.
  unfold motionEvents, landings.
  destruct (activeBubble s) as [b0|]; simpl; [|lia].
  destruct (stops s _); simpl; lia.
Qed.

Lemma motionEvents_landed now deltaMs s :
  landings (motionEvents deltaMs s) = 1%nat ->
  activeBubble (updateActiveBubble now deltaMs s) = None.
Proof.
  unfold motionEvents. destruct (activeBubble s) as [b0|] eqn:Hb;
    [|discriminate].
  destruct (stops s _) eqn:Hs; [|discriminate]. intros _.
  rewrite (updateActiveBubble_landing now deltaMs s b0 Hb Hs). reflexivity.
Qed.

Lemma updateActiveBubble_frame now deltaMs s :
  let s' := updateActiveBubble now deltaMs s in
  aimAngle s' = aimAngle s /\ nextQueue s' = nextQueue s
  /\ level (runtime s') = level (runtime s)
  /\ (combo (runtime s') = combo (runtime s)
      \/ 1 <= combo (runtime s') <= MAX_COMBO_MULTIPLIER)
  /\ (activeBubble s' = None
      \/ exists b0, activeBubble s = Some b0
                    /\ activeBubble s' = Some (moved deltaMs b0)).
Proof.
  cbv zeta. destruct (activeBubble s) as [b0|] eqn:Hb.
  - destruct (stops s (moved deltaMs b0)) eqn:Hs.
    + rewrite (updateActiveBubble_landing now deltaMs s b0 Hb Hs). simpl.
      destruct (resolveLanding_frame now (moved deltaMs b0)
                  (set_activeBubble (Some (moved deltaMs b0)) s))
        as (_ & Haa & Hq & _ & _ & Hv & Hc).
      rewrite Haa, Hq, Hv. repeat split; auto.
    + rewrite (updateActiveBubble_flying now deltaMs s b0 Hb Hs). simpl.
      repeat split; auto. right. exists b0. split; reflexivity.
  - rewrite updateActiveBubble_idle by assumption.
    repeat split; auto.
Qed.

(** *** [activateNextBubble] and [performShoot] *)

Lemma activateNextBubble_frame activeLevel s :
  let s' := snd (activateNextBubble activeLevel s) in
  runtime s' = runtime s /\ grid s' = grid s
  /\ activeBubble s' = activeBubble s /\ aimAngle s' = aimAngle s
  /\ shots s' = shots s /\ history s' = history s.
Proof.
  unfold activateNextBubble.
  destruct (0 <? length (tl (nextQueue s)))%nat;
    repeat (destruct (generateShooterBubble _ _)); repeat split.
Qed.

Lemma activateNextBubble_pair activeLevel s c1 c2 :
  nextQueue s = [c1; c2] ->
  fst (activateNextBubble activeLevel s) = Some c1
  /\ nextQueue (snd (activateNextBubble activeLevel s)) =
     [c2; fst (generateShooterBubble activeLevel (rng s))].
Proof.
  unfold activateNextBubble. intros ->. simpl.
  destruct (generateShooterBubble activeLevel (rng s)). split; reflexivity.
Qed.

Lemma performShoot_rejected activeLevel now dateNow s :
  rejects s = true -> performShoot activeLevel now dateNow s = s.
Proof.
  unfold rejects, performShoot.
  destruct (cleared (runtime s) || (lives (runtime s) <=? 0));
    [reflexivity|].
  destruct (activeBubble s); [reflexivity|discriminate].
Qed.

Lemma performShoot_accepted activeLevel now dateNow s c1 c2 :
  rejects s = false -> nextQueue s = [c1; c2] ->
  let s' := performShoot activeLevel now dateNow s in
  activeBubble s' = Some (launched now dateNow c1 s)
  /\ shots s' = shots s + 1
  /\ history s' = history s ++ [Fired (launched now dateNow c1 s)]
  /\ nextQueue s' = [c2; fst (generateShooterBubble activeLevel (rng s))]
  /\ runtime s' = runtime s /\ aimAngle s' = aimAngle s
  /\ grid s' = grid s.
Proof.
  unfold rejects, performShoot. intros Hrej Hq.
  destruct (cleared (runtime s) || (lives (runtime s) <=? 0));
    [discriminate|].
  destruct (activeBubble s) eqn:Hab; [discriminate|].
  destruct (activateNextBubble_pair activeLevel s c1 c2 Hq) as [Hhd Hq'].
  destruct (activateNextBubble_frame activeLevel s)
    as (Hrt & Hg & _ & Haa & Hsh & Hh).
  destruct (activateNextBubble activeLevel s) as [shooter s1].
  simpl in *. subst shooter. unfold launched.
  rewrite <- Hrt, <- Haa, <- Hsh, <- Hh, <- Hq', <- Hg.
  destruct (cand_type c1); simpl; repeat split.
Qed.

Lemma performShoot_frame activeLevel now dateNow s :
  let s' := performShoot activeLevel now dateNow s in
  runtime s' = runtime s /\ aimAngle s' = aimAngle s /\ grid s' = grid s.
Proof.
  unfold performShoot.
  destruct (cleared (runtime s) || (lives (runtime s) <=? 0));
    [repeat split|].
  destruct (activeBubble s); [repeat split|].
  destruct (activateNextBubble_frame activeLevel s)
    as (Hrt & Hg & _ & Haa & _).
  destruct (activateNextBubble activeLevel s) as [[sh|] s1]; simpl in *.
  - rewrite <- Hrt, <- Haa, <- Hg. destruct (cand_type sh); repeat split.
  - repeat split; assumption.
Qed.

(** *** [animationLoop] *)

Lemma finishFrame_frame timestamp now delta s :
  let s' := finishFrame timestamp now delta s in
  aimAngle s' = aimAngle s /\ nextQueue s' = nextQueue s
  /\ history s' = history s ++ timeLimitEvents delta s
  /\ (combo (runtime s') = combo (runtime s) \/ combo (runtime s') = 1)
  /\ (activeBubble s' = activeBubble s \/ activeBubble s' = None).
Proof.
  unfold finishFrame.
  destruct (updateMovingRows_frame timestamp s)
    as (Hrt & _ & Hab & Haa & Hq & Hh).
  set (s1 := updateMovingRows timestamp s) in *.
  assert (Hev : timeLimitEvents delta s1 = timeLimitEvents delta s)
    by (unfold timeLimitEvents; rewrite Hrt; reflexivity).
  destruct (timeLimitSeconds (level (runtime s1))) eqn:Hlimit.
  - destruct (applyTimeLimit_frame now delta s1)
      as (Haa' & Hq' & Hh' & _ & Hc' & Hab').
    rewrite Haa', Hq', Hh', Hev, Haa, Hq, Hh.
    rewrite <- Hrt, <- Hab. repeat split; assumption.
  - assert (Hnil : timeLimitEvents delta s = []).
    { rewrite <- Hev. unfold timeLimitEvents. rewrite Hlimit. reflexivity. }
    rewrite Hnil, app_nil_r, Hrt. repeat split; auto.
Qed.

Lemma animationLoop_unfold timestamp now s :
  animationLoop timestamp now s =
  finishFrame timestamp now (frameDelta timestamp s)
    (afterMotion timestamp now s).
Proof. reflexivity. Qed.

Lemma animationLoop_history timestamp now s :
  history (animationLoop timestamp now s) =
  history s ++ frameEvents timestamp now s.
Proof.
  rewrite animationLoop_unfold. unfold frameEvents.
  destruct (finishFrame_frame timestamp now (frameDelta timestamp s)
              (afterMotion timestamp now s)) as (_ & _ & Hh & _).
  rewrite Hh. unfold afterMotion at 1.
  rewrite updateActiveBubble_history. unfold afterDescent at 1.
  rewrite dropCycle_history. simpl. rewrite <- !app_assoc. reflexivity.
Qed.

(** ** Invariants of the reachable states *)

Lemma aimAngle_bounds_ordered : aimAngleMin <= aimAngleMax.
Proof. unfold aimAngleMin, aimAngleMax. pose proof PI_RGT_0. lra. Qed.

Lemma aimAngle_start_in_range : aimAngleMin <= - PI / 2 <= aimAngleMax.
Proof. unfold aimAngleMin, aimAngleMax. pose proof PI_RGT_0. lra. Qed.

Lemma sin_negative_in_range a :
  aimAngleMin <= a <= aimAngleMax -> sin a < 0.
Proof.
  unfold aimAngleMin, aimAngleMax. intros [Hlo Hhi].
  pose proof PI_RGT_0. apply sin_lt_0_var; lra.
Qed.

Lemma animationLoop_frame timestamp now s :
  let s' := animationLoop timestamp now s in
  aimAngle s' = aimAngle s /\ nextQueue s' = nextQueue s
  /\ (comboInRange s -> comboInRange s').
Proof.
  cbv zeta. rewrite animationLoop_unfold.
  destruct (finishFrame_frame timestamp now (frameDelta timestamp s)
              (afterMotion timestamp now s)) as (Haa3 & Hq3 & _ & Hc3 & _).
  destruct (updateActiveBubble_frame now (frameDelta timestamp s)
              (afterDescent timestamp s)) as (Haa2 & Hq2 & _ & Hc2 & _).
  destruct (dropCycle_frame timestamp (frameStart timestamp s))
    as (Haa1 & Hq1 & _ & Hc1 & _).
  fold (afterDescent timestamp s) in Haa1, Hq1, Hc1.
  fold (afterMotion timestamp now s) in Haa2, Hq2, Hc2.
  split; [|split].
  - rewrite Haa3, Haa2, Haa1. reflexivity.
  - rewrite Hq3, Hq2, Hq1. reflexivity.
  - unfold comboInRange, MAX_COMBO_MULTIPLIER in *. simpl in Hc1. intros Hc.
    destruct Hc3 as [-> | ->]; [|lra].
    destruct Hc2 as [-> | Hc2]; [|exact Hc2].
    destruct Hc1 as [-> | ->]; [exact Hc|lra].
Qed.

Lemma step_queueFull s i : queueFull s -> queueFull (step s i).
Proof.
  intros (c1 & c2 & Hq).
  destruct i
    as [seed|ts now|px py|lvl now dn| |lvl now dn code|idx lvl now]; simpl.
  - exists c1, c2. exact Hq.
  - destruct (animationLoop_frame ts now s) as (_ & Hq' & _).
    exists c1, c2. rewrite Hq'. exact Hq.
  - unfold handlePointerMove. destruct (negb (pointerLocked s));
      exists c1, c2; exact Hq.
  - unfold handlePointerDown.
    set (s0 := set_pointerLocked true s).
    destruct (rejects s0) eqn:Hrej.
    + rewrite performShoot_rejected by assumption. exists c1, c2. exact Hq.
    + destruct (performShoot_accepted lvl now dn s0 c1 c2 Hrej Hq)
        as (_ & _ & _ & Hq' & _).
      eexists _, _. exact Hq'.
  - exists c1, c2. exact Hq.
  - destruct code; simpl; try (exists c1, c2; exact Hq).
    destruct (rejects s) eqn:Hrej.
    + rewrite performShoot_rejected by assumption. exists c1, c2. exact Hq.
    + destruct (performShoot_accepted lvl now dn s c1 c2 Hrej Hq)
        as (_ & _ & _ & Hq' & _).
      eexists _, _. exact Hq'.
  - unfold resetLevelState.
    repeat (destruct (generateInitialGrid _ _)
            || destruct (generateShooterBubble _ _)).
    eexists _, _. reflexivity.
Qed.

Lemma step_aimInRange s i : aimInRange s -> aimInRange (step s i).
Proof.
  unfold aimInRange. intros Ha.
  destruct i
    as [seed|ts now|px py|lvl now dn| |lvl now dn code|idx lvl now]; simpl.
  - exact Ha.
  - destruct (animationLoop_frame ts now s) as (-> & _). exact Ha.
  - unfold handlePointerMove. destruct (negb (pointerLocked s)); [exact Ha|].
    simpl. apply clamp_range, aimAngle_bounds_ordered.
  - unfold handlePointerDown.
    destruct (performShoot_frame lvl now dn (set_pointerLocked true s))
      as (_ & -> & _). exact Ha.
  - exact Ha.
  - destruct code; simpl; try exact Ha;
      try (apply clamp_range, aimAngle_bounds_ordered).
    destruct (performShoot_frame lvl now dn s) as (_ & -> & _). exact Ha.
  - unfold resetLevelState.
    repeat (destruct (generateInitialGrid _ _)
            || destruct (generateShooterBubble _ _)).
    simpl. apply aimAngle_start_in_range.
Qed.

Lemma step_comboInRange s i : comboInRange s -> comboInRange (step s i).
Proof.
  intros Hc.
  destruct i
    as [seed|ts now|px py|lvl now dn| |lvl now dn code|idx lvl now]; simpl.
  - exact Hc.
  - apply animationLoop_frame. exact Hc.
  - unfold handlePointerMove. destruct (negb (pointerLocked s)); exact Hc.
  - unfold handlePointerDown, comboInRange.
    destruct (performShoot_frame lvl now dn (set_pointerLocked true s))
      as (-> & _). exact Hc.
  - exact Hc.
  - destruct code; simpl; try exact Hc. unfold comboInRange.
    destruct (performShoot_frame lvl now dn s) as (-> & _). exact Hc.
  - unfold resetLevelState, comboInRange, MAX_COMBO_MULTIPLIER.
    repeat (destruct (generateInitialGrid _ _)
            || destruct (generateShooterBubble _ _)).
    simpl. lra.
Qed.

Lemma initialState_invariants activeLevel now seed :
  let s := initialState activeLevel now seed in
  queueFull s /\ aimInRange s /\ comboInRange s /\ history s = []
  /\ activeBubble s = None.
Proof.
  unfold initialState, queueFull, aimInRange, comboInRange,
    MAX_COMBO_MULTIPLIER.
  repeat (destruct (generateInitialGrid _ _)
          || destruct (generateShooterBubble _ _)).
  simpl. repeat split; try lra; try apply aimAngle_start_in_range.
  eexists _, _. reflexivity.
Qed.

Lemma reachable_invariants s :
  reachable s -> queueFull s /\ aimInRange s /\ comboInRange s.
Proof.
  induction 1 as [activeLevel now seed|s i _ (Hq & Ha & Hc)].
  - destruct (initialState_invariants activeLevel now seed)
      as (Hq & Ha & Hc & _).
    split; [|split]; assumption.
  - split; [|split].
    + apply step_queueFull, Hq.
    + apply step_aimInRange, Ha.
    + apply step_comboInRange, Hc.
Qed.

(** ** The projectile *)

Lemma bounce_inside b :
  leftBound < x b < rightBound -> bounce b = b.
Proof.
  intros [Hl Hr]. unfold bounce.
  apply leb_false in Hl. apply geb_false in Hr. rewrite Hl, Hr. reflexivity.
Qed.

Lemma bounce_outside b :
  x b <= leftBound \/ rightBound <= x b ->
  bounce b =
  mkBubble (id b) (color b) (type b) (clamp (x b) leftBound rightBound)
    (y b) (dx b * -1) (dy b) (speed b) (launchedAt b).
Proof.
  intros H. unfold bounce.
  assert (Hc : (x b <=? leftBound) || (x b >=? rightBound) = true).
  { apply orb_true_iff.
    destruct H; [left; apply leb_true|right; apply geb_true]; assumption. }
  rewrite Hc. reflexivity.
Qed.

(** A frame in which the moved bubble is below the ceiling line and every
    cell within the contact distance is an obstacle leaves it flying. *)
Lemma updateActiveBubble_passes now deltaMs s b0 :
  activeBubble s = Some b0 ->
  ceilingLine < y (moved deltaMs b0) ->
  (forall row col cell,
     cellAt (grid s) row col = Some cell ->
     distanceTo (rowOffset s) (moved deltaMs b0) row cell <= contactDistance ->
     cell_type cell = obstacle) ->
  updateActiveBubble now deltaMs s =
  set_activeBubble (Some (moved deltaMs b0)) s.
Proof.
  intros Hb Hy Hobst. apply updateActiveBubble_flying; [exact Hb|].
  unfold stops. apply orb_false_iff. split.
  - unfold atCeiling. apply leb_false. exact Hy.
  - assert (Hnone : firstContact s (moved deltaMs b0) = None).
    { apply firstContact_none. intros r c _ _.
      destruct (touches _ _ _ r c) eqn:Ht; [|reflexivity].
      apply touches_true in Ht. destruct Ht as (cell & Hcell & Hno & Hd).
      exfalso. apply Hno. eapply Hobst; eassumption. }
    rewrite Hnone. reflexivity.
Qed.

(** The contact scan finds a slot exactly when some scanned slot holds a
    bubble that is not an obstacle and lies within the contact distance. *)
Lemma firstContact_iff s b :
  (exists hit, firstContact s b = Some hit) <->
  exists row col cell,
    (row < length (grid s))%nat /\ (col < GRID_COLS)%nat
    /\ cellAt (grid s) row col = Some cell
    /\ cell_type cell <> obstacle
    /\ distanceTo (rowOffset s) b row cell <= contactDistance.
Proof.
  split.
  - intros (hit & Hhit).
    destruct (firstContact_some s b hit Hhit) as (Hr & Hc & Ht & _).
    apply touches_true in Ht. destruct Ht as (cell & Hcell & Hno & Hd).
    exists (fst hit), (snd hit), cell. repeat split; assumption.
  - intros (row & col & cell & Hr & Hc & Hcell & Hno & Hd).
    destruct (firstContact s b) as [hit|] eqn:Hf; [exists hit; reflexivity|].
    rewrite firstContact_none in Hf. specialize (Hf row col Hr Hc).
    assert (Ht : touches (grid s) (rowOffset s) b row col = true)
      by (apply touches_true; exists cell; repeat split; assumption).
    congruence.
Qed.

(** The moved bubble stops at the ceiling line or at the first contact. *)
Lemma stops_iff s b :
  stops s b = true <->
  y b <= ceilingLine
  \/ exists row col cell,
       (row < length (grid s))%nat /\ (col < GRID_COLS)%nat
       /\ cellAt (grid s) row col = Some cell
       /\ cell_type cell <> obstacle
       /\ distanceTo (rowOffset s) b row cell <= contactDistance.
Proof.
  rewrite <- firstContact_iff. unfold stops, atCeiling.
  rewrite orb_true_iff, leb_true.
  destruct (firstContact s b) as [hit|]; split.
  - intros [H|_]; [left; exact H|right; exists hit; reflexivity].
  - intros [H|_]; [left; exact H|right; reflexivity].
  - intros [H|H]; [left; exact H|discriminate].
  - intros [H|(hit & H)]; [left; exact H|discriminate].
Qed.

Lemma updateActiveBubble_outcome now deltaMs s b0 :
  activeBubble s = Some b0 ->
  let s' := updateActiveBubble now deltaMs s in
  (stops s (moved deltaMs b0) = true
   /\ activeBubble s' = None
   /\ newEvents s s' = [Landed (moved deltaMs b0)])
  \/ (stops s (moved deltaMs b0) = false
      /\ activeBubble s' = Some (moved deltaMs b0)
      /\ newEvents s s' = []).
Proof.
  intros Hb. cbv zeta.
  pose proof (updateActiveBubble_history now deltaMs s) as Hh.
  unfold motionEvents in Hh. rewrite Hb in Hh.
  destruct (stops s (moved deltaMs b0)) eqn:Hs; [left|right];
    (split; [reflexivity|split; [|apply newEvents_app; exact Hh]]).
  - rewrite (updateActiveBubble_landing now deltaMs s b0 Hb Hs). reflexivity.
  - rewrite (updateActiveBubble_flying now deltaMs s b0 Hb Hs). reflexivity.
Qed.

Lemma moved_inside deltaMs b :
  leftBound < x (integrate deltaMs b) < rightBound ->
  moved deltaMs b = integrate deltaMs b.
Proof. intros H. unfold moved. apply bounce_inside. exact H. Qed.

(** C1 (as the code has it).  The contact scan tests the occupied cells that
    are not obstacles and skips every obstacle: a slot that holds an obstacle
    never stops the projectile, whatever the distance, and a frame in which
    the moved projectile is below the ceiling line and every cell within the
    contact distance is an obstacle leaves the projectile active, at its
    moved position, with the grid and the log as they were. *)
Theorem obstacles_do_not_stop_projectile now deltaMs s b0 :
  activeBubble s = Some b0 ->
  ceilingLine < y (moved deltaMs b0) ->
  (forall row col cell,
     cellAt (grid s) row col = Some cell ->
     distanceTo (rowOffset s) (moved deltaMs b0) row cell <= contactDistance ->
     cell_type cell = obstacle) ->
  let s' := updateActiveBubble now deltaMs s in
  (forall row col cell,
     cellAt (grid s) row col = Some cell -> cell_type cell = obstacle ->
     touches (grid s) (rowOffset s) (moved deltaMs b0) row col = false)
  /\ activeBubble s' = Some (moved deltaMs b0)
  /\ grid s' = grid s
  /\ newEvents s s' = [].
Proof.
  intros Hb Hy Hobst. cbv zeta.
  rewrite (updateActiveBubble_passes now deltaMs s b0 Hb Hy Hobst).
  split; [|split; [|split]]; try reflexivity.
  - intros row col cell Hcell Ht. eapply touches_obstacle; eassumption.
  - apply newEvents_same. reflexivity.
Qed.

(** C5.  When the integrated x position has reached or left the playfield
    bounds (bubble radius plus 24 from either side), [dx] is negated and [x]
    is clamped back between the bounds while [y] and [dy] are kept, and the
    frame goes on with that bubble; a projectile integrated to
    [x = leftBound - 1] with [dx = -1] has [dx = 1] and [x = leftBound]. *)
Theorem wall_bounce_reflects_and_clamps now deltaMs s b0 :
  leftBound <= rightBound ->
  activeBubble s = Some b0 ->
  x (integrate deltaMs b0) <= leftBound
  \/ rightBound <= x (integrate deltaMs b0) ->
  let b := moved deltaMs b0 in
  let s' := updateActiveBubble now deltaMs s in
  dx b = - dx b0
  /\ x b = clamp (x (integrate deltaMs b0)) leftBound rightBound
  /\ leftBound <= x b <= rightBound
  /\ y b = y (integrate deltaMs b0) /\ dy b = dy b0
  /\ (activeBubble s' = Some b
      \/ (activeBubble s' = None /\ newEvents s s' = [Landed b]))
  /\ (x (integrate deltaMs b0) = leftBound - 1 -> dx b0 = -1 ->
      dx b = 1 /\ x b = leftBound).
Proof.
  intros Hwide Hb Hout. cbv zeta. unfold moved.
  rewrite bounce_outside by exact Hout. simpl.
  split; [lra|]. split; [reflexivity|].
  split; [apply clamp_range; exact Hwide|].
  split; [reflexivity|]. split; [reflexivity|]. split.
  - destruct (updateActiveBubble_outcome now deltaMs s b0 Hb)
      as [(_ & Hnone & Hev)|(_ & Hsome & _)]; unfold moved in *;
      rewrite bounce_outside in * by exact Hout;
      simpl in *; [right; split; assumption|left; assumption].
  - intros Hx Hdx. split; [rewrite Hdx; lra|].
    apply clamp_below; [exact Hwide|simpl in Hx; lra].
Qed.

(** C6 (as the code has it).  In a frame whose moved projectile is below the
    ceiling line, the projectile lands, and the ref is cleared, exactly when
    some scanned slot holds a bubble that is not an obstacle and whose
    centre, shifted by the offset of its row, is at most two bubble radii
    minus 2 away from the centre of the projectile. *)
Theorem contact_iff_within_distance now deltaMs s b0 :
  activeBubble s = Some b0 ->
  ceilingLine < y (moved deltaMs b0) ->
  let b := moved deltaMs b0 in
  let s' := updateActiveBubble now deltaMs s in
  ((activeBubble s' = None /\ newEvents s s' = [Landed b])
   <->
   exists row col cell,
     (row < length (grid s))%nat /\ (col < GRID_COLS)%nat
     /\ cellAt (grid s) row col = Some cell
     /\ cell_type cell <> obstacle
     /\ distanceTo (rowOffset s) b row cell <= contactDistance)
  /\ contactDistance = bubbleRadius GAME_METRICS * 2 - 2
  /\ (forall row cell,
        distanceTo (rowOffset s) b row cell =
        sqrt ((x b - (cell_x cell
                      + JS.orElse (JS.getIndex row (rowOffset s)) 0))
              * (x b - (cell_x cell
                        + JS.orElse (JS.getIndex row (rowOffset s)) 0))
              + (y b - cell_y cell) * (y b - cell_y cell))).
Proof.
  intros Hb Hy. cbv zeta.
  split; [|split; reflexivity].
  rewrite <- firstContact_iff.
  assert (Hstops : stops s (moved deltaMs b0) = true <->
                   exists hit, firstContact s (moved deltaMs b0) = Some hit).
  { unfold stops, atCeiling. apply leb_false in Hy. rewrite Hy. simpl.
    destruct (firstContact s _) as [hit|]; split;
      try discriminate; try reflexivity.
    - intros _. exists hit. reflexivity.
    - intros (hit' & Hhit). discriminate. }
  rewrite <- Hstops.
  destruct (updateActiveBubble_outcome now deltaMs s b0 Hb)
    as [(Hs & Hnone & Hev)|(Hs & Hsome & Hev)].
  - split; [intros _; exact Hs|intros _; split; assumption].
  - split; [intros [Hnone _]; congruence|congruence].
Qed.

(** ** Descent *)

Lemma frozen_iff timestamp s :
  frozen timestamp s = true <->
  exists f, freezeUntil s = Some f /\ f <> 0 /\ timestamp < f.
Proof.
  unfold frozen. destruct (freezeUntil s) as [f|].
  - rewrite andb_true_iff, truthy_true, gtb_true. split.
    + intros [Hf Ht]. exists f. repeat split; assumption.
    + intros (f' & [= <-] & Hf & Ht). split; assumption.
  - split; [discriminate|]. intros (f & Hf & _). discriminate.
Qed.

(** C7.  [dropCycle] drops a row exactly when the time since the last drop
    is at least the effective interval, which is the level's descent
    interval, multiplied by 1.65 while the freeze timer is set and still
    ahead of the timestamp.  When it drops, the last-drop time becomes the
    timestamp and the failure line is checked on the dropped grid at once: a
    breach costs a life, otherwise the dropped grid stays.  When it does not
    drop, the state (grid and last-drop time included) is unchanged. *)
Theorem descent_fires_iff_interval_elapsed timestamp s :
  let lvl := level (runtime s) in
  let effective :=
    if frozen timestamp s then descentInterval lvl * 1.65
    else descentInterval lvl in
  let s' := dropCycle timestamp s in
  (effective <= timestamp - lastDropAt (runtime s) ->
   lastDropAt (runtime s') = timestamp
   /\ (dropBreaches s = false ->
       grid s' = droppedGrid s
       /\ lives (runtime s') = lives (runtime s)
       /\ newEvents s s' = [RowDropped])
   /\ (dropBreaches s = true ->
       lives (runtime s') = lives (runtime s) - 1
       /\ activeBubble s' = None
       /\ newEvents s s' = [RowDropped; LifeLost]))
  /\ (timestamp - lastDropAt (runtime s) < effective -> s' = s)
  /\ (frozen timestamp s = true <->
      exists f, freezeUntil s = Some f /\ f <> 0 /\ timestamp < f).
Proof.
  cbv zeta. split; [|split].
  - intros Hdue.
    assert (Hd : dropDue timestamp s = true)
      by (unfold dropDue, interval; apply geb_true; exact Hdue).
    destruct (dropBreaches s) eqn:Hbreach.
    + destruct (dropCycle_breach timestamp s Hd Hbreach)
        as (Hab & Hl & _ & Hlast & _ & _ & _ & Hh).
      split; [exact Hlast|]. split; [discriminate|]. intros _.
      split; [exact Hl|]. split; [exact Hab|].
      apply newEvents_app. exact Hh.
    + destruct (dropCycle_safe timestamp s Hd Hbreach)
        as (Hg & Hrt & _ & _ & _ & Hh).
      rewrite Hrt. split; [reflexivity|]. split; [|discriminate]. intros _.
      split; [exact Hg|]. split; [reflexivity|].
      apply newEvents_app. exact Hh.
  - intros Hearly. apply dropCycle_idle.
    unfold dropDue, interval. apply geb_false. exact Hearly.
  - apply frozen_iff.
Qed.

(** C2.  A frame runs [dropCycle] first and [updateActiveBubble] on the
    state [dropCycle] leaves: the log entries of the frame are those of the
    descent (row drop, lost life), then those of the projectile (landing),
    then those of the time limit, and the projectile that is in flight after
    the descent lands in the frame exactly when its moved position stops
    against the state the descent left.  After a row drop that stays clear
    of the failure line that state holds the dropped grid, so the frame
    lands the projectile exactly when it is at the ceiling line or within
    the contact distance of a bubble of the dropped grid.  When the row drop
    of the frame breaches the failure line, the life is lost and the
    projectile is gone before the projectile step runs, which then does
    nothing: the frame logs no landing and ends without a projectile, also
    for a projectile that the projectile step, run before the descent, would
    have landed. *)
Theorem descent_precedes_projectile timestamp now s :
  let delta := frameDelta timestamp s in
  let s1 := dropCycle timestamp (set_lastFrame (Some timestamp) s) in
  let s2 := updateActiveBubble now delta s1 in
  let s' := animationLoop timestamp now s in
  s' = finishFrame timestamp now delta s2
  /\ newEvents s s' =
     newEvents s s1 ++ newEvents s1 s2 ++ newEvents s2 s'
  /\ landings (newEvents s s1) = 0%nat
  /\ (forall e, In e (newEvents s1 s2) -> isLanded e = true)
  /\ (forall b0,
        activeBubble s1 = Some b0 ->
        (stops s1 (moved delta b0) = true ->
         newEvents s1 s2 = [Landed (moved delta b0)]
         /\ activeBubble s2 = None
         /\ landings (newEvents s s') = 1%nat)
        /\ (stops s1 (moved delta b0) = false ->
            newEvents s1 s2 = []
            /\ activeBubble s2 = Some (moved delta b0)
            /\ landings (newEvents s s') = 0%nat))
  /\ (dropDue timestamp s = true -> dropBreaches s = false ->
      newEvents s s1 = [RowDropped]
      /\ grid s1 = droppedGrid s
      /\ rowOffset s1 = rowOffset s
      /\ activeBubble s1 = activeBubble s
      /\ (forall b0,
            activeBubble s = Some b0 ->
            (landings (newEvents s s') = 1%nat <->
             y (moved delta b0) <= ceilingLine
             \/ exists row col cell,
                  (row < length (droppedGrid s))%nat
                  /\ (col < GRID_COLS)%nat
                  /\ cellAt (droppedGrid s) row col = Some cell
                  /\ cell_type cell <> obstacle
                  /\ distanceTo (rowOffset s) (moved delta b0) row cell
                     <= contactDistance)))
  /\ (dropDue timestamp s = true -> dropBreaches s = true ->
      newEvents s s1 = [RowDropped; LifeLost]
      /\ lives (runtime s1) = lives (runtime s) - 1
      /\ activeBubble s1 = None
      /\ s2 = s1
      /\ landings (newEvents s s') = 0%nat
      /\ activeBubble s' = None
      /\ (forall b0,
            activeBubble s = Some b0 ->
            stops s (moved delta b0) = true ->
            landings (newEvents s (updateActiveBubble now delta s))
            = 1%nat)).
Proof.
  cbv zeta.
  set (s0 := set_lastFrame (Some timestamp) s).
  set (delta := frameDelta timestamp s).
  set (s1 := dropCycle timestamp s0).
  set (s2 := updateActiveBubble now delta s1).
  assert (H1 : history s1 = history s ++ dropEvents timestamp s0)
    by apply (dropCycle_history timestamp s0).
  assert (H2 : history s2 = history s1 ++ motionEvents delta s1)
    by apply updateActiveBubble_history.
  destruct (finishFrame_frame timestamp now delta s2)
    as (_ & _ & H3 & _ & Hab3).
  change (animationLoop timestamp now s)
    with (finishFrame timestamp now delta s2).
  set (s' := finishFrame timestamp now delta s2) in *.
  assert (Hh : history s' =
               history s ++ dropEvents timestamp s0
               ++ motionEvents delta s1 ++ timeLimitEvents delta s2).
  { rewrite H3, H2, H1, <- !app_assoc. reflexivity. }
  assert (Hlandings : landings (newEvents s s') =
                      landings (motionEvents delta s1)).
  { rewrite (newEvents_app s s' _ Hh), !landings_app.
    rewrite dropEvents_no_landing, timeLimitEvents_no_landing. lia. }
  assert (Hmotion : forall b0,
            activeBubble s1 = Some b0 ->
            (stops s1 (moved delta b0) = true ->
             newEvents s1 s2 = [Landed (moved delta b0)]
             /\ activeBubble s2 = None
             /\ landings (newEvents s s') = 1%nat)
            /\ (stops s1 (moved delta b0) = false ->
                newEvents s1 s2 = []
                /\ activeBubble s2 = Some (moved delta b0)
                /\ landings (newEvents s s') = 0%nat)).
  { intros b0 Hb. rewrite Hlandings. unfold motionEvents. rewrite Hb.
    destruct (updateActiveBubble_outcome now delta s1 b0 Hb)
      as [(Hs & Hnone & Hev)|(Hs & Hsome & Hev)];
      fold s2 in Hnone || fold s2 in Hsome; fold s2 in Hev;
      rewrite Hs; split; intros Hs'; try discriminate;
      repeat split; assumption || reflexivity. }
  rewrite (newEvents_app s s1 _ H1), (newEvents_app s1 s2 _ H2),
    (newEvents_app s2 s' _ H3).
  split; [reflexivity|]. split; [apply newEvents_app; exact Hh|].
  split; [apply dropEvents_no_landing|]. split.
  { unfold motionEvents. intros e.
    destruct (activeBubble s1); [destruct (stops s1 _)|]; simpl;
      intros []; try contradiction; subst e; reflexivity. }
  split.
  { intros b0 Hb. rewrite <- (newEvents_app s1 s2 _ H2).
    exact (Hmotion b0 Hb). }
  split.
  - intros Hdue Hsafe.
    destruct (dropCycle_safe timestamp s0 Hdue Hsafe)
      as (Hg & _ & Hab & _ & _ & _).
    pose proof (dropCycle_safe_offsets timestamp s0 Hdue Hsafe) as Hoff.
    fold s1 in Hg, Hab, Hoff.
    change (droppedGrid s0) with (droppedGrid s) in Hg.
    change (rowOffset s0) with (rowOffset s) in Hoff.
    change (activeBubble s0) with (activeBubble s) in Hab.
    split.
    { unfold dropEvents.
      change (dropDue timestamp s0) with (dropDue timestamp s).
      change (dropBreaches s0) with (dropBreaches s).
      rewrite Hdue, Hsafe. reflexivity. }
    split; [exact Hg|]. split; [exact Hoff|]. split; [exact Hab|].
    intros b0 Hb. rewrite <- Hg, <- Hoff, <- stops_iff.
    rewrite <- Hab in Hb.
    destruct (Hmotion b0 Hb) as [Hyes Hno].
    destruct (stops s1 (moved delta b0)) eqn:Hs.
    + destruct (Hyes eq_refl) as (_ & _ & Hl). split; auto.
    + destruct (Hno eq_refl) as (_ & _ & Hl). rewrite Hl.
      split; discriminate.
  - intros Hdue Hbreach.
    destruct (dropCycle_breach timestamp s0 Hdue Hbreach)
      as (Hab & Hl & _ & _ & _ & _ & _ & _).
    fold s1 in Hab, Hl.
    assert (Hev : dropEvents timestamp s0 = [RowDropped; LifeLost]).
    { unfold dropEvents.
      change (dropDue timestamp s0) with (dropDue timestamp s).
      change (dropBreaches s0) with (dropBreaches s).
      rewrite Hdue, Hbreach. reflexivity. }
    assert (Hidle : s2 = s1) by (apply updateActiveBubble_idle; exact Hab).
    split; [exact Hev|]. split; [exact Hl|]. split; [exact Hab|].
    split; [exact Hidle|]. split.
    { rewrite Hlandings. unfold motionEvents. rewrite Hab. reflexivity. }
    split.
    { rewrite Hidle, Hab in Hab3. destruct Hab3; assumption. }
    intros b0 Hb Hs.
    destruct (updateActiveBubble_outcome now delta s b0 Hb)
      as [(_ & _ & Hev')|(Hs' & _)]; [|congruence].
    rewrite Hev'. reflexivity.
Qed.

(** ** Firing *)

Lemma rejects_iff s :
  rejects s = true <->
  cleared (runtime s) = true \/ lives (runtime s) <= 0
  \/ activeBubble s <> None.
Proof.
  unfold rejects. rewrite !orb_true_iff, leb_true.
  destruct (activeBubble s) as [b|]; split.
  - intros _. right; right. discriminate.
  - intros _. right. reflexivity.
  - intros [[H|H]|H]; [left|right; left|discriminate]; exact H.
  - intros [H|[H|H]]; [left; left|left; right|contradiction]; exact H.
Qed.

(** C3.  In every state the component can reach, a fire request changes
    nothing exactly when the level is cleared, no life is left or a
    projectile is already active; otherwise it launches one projectile into
    the empty ref, counts one shot and logs one launch. *)
Theorem fire_rejected_iff_busy_or_over activeLevel now dateNow s :
  reachable s ->
  let s' := performShoot activeLevel now dateNow s in
  (s' = s <->
   cleared (runtime s) = true \/ lives (runtime s) <= 0
   \/ activeBubble s <> None)
  /\ (s' <> s ->
      activeBubble s = None
      /\ (exists b, activeBubble s' = Some b /\ newEvents s s' = [Fired b])
      /\ shots s' = shots s + 1).
Proof.
  intros Hreach. cbv zeta.
  destruct (reachable_invariants s Hreach) as ((c1 & c2 & Hq) & _ & _).
  rewrite <- rejects_iff.
  destruct (rejects s) eqn:Hrej.
  - rewrite performShoot_rejected by assumption.
    split; [split; reflexivity|]. intros H. contradiction.
  - destruct (performShoot_accepted activeLevel now dateNow s c1 c2 Hrej Hq)
      as (Hab & Hsh & Hh & _).
    assert (Hfree : activeBubble s = None).
    { unfold rejects in Hrej. destruct (activeBubble s); [|reflexivity].
      rewrite orb_true_r in Hrej. discriminate. }
    split.
    + split; [|discriminate]. intros Heq. rewrite Heq in Hab. congruence.
    + intros _. split; [exact Hfree|]. split; [|exact Hsh].
      eexists. split; [exact Hab|]. apply newEvents_app. exact Hh.
Qed.

(** C8.  In every state the component can reach the candidate queue holds
    exactly two candidates, before and after a fire request.  From a queue of
    two, [activateNextBubble] hands out the head and leaves the former second
    candidate followed by one freshly generated candidate; a fire request
    that [performShoot] accepts (level not cleared, a life left, no
    projectile active) launches a projectile with the colour and the kind of
    the head and leaves that queue, and a fire request that it rejects
    leaves the queue as it was. *)
Theorem queue_keeps_two_candidates activeLevel now dateNow s :
  reachable s ->
  let s' := performShoot activeLevel now dateNow s in
  length (nextQueue s) = 2%nat
  /\ length (nextQueue s') = 2%nat
  /\ exists c1 c2,
       nextQueue s = [c1; c2]
       /\ fst (activateNextBubble activeLevel s) = Some c1
       /\ nextQueue (snd (activateNextBubble activeLevel s)) =
          [c2; fst (generateShooterBubble activeLevel (rng s))]
       /\ (cleared (runtime s) = false -> 0 < lives (runtime s) ->
           activeBubble s = None ->
           (exists b, activeBubble s' = Some b
                      /\ color b = cand_color c1 /\ type b = cand_type c1)
           /\ nextQueue s' =
              [c2; fst (generateShooterBubble activeLevel (rng s))])
       /\ (cleared (runtime s) = true \/ lives (runtime s) <= 0
           \/ activeBubble s <> None ->
           nextQueue s' = [c1; c2]).
Proof.
  intros Hreach. cbv zeta.
  destruct (reachable_invariants s Hreach) as ((c1 & c2 & Hq) & _ & _).
  assert (Hreach' : reachable (performShoot activeLevel now dateNow s))
    by (apply (reachable_step s (KeyDown activeLevel now dateNow Space));
        exact Hreach).
  destruct (reachable_invariants _ Hreach') as ((d1 & d2 & Hq') & _ & _).
  split; [rewrite Hq; reflexivity|].
  split; [rewrite Hq'; reflexivity|].
  exists c1, c2. split; [exact Hq|].
  destruct (activateNextBubble_pair activeLevel s c1 c2 Hq) as [Hhd Htl].
  split; [exact Hhd|]. split; [exact Htl|]. split.
  - intros Hc Hl Hab.
    assert (Hrej : rejects s = false).
    { unfold rejects. rewrite Hc, Hab.
      apply leb_false in Hl. rewrite Hl. reflexivity. }
    destruct (performShoot_accepted activeLevel now dateNow s c1 c2 Hrej Hq)
      as (Hb & _ & _ & Hnext & _).
    split; [|exact Hnext].
    eexists. split; [exact Hb|]. split; reflexivity.
  - intros Hbusy. apply rejects_iff in Hbusy.
    rewrite performShoot_rejected by exact Hbusy. exact Hq.
Qed.

(** C9.  In every state the component can reach the aim angle lies between
    [-4 PI / 5] and [-PI / 8], so the projectile that an accepted fire
    request launches has [dy = sin aimAngle < 0]. *)
Theorem launched_projectile_moves_up activeLevel now dateNow s :
  reachable s ->
  let s' := performShoot activeLevel now dateNow s in
  (-4 * PI) / 5 <= aimAngle s <= (-1 * PI) / 8
  /\ (s' <> s ->
      exists b, activeBubble s' = Some b
                /\ dy b = sin (aimAngle s) /\ dy b < 0).
Proof.
  intros Hreach. cbv zeta.
  destruct (reachable_invariants s Hreach) as ((c1 & c2 & Hq) & Ha & _).
  split; [exact Ha|]. intros Hchanged.
  destruct (rejects s) eqn:Hrej.
  - rewrite performShoot_rejected in Hchanged by assumption. contradiction.
  - destruct (performShoot_accepted activeLevel now dateNow s c1 c2 Hrej Hq)
      as (Hab & _).
    eexists. split; [exact Hab|]. simpl. split; [reflexivity|].
    apply sin_negative_in_range. exact Ha.
Qed.

(** ** Combo multiplier *)

(** C10.  In every state the component can reach the combo multiplier lies
    between 1 and 8.  It starts at 1; [handleMatchResults] sets it to
    [min (combo + 1) 8] when cells were removed and to 1 when none were;
    [loseLife] and [resetLevelState] set it to 1. *)
Theorem combo_multiplier_between_1_and_8 s :
  reachable s ->
  1 <= combo (runtime s) <= 8
  /\ (forall activeLevel now seed,
        combo (runtime (initialState activeLevel now seed)) = 1)
  /\ (forall removedCount bonus,
        0 < removedCount ->
        combo (runtime (handleMatchResults removedCount bonus s)) =
        Rmin (combo (runtime s) + 1) 8)
  /\ (forall removedCount bonus,
        removedCount <= 0 ->
        combo (runtime (handleMatchResults removedCount bonus s)) = 1)
  /\ combo (runtime (loseLife s)) = 1
  /\ (forall levelIndex lvl now,
        combo (runtime (resetLevelState levelIndex lvl now s)) = 1).
Proof.
  intros Hreach.
  destruct (reachable_invariants s Hreach) as (_ & _ & Hc).
  unfold comboInRange, MAX_COMBO_MULTIPLIER in Hc.
  split; [exact Hc|]. split; [|split; [|split; [|split]]].
  - intros activeLevel now seed. unfold initialState.
    repeat (destruct (generateInitialGrid _ _)
            || destruct (generateShooterBubble _ _)).
    reflexivity.
  - intros removedCount bonus Hpos. rewrite handleMatchResults_combo.
    apply gtb_true in Hpos. rewrite Hpos. unfold MAX_COMBO_MULTIPLIER.
    destruct (Rle_dec (combo (runtime s) + 1) 8) as [Hle|Hgt].
    + rewrite Rmin_left by exact Hle. apply clamp_inside. lra.
    + rewrite Rmin_right by lra. apply clamp_above; lra.
  - intros removedCount bonus Hnone. rewrite handleMatchResults_combo.
    apply gtb_false in Hnone. rewrite Hnone. reflexivity.
  - apply loseLife_frame.
  - intros levelIndex lvl now. unfold resetLevelState.
    repeat (destruct (generateInitialGrid _ _)
            || destruct (generateShooterBubble _ _)).
    reflexivity.
Qed.

(** ** Landings *)

Lemma frameEvents_landings timestamp now s :
  landings (frameEvents timestamp now s) =
  landings (motionEvents (frameDelta timestamp s) (afterDescent timestamp s)).
Proof.
  unfold frameEvents. rewrite !landings_app.
  rewrite dropEvents_no_landing, timeLimitEvents_no_landing. lia.
Qed.

Lemma animationLoop_free timestamp now s :
  activeBubble (afterMotion timestamp now s) = None ->
  activeBubble (animationLoop timestamp now s) = None.
Proof.
  intros Hnone. rewrite animationLoop_unfold.
  destruct (finishFrame_frame timestamp now (frameDelta timestamp s)
              (afterMotion timestamp now s)) as (_ & _ & _ & _ & [H|H]).
  - rewrite H. exact Hnone.
  - exact H.
Qed.

(** With no projectile in flight, an input that is not a fire request logs
    no landing and leaves the ref empty. *)
Lemma step_quiet s i :
  activeBubble s = None -> isFire i = false ->
  activeBubble (step s i) = None
  /\ exists evs, history (step s i) = history s ++ evs
                 /\ landings evs = 0%nat.
Proof.
  intros Hnone Hfire.
  destruct i
    as [seed|ts now|px py|lvl now dn| |lvl now dn code|idx lvl now];
    simpl in *; try discriminate.
  - split; [exact Hnone|exists []; rewrite app_nil_r; split; reflexivity].
  - assert (H1 : activeBubble (afterDescent ts s) = None).
    { unfold afterDescent.
      destruct (dropCycle_frame ts (frameStart ts s))
        as (_ & _ & _ & _ & [H|H]); [rewrite H; exact Hnone|exact H]. }
    assert (H2 : afterMotion ts now s = afterDescent ts s)
      by (apply updateActiveBubble_idle; exact H1).
    split.
    + apply animationLoop_free. rewrite H2. exact H1.
    + exists (frameEvents ts now s). split; [apply animationLoop_history|].
      rewrite frameEvents_landings. unfold motionEvents. rewrite H1.
      reflexivity.
  - unfold handlePointerMove. destruct (negb (pointerLocked s));
      (split; [exact Hnone|exists []; rewrite app_nil_r; split; reflexivity]).
  - split; [exact Hnone|exists []; rewrite app_nil_r; split; reflexivity].
  - destruct code; try discriminate;
      (split; [exact Hnone|exists []; rewrite app_nil_r; split; reflexivity]).
  - unfold resetLevelState.
    repeat (destruct (generateInitialGrid _ _)
            || destruct (generateShooterBubble _ _)).
    simpl. split; [reflexivity|].
    exists []. rewrite app_nil_r. split; reflexivity.
Qed.

Lemma run_quiet inputs : forall s,
  activeBubble s = None ->
  forallb (fun i => negb (isFire i)) inputs = true ->
  activeBubble (run s inputs) = None
  /\ exists evs, history (run s inputs) = history s ++ evs
                 /\ landings evs = 0%nat.
Proof.
  induction inputs as [|i inputs IH]; intros s Hnone Hquiet.
  - split; [exact Hnone|]. exists []. rewrite app_nil_r. split; reflexivity.
  - simpl in Hquiet.
    apply andb_true_iff in Hquiet. destruct Hquiet as [Hi Hrest].
    apply negb_true_iff in Hi.
    change (run s (i :: inputs)) with (run (step s i) inputs).
    destruct (step_quiet s i Hnone Hi) as (Hnone' & evs1 & Hh1 & Hl1).
    destruct (IH (step s i) Hnone' Hrest) as (Hend & evs2 & Hh2 & Hl2).
    split; [exact Hend|].
    exists (evs1 ++ evs2). split.
    + rewrite Hh2, Hh1, app_assoc. reflexivity.
    + rewrite landings_app, Hl1, Hl2. reflexivity.
Qed.

(** C4.  A frame logs at most one landing; the call of
    [updateActiveBubble] that lands the projectile returns with the ref
    empty, and so does the frame; and from a state with the ref empty no run
    of inputs without a fire request logs a landing or fills the ref. *)
Theorem at_most_one_landing_per_frame timestamp now s :
  let s' := animationLoop timestamp now s in
  (landings (newEvents s s') <= 1)%nat
  /\ (forall deltaMs,
        landings (newEvents s (updateActiveBubble now deltaMs s)) = 1%nat ->
        activeBubble (updateActiveBubble now deltaMs s) = None)
  /\ (landings (newEvents s s') = 1%nat -> activeBubble s' = None)
  /\ (forall inputs,
        activeBubble s' = None ->
        forallb (fun i => negb (isFire i)) inputs = true ->
        landings (newEvents s' (run s' inputs)) = 0%nat
        /\ activeBubble (run s' inputs) = None).
Proof.
  cbv zeta.
  rewrite (newEvents_app _ _ _ (animationLoop_history timestamp now s)).
  rewrite frameEvents_landings.
  split; [apply motionEvents_landings|]. split; [|split].
  - intros deltaMs.
    rewrite (newEvents_app _ _ _ (updateActiveBubble_history now deltaMs s)).
    apply motionEvents_landed.
  - intros Hone. apply animationLoop_free.
    apply motionEvents_landed. exact Hone.
  - intros inputs Hnone Hquiet.
    destruct (run_quiet inputs _ Hnone Hquiet) as (Hend & evs & Hh & Hl).
    rewrite (newEvents_app _ _ _ Hh). split; assumption.
Qed.

End CallbackFacts.

(** * The component on the sample engine *)

Section SampleRuns.

Import String.StringSyntax.
Local Open Scope string_scope.
Local Open Scope R_scope.

#[local] Existing Instance Sample.utils.

(** Closes a comparison between the sample lengths. *)
Ltac numbers :=
  unfold leftBound, rightBound, ceilingLine, contactDistance; simpl; lra.

(** Between the walls a rising bubble is only integrated. *)
Lemma rising_moved px py deltaMs :
  44 < px < 468 ->
  moved deltaMs (Sample.rising px py) =
  integrate deltaMs (Sample.rising px py).
Proof. intros H. apply moved_inside. numbers. Qed.

(** The obstacle is the only bubble of [Sample.underObstacle]. *)
Lemma underObstacle_all_obstacles row col cell :
  cellAt (grid Sample.underObstacle) row col = Some cell ->
  cell_type cell = obstacle.
Proof.
  unfold cellAt.
  destruct row as [|[|[|[|[|row]]]]]; destruct col as [|[|[|[|col]]]];
    simpl; try discriminate; try (destruct col; discriminate);
    try (destruct row; discriminate); intros [= <-]; reflexivity.
Qed.

(** C1, counterexample.  The projectile of [Sample.underObstacle] is moved
    onto the centre of the obstacle of slot (0, 1), so it is within the
    contact distance of an occupied obstacle cell; the frame leaves it
    active, the grid as it was, and logs no landing. *)
Lemma obstacle_in_reach_is_passed :
  let s := Sample.underObstacle in
  let b := moved 20 (Sample.rising 84 72) in
  let cell := Sample.makeCell 0 1 "slate" obstacle in
  let s' := updateActiveBubble 20 20 s in
  activeBubble s = Some (Sample.rising 84 72)
  /\ cellAt (grid s) 0 1 = Some cell /\ cell_type cell = obstacle
  /\ distanceTo (rowOffset s) b 0 cell = 0
  /\ 0 <= contactDistance
  /\ activeBubble s' = Some b
  /\ grid s' = grid s /\ newEvents s s' = [].
Proof.
  cbv zeta.
  assert (Hpass : updateActiveBubble 20 20 Sample.underObstacle =
                  set_activeBubble (Some (moved 20 (Sample.rising 84 72)))
                    Sample.underObstacle).
  { apply updateActiveBubble_passes.
    - reflexivity.
    - rewrite rising_moved by lra. numbers.
    - intros row col cell Hcell _.
      exact (underObstacle_all_obstacles row col cell Hcell). }
  rewrite Hpass.
  split; [reflexivity|]. split; [reflexivity|]. split; [reflexivity|].
  split; [|split; [numbers|]].
  - rewrite rising_moved by lra. unfold distanceTo. simpl.
    match goal with |- sqrt ?a = _ => replace a with 0 by lra end.
    apply sqrt_0.
  - split; [reflexivity|]. split; [reflexivity|].
    apply newEvents_same. reflexivity.
Qed.

(** C1 at [Sample.underObstacle]. *)
Lemma obstacles_do_not_stop_projectile_witness :
  activeBubble Sample.underObstacle = Some (Sample.rising 84 72)
  /\ ceilingLine < y (moved 20 (Sample.rising 84 72))
  /\ activeBubble (updateActiveBubble 20 20 Sample.underObstacle) =
     Some (moved 20 (Sample.rising 84 72)).
Proof.
  assert (Hy : ceilingLine < y (moved 20 (Sample.rising 84 72)))
    by (rewrite rising_moved by lra; numbers).
  split; [reflexivity|]. split; [exact Hy|].
  pose proof (obstacles_do_not_stop_projectile 20 20 Sample.underObstacle
                (Sample.rising 84 72) eq_refl Hy
                (fun row col cell H _ =>
                   underObstacle_all_obstacles row col cell H)) as H.
  cbv zeta in H. destruct H as (_ & H & _). exact H.
Defined.

(** The obstacle is the only bubble of [Sample.underShiftedObstacle]. *)
Lemma underShiftedObstacle_all_obstacles row col cell :
  cellAt (grid Sample.underShiftedObstacle) row col = Some cell ->
  cell_type cell = obstacle.
Proof.
  unfold cellAt.
  destruct row as [|[|[|[|[|row]]]]]; destruct col as [|[|[|[|col]]]];
    simpl; try discriminate; try (destruct col; discriminate);
    try (destruct row; discriminate); intros [= <-]; reflexivity.
Qed.

(** C6, counterexample.  The moved projectile of
    [Sample.underShiftedObstacle] is 5 away from the shifted centre of the
    occupied slot (1, 2), which is within the contact distance, and the
    frame does not land it. *)
Lemma shifted_obstacle_in_reach_is_passed :
  let s := Sample.underShiftedObstacle in
  let b := moved 20 (Sample.rising 162 112) in
  let cell := Sample.makeCell 1 2 "slate" obstacle in
  let s' := updateActiveBubble 20 20 s in
  activeBubble s = Some (Sample.rising 162 112)
  /\ cellAt (grid s) 1 2 = Some cell
  /\ distanceTo (rowOffset s) b 1 cell = 5
  /\ 5 <= contactDistance
  /\ activeBubble s' = Some b
  /\ newEvents s s' = [].
Proof.
  cbv zeta.
  assert (Hpass :
    updateActiveBubble 20 20 Sample.underShiftedObstacle =
    set_activeBubble (Some (moved 20 (Sample.rising 162 112)))
      Sample.underShiftedObstacle).
  { apply updateActiveBubble_passes.
    - reflexivity.
    - rewrite rising_moved by lra. numbers.
    - intros row col cell Hcell _.
      exact (underShiftedObstacle_all_obstacles row col cell Hcell). }
  rewrite Hpass.
  split; [reflexivity|]. split; [reflexivity|].
  split; [|split; [numbers|split]].
  - rewrite rising_moved by lra. unfold distanceTo. simpl.
    match goal with |- sqrt ?a = _ => replace a with (5 * 5) by lra end.
    apply sqrt_square. lra.
  - reflexivity.
  - apply newEvents_same. reflexivity.
Qed.

(** C6 at [Sample.underBubble]: the bubble of slot (1, 0) is 34 away and
    the projectile lands. *)
Lemma contact_iff_within_distance_witness :
  activeBubble Sample.underBubble = Some (Sample.rising 64 142)
  /\ ceilingLine < y (moved 20 (Sample.rising 64 142))
  /\ activeBubble (updateActiveBubble 20 20 Sample.underBubble) = None.
Proof.
  assert (Hy : ceilingLine < y (moved 20 (Sample.rising 64 142)))
    by (rewrite rising_moved by lra; numbers).
  split; [reflexivity|]. split; [exact Hy|].
  pose proof (contact_iff_within_distance 20 20 Sample.underBubble
                (Sample.rising 64 142) eq_refl Hy) as H.
  cbv zeta in H. destruct H as (H & _). apply H.
  exists 1%nat, 0%nat, (Sample.makeCell 1 0 (Sample.pick 1) normal).
  split; [simpl; lia|]. split; [simpl; unfold Sample.cols; lia|].
  split; [reflexivity|]. split; [discriminate|].
  rewrite rising_moved by lra. unfold distanceTo, contactDistance. simpl.
  match goal with |- sqrt ?a <= _ => replace a with (34 * 34) by lra end.
  rewrite sqrt_square by lra. lra.
Defined.

(** C5 at [Sample.towardsWall]: integrated to [leftBound - 1] with
    [dx = -1], the projectile leaves the wall test with [dx = 1] at
    [leftBound]. *)
Lemma wall_bounce_reflects_and_clamps_witness :
  leftBound <= rightBound
  /\ activeBubble Sample.towardsWall = Some Sample.leftward
  /\ x (integrate 10 Sample.leftward) = leftBound - 1
  /\ dx Sample.leftward = -1
  /\ dx (moved 10 Sample.leftward) = 1
  /\ x (moved 10 Sample.leftward) = leftBound.
Proof.
  assert (Hwide : leftBound <= rightBound) by numbers.
  assert (Hx : x (integrate 10 Sample.leftward) = leftBound - 1)
    by (unfold Sample.leftward; numbers).
  split; [exact Hwide|]. split; [reflexivity|]. split; [exact Hx|].
  split; [reflexivity|].
  assert (Hout : x (integrate 10 Sample.leftward) <= leftBound) by lra.
  pose proof (wall_bounce_reflects_and_clamps 10 10 Sample.towardsWall
                Sample.leftward Hwide eq_refl (or_introl Hout)) as H.
  cbv zeta in H. destruct H as (_ & _ & _ & _ & _ & _ & H).
  exact (H Hx eq_refl).
Defined.

(** The descent of the sample states at times 5000 and 12000. *)
Lemma start_not_frozen timestamp : frozen timestamp Sample.start = false.
Proof. reflexivity. Qed.

Lemma start_drop_due : dropDue 12000 Sample.start = true.
Proof. unfold dropDue, interval. apply geb_true. simpl. lra. Qed.

Lemma crowded_drop_due : dropDue 12000 Sample.crowded = true.
Proof. unfold dropDue, interval. apply geb_true. simpl. lra. Qed.

Lemma start_drop_safe : dropBreaches Sample.start = false.
Proof. reflexivity. Qed.

Lemma crowded_drop_breaches : dropBreaches Sample.crowded = true.
Proof. reflexivity. Qed.

(** C7 at [Sample.start] and [Sample.crowded]: a safe drop, a drop that
    breaches the failure line, and a frame before the interval has
    elapsed. *)
Lemma descent_fires_iff_interval_elapsed_witness :
  (descentInterval Sample.level1
   <= 12000 - lastDropAt (runtime Sample.start)
   /\ dropBreaches Sample.start = false
   /\ lastDropAt (runtime (dropCycle 12000 Sample.start)) = 12000
   /\ grid (dropCycle 12000 Sample.start) = droppedGrid Sample.start)
  /\ (descentInterval Sample.level1
      <= 12000 - lastDropAt (runtime Sample.crowded)
      /\ dropBreaches Sample.crowded = true
      /\ lives (runtime (dropCycle 12000 Sample.crowded)) =
         lives (runtime Sample.crowded) - 1)
  /\ (5000 - lastDropAt (runtime Sample.start)
      < descentInterval Sample.level1
      /\ dropCycle 5000 Sample.start = Sample.start).
Proof.
  assert (Hdue : descentInterval Sample.level1 <= 12000 - 0)
    by (simpl; lra).
  assert (Hearly : 5000 - 0 < descentInterval Sample.level1)
    by (simpl; lra).
  split; [|split].
  - split; [exact Hdue|]. split; [reflexivity|].
    destruct (descent_fires_iff_interval_elapsed 12000 Sample.start)
      as (H & _).
    destruct (H Hdue) as (Hlast & Hsafe & _).
    split; [exact Hlast|]. apply (Hsafe eq_refl).
  - split; [exact Hdue|]. split; [reflexivity|].
    destruct (descent_fires_iff_interval_elapsed 12000 Sample.crowded)
      as (H & _).
    destruct (H Hdue) as (_ & _ & Hbreach).
    apply (Hbreach eq_refl).
  - split; [exact Hearly|].
    destruct (descent_fires_iff_interval_elapsed 5000 Sample.start)
      as (_ & H & _).
    exact (H Hearly).
Defined.

(** The frame at time 12000 of an approaching projectile. *)
Lemma approaching_delta s : frameDelta 12000 (Sample.approaching s) = 10.
Proof.
  unfold frameDelta.
  change (lastFrame (Sample.approaching s)) with (Some 11990).
  assert (H : JS.truthy 11990 = true) by (apply truthy_true; lra).
  cbv beta iota zeta. rewrite H. lra.
Qed.

Lemma approaching_crowded_stops :
  stops (Sample.approaching Sample.crowded)
    (moved 10 (Sample.rising 84 175)) = true.
Proof.
  apply stops_iff. right.
  exists 2%nat, 1%nat. eexists.
  split; [simpl; lia|]. split; [simpl; unfold Sample.cols; lia|].
  split; [reflexivity|]. split; [discriminate|].
  rewrite rising_moved by lra. unfold distanceTo, contactDistance. simpl.
  match goal with |- sqrt ?a <= _ => replace a with (37 * 37) by lra end.
  rewrite sqrt_square by lra. lra.
Qed.

Lemma sqrt_le_square a c : 0 <= a -> sqrt a <= c -> a <= c * c.
Proof.
  intros Ha Hs. pose proof (sqrt_pos a). pose proof (sqrt_sqrt a Ha). nra.
Qed.

Lemma approaching_start_flies :
  stops (Sample.approaching Sample.start)
    (moved 10 (Sample.rising 84 175)) = false.
Proof.
  destruct (stops _ _) eqn:Hs; [|reflexivity]. exfalso.
  apply stops_iff in Hs. rewrite rising_moved in Hs by lra.
  destruct Hs as [Hy|(row & col & cell & _ & _ & Hcell & _ & Hd)].
  - revert Hy. numbers.
  - unfold cellAt in Hcell.
    destruct row as [|[|[|[|[|row]]]]]; destruct col as [|[|[|[|col]]]];
      simpl in Hcell; try discriminate;
      try (destruct col; discriminate);
      try (destruct row; discriminate);
      injection Hcell as <-;
      unfold distanceTo, contactDistance in Hd; simpl in Hd;
      apply sqrt_le_square in Hd; nra.
Qed.

Lemma approaching_drop_due s :
  runtime s = runtime Sample.start -> freezeUntil s = None ->
  dropDue 12000 (Sample.approaching s) = true.
Proof.
  intros Hrt Hf. unfold dropDue, interval, frozen. simpl. rewrite Hrt, Hf.
  apply geb_true. simpl. lra.
Qed.

(** C2 at [Sample.crowded] and [Sample.start], each with a projectile that
    its move of the frame brings within the contact distance of slot (2, 1).
    In [Sample.crowded] that slot holds a bubble, so the projectile step
    alone would land the projectile; the row drop of the frame breaches the
    failure line first, and the frame logs no landing and ends without a
    projectile.  In [Sample.start] the slot is empty and nothing stops the
    projectile; the row drop of the frame moves a bubble into the slot, and
    the frame lands the projectile on it. *)
Lemma descent_precedes_projectile_witness :
  let b := moved 10 (Sample.rising 84 175) in
  let crowded := Sample.approaching Sample.crowded in
  let start := Sample.approaching Sample.start in
  (dropDue 12000 crowded = true /\ dropBreaches crowded = true
   /\ activeBubble crowded = Some (Sample.rising 84 175)
   /\ stops crowded b = true
   /\ landings (newEvents crowded (updateActiveBubble 12000 10 crowded))
      = 1%nat
   /\ landings (newEvents crowded (animationLoop 12000 12000 crowded))
      = 0%nat
   /\ activeBubble (animationLoop 12000 12000 crowded) = None)
  /\ (dropDue 12000 start = true /\ dropBreaches start = false
      /\ activeBubble start = Some (Sample.rising 84 175)
      /\ stops start b = false
      /\ landings (newEvents start (animationLoop 12000 12000 start))
         = 1%nat).
Proof.
  cbv zeta.
  assert (Hdue1 : dropDue 12000 (Sample.approaching Sample.crowded) = true)
    by (apply approaching_drop_due; reflexivity).
  assert (Hdue2 : dropDue 12000 (Sample.approaching Sample.start) = true)
    by (apply approaching_drop_due; reflexivity).
  split.
  - pose proof (descent_precedes_projectile 12000 12000
                  (Sample.approaching Sample.crowded)) as H.
    cbv zeta in H. rewrite approaching_delta in H.
    destruct H as (_ & _ & _ & _ & _ & _ & H).
    destruct (H Hdue1 eq_refl) as (_ & _ & _ & _ & Hquiet & Hnone & Hfirst).
    split; [exact Hdue1|]. split; [reflexivity|]. split; [reflexivity|].
    split; [exact approaching_crowded_stops|].
    split; [exact (Hfirst _ eq_refl approaching_crowded_stops)|].
    split; [exact Hquiet|exact Hnone].
  - pose proof (descent_precedes_projectile 12000 12000
                  (Sample.approaching Sample.start)) as H.
    cbv zeta in H. rewrite approaching_delta in H.
    destruct H as (_ & _ & _ & _ & _ & H & _).
    destruct (H Hdue2 eq_refl) as (_ & _ & _ & _ & Hlands).
    split; [exact Hdue2|]. split; [reflexivity|]. split; [reflexivity|].
    split; [exact approaching_start_flies|].
    apply (Hlands _ eq_refl). right.
    exists 2%nat, 1%nat. eexists.
    split; [simpl; lia|]. split; [simpl; unfold Sample.cols; lia|].
    split; [reflexivity|]. split; [discriminate|].
    rewrite rising_moved by lra. unfold distanceTo, contactDistance. simpl.
    match goal with |- sqrt ?a <= _ => replace a with (37 * 37) by lra end.
    rewrite sqrt_square by lra. lra.
Defined.

(** [Sample.start] is reachable and accepts a fire request. *)
Lemma start_reachable : reachable Sample.start.
Proof. apply reachable_init. Qed.

Lemma start_accepts : rejects Sample.start = false.
Proof.
  unfold rejects.
  assert (H : (lives (runtime Sample.start) <=? 0) = false)
    by (apply leb_false; simpl; lra).
  rewrite H. reflexivity.
Qed.

Lemma start_fires now dateNow :
  performShoot Sample.level1 now dateNow Sample.start <> Sample.start.
Proof.
  intros Heq.
  destruct (performShoot_accepted Sample.level1 now dateNow Sample.start
              _ _ start_accepts eq_refl) as (Hab & _).
  rewrite Heq in Hab. discriminate.
Qed.

(** C3 at [Sample.start]. *)
Lemma fire_rejected_iff_busy_or_over_witness :
  reachable Sample.start
  /\ performShoot Sample.level1 10 1 Sample.start <> Sample.start
  /\ shots (performShoot Sample.level1 10 1 Sample.start) =
     shots Sample.start + 1.
Proof.
  split; [exact start_reachable|]. split; [apply start_fires|].
  pose proof (fire_rejected_iff_busy_or_over Sample.level1 10 1 Sample.start
                start_reachable) as H.
  cbv zeta in H. destruct H as (_ & H).
  apply (H (start_fires 10 1)).
Defined.

(** C8 at [Sample.start]: an accepted fire request at time 10 launches the
    head of the queue and leaves a queue of two. *)
Lemma queue_keeps_two_candidates_witness :
  let s' := performShoot Sample.level1 10 1 Sample.start in
  reachable Sample.start
  /\ cleared (runtime Sample.start) = false
  /\ 0 < lives (runtime Sample.start)
  /\ activeBubble Sample.start = None
  /\ length (nextQueue s') = 2%nat
  /\ exists c1 c2 b,
       nextQueue Sample.start = [c1; c2]
       /\ activeBubble s' = Some b
       /\ color b = cand_color c1 /\ type b = cand_type c1
       /\ nextQueue s' =
          [c2; fst (generateShooterBubble Sample.level1 (rng Sample.start))].
Proof.
  cbv zeta.
  assert (Hlives : 0 < lives (runtime Sample.start)) by (simpl; lra).
  pose proof (queue_keeps_two_candidates Sample.level1 10 1 Sample.start
                start_reachable) as H.
  cbv zeta in H. destruct H as (_ & Hlen & c1 & c2 & Hq & _ & _ & Hfire & _).
  destruct (Hfire eq_refl Hlives eq_refl) as ((b & Hb & Hc & Ht) & Hnext).
  split; [exact start_reachable|]. split; [reflexivity|].
  split; [exact Hlives|]. split; [reflexivity|]. split; [exact Hlen|].
  exists c1, c2, b. repeat split; assumption.
Defined.


(** C9 at [Sample.start]. *)
Lemma launched_projectile_moves_up_witness :
  reachable Sample.start
  /\ performShoot Sample.level1 10 1 Sample.start <> Sample.start
  /\ exists b,
       activeBubble (performShoot Sample.level1 10 1 Sample.start) = Some b
       /\ dy b = sin (aimAngle Sample.start) /\ dy b < 0.
Proof.
  split; [exact start_reachable|]. split; [apply start_fires|].
  pose proof (launched_projectile_moves_up Sample.level1 10 1 Sample.start
                start_reachable) as H.
  cbv zeta in H. destruct H as (_ & H).
  apply (H (start_fires 10 1)).
Defined.

(** C10 at [Sample.start]. *)
Lemma combo_multiplier_between_1_and_8_witness :
  reachable Sample.start
  /\ 1 <= combo (runtime Sample.start) <= 8
  /\ (0 < 3 /\
      combo (runtime (handleMatchResults 3 0 Sample.start)) =
      Rmin (combo (runtime Sample.start) + 1) 8)
  /\ (0 <= 0 /\ combo (runtime (handleMatchResults 0 0 Sample.start)) = 1).
Proof.
  destruct (combo_multiplier_between_1_and_8 Sample.start start_reachable)
    as (Hrange & _ & Hup & Hdown & _).
  split; [exact start_reachable|]. split; [exact Hrange|]. split.
  - split; [lra|]. apply Hup. lra.
  - split; [lra|]. apply Hdown. lra.
Defined.

(** The projectile of [Sample.underCeiling] reaches the ceiling line. *)
Lemma underCeiling_stops s :
  grid s = grid Sample.underCeiling ->
  stops s (moved 20 (Sample.rising 200 55)) = true.
Proof.
  intros _. unfold stops.
  assert (H : atCeiling (moved 20 (Sample.rising 200 55)) = true)
    by (unfold atCeiling; apply leb_true; rewrite rising_moved by lra;
        numbers).
  rewrite H. reflexivity.
Qed.

Lemma underCeiling_lands now :
  landings
    (newEvents Sample.underCeiling
       (updateActiveBubble now 20 Sample.underCeiling)) = 1%nat.
Proof.
  rewrite (newEvents_app _ _ _
             (updateActiveBubble_history now 20 Sample.underCeiling)).
  unfold motionEvents.
  change (activeBubble Sample.underCeiling)
    with (Some (Sample.rising 200 55)).
  cbv beta iota. rewrite underCeiling_stops by reflexivity. reflexivity.
Qed.

Lemma underCeiling_delta : frameDelta 120 Sample.underCeiling = 20.
Proof.
  unfold frameDelta.
  change (lastFrame Sample.underCeiling) with (Some 100).
  assert (H : JS.truthy 100 = true) by (apply truthy_true; lra).
  cbv beta iota zeta. rewrite H. lra.
Qed.

Lemma underCeiling_frame_lands now :
  landings
    (newEvents Sample.underCeiling
       (animationLoop 120 now Sample.underCeiling)) = 1%nat.
Proof.
  rewrite (newEvents_app _ _ _
             (animationLoop_history 120 now Sample.underCeiling)).
  rewrite frameEvents_landings, underCeiling_delta.
  assert (Hidle : afterDescent 120 Sample.underCeiling =
                  frameStart 120 Sample.underCeiling).
  { apply dropCycle_idle. unfold dropDue, interval. apply geb_false.
    simpl. lra. }
  rewrite Hidle. unfold motionEvents.
  change (activeBubble (frameStart 120 Sample.underCeiling))
    with (Some (Sample.rising 200 55)).
  cbv beta iota. rewrite underCeiling_stops by reflexivity. reflexivity.
Qed.

(** C4 at [Sample.underCeiling]: the frame at time 120 lands the
    projectile, and three further inputs without a fire request log no
    landing. *)
Lemma at_most_one_landing_per_frame_witness :
  let s := Sample.underCeiling in
  let s' := animationLoop 120 120 s in
  landings (newEvents s (updateActiveBubble 120 20 s)) = 1%nat
  /\ activeBubble (updateActiveBubble 120 20 s) = None
  /\ landings (newEvents s s') = 1%nat
  /\ activeBubble s' = None
  /\ landings
       (newEvents s'
          (run s' [PointerUp; Frame 140 140;
                   KeyDown Sample.level1 140 1 ArrowLeft])) = 0%nat.
Proof.
  cbv zeta.
  destruct (at_most_one_landing_per_frame 120 120 Sample.underCeiling)
    as (_ & Hcall & Hframe & Hquiet).
  pose proof (Hframe (underCeiling_frame_lands 120)) as Hnone.
  split; [apply underCeiling_lands|].
  split; [apply Hcall, underCeiling_lands|].
  split; [apply underCeiling_frame_lands|].
  split; [exact Hnone|].
  apply (Hquiet [PointerUp; Frame 140 140;
                 KeyDown Sample.level1 140 1 ArrowLeft] Hnone eq_refl).
Defined.

End SampleRuns.

(** * Further properties of the component *)

Section FlightFacts.

Context {U : GameUtils}.

Lemma computeShotSpeed_range lvl :
  computeShotSpeed lvl <= 740
  /\ (0 <= levelNumber lvl -> 520 <= computeShotSpeed lvl).
Proof.
  unfold computeShotSpeed. split.
  - pose proof (Rmin_r (levelNumber lvl * 16) 220). lra.
  - intros Hl. apply Rmin_case_strong; intros; lra.
Qed.

Lemma integrate_fields deltaMs b :
  let b' := integrate deltaMs b in
  dx b' = dx b /\ dy b' = dy b /\ speed b' = speed b
  /\ color b' = color b /\ type b' = type b
  /\ y b' = y b + dy b * speed b * (deltaMs / 1000)
  /\ x b' = x b + dx b * speed b * (deltaMs / 1000).
Proof. repeat split. Qed.

Lemma bounce_fields b :
  let b' := bounce b in
  (dx b' = dx b \/ dx b' = - dx b) /\ dy b' = dy b /\ speed b' = speed b
  /\ y b' = y b /\ color b' = color b /\ type b' = type b.
Proof.
  unfold bounce.
  destruct ((x b <=? leftBound) || (x b >=? rightBound)); simpl.
  - split; [right; lra|repeat split].
  - split; [left; reflexivity|repeat split].
Qed.

Lemma moved_fields deltaMs b :
  let b' := moved deltaMs b in
  (dx b' = dx b \/ dx b' = - dx b) /\ dy b' = dy b /\ speed b' = speed b
  /\ y b' = y b + dy b * speed b * (deltaMs / 1000)
  /\ color b' = color b /\ type b' = type b.
Proof.
  unfold moved. cbv zeta.
  destruct (bounce_fields (integrate deltaMs b))
    as (Hdx & Hdy & Hsp & Hy & Hc & Ht).
  rewrite Hdy, Hsp, Hy, Hc, Ht.
  split; [exact Hdx|repeat split].
Qed.

Lemma moved_inFlight deltaMs b : inFlight b -> inFlight (moved deltaMs b).
Proof.
  unfold inFlight. intros ((angle & Ha & Hdy & Hdx) & Hsp).
  destruct (moved_fields deltaMs b) as (Hdx' & -> & -> & _).
  split; [|exact Hsp]. exists angle. split; [exact Ha|].
  split; [exact Hdy|].
  destruct Hdx' as [-> | ->]; destruct Hdx as [-> | ->];
    [left|right|right|left]; lra.
Qed.

Lemma launched_inFlight now dateNow c s :
  aimInRange s -> inFlight (launched now dateNow c s).
Proof.
  intros Ha. unfold inFlight. simpl. split.
  - exists (aimAngle s). split; [exact Ha|]. split; [reflexivity|].
    left. reflexivity.
  - apply computeShotSpeed_range.
Qed.

(** How one input changes the projectile ref. *)
Lemma step_activeBubble s i :
  queueFull s ->
  activeBubble (step s i) = None
  \/ activeBubble (step s i) = activeBubble s
  \/ (exists deltaMs b0,
        activeBubble s = Some b0
        /\ activeBubble (step s i) = Some (moved deltaMs b0))
  \/ (exists now dateNow c s0,
        aimAngle s0 = aimAngle s
        /\ activeBubble (step s i) = Some (launched now dateNow c s0)).
Proof.
  intros (c1 & c2 & Hq).
  assert (Hshoot : forall lvl now dn s0,
            aimAngle s0 = aimAngle s -> nextQueue s0 = nextQueue s ->
            activeBubble s0 = activeBubble s ->
            activeBubble (performShoot lvl now dn s0) = activeBubble s
            \/ exists now' dateNow c s1,
                 aimAngle s1 = aimAngle s
                 /\ activeBubble (performShoot lvl now dn s0) =
                    Some (launched now' dateNow c s1)).
  { intros lvl now dn s0 Ha Hq0 Hb0.
    destruct (rejects s0) eqn:Hrej.
    - rewrite performShoot_rejected by assumption. left. exact Hb0.
    - rewrite Hq in Hq0.
      destruct (performShoot_accepted lvl now dn s0 c1 c2 Hrej Hq0)
        as (Hab & _).
      right. exists now, dn, c1, s0. split; assumption. }
  destruct i
    as [seed|ts now|px py|lvl now dn| |lvl now dn code|idx lvl now]; simpl.
  - right; left. reflexivity.
  - rewrite animationLoop_unfold.
    destruct (finishFrame_frame ts now (frameDelta ts s)
                (afterMotion ts now s)) as (_ & _ & _ & _ & [H3|H3]);
      [rewrite H3|left; exact H3].
    destruct (updateActiveBubble_frame now (frameDelta ts s)
                (afterDescent ts s)) as (_ & _ & _ & _ & [H2|H2]);
      [left; exact H2|].
    destruct H2 as (b0 & Hb0 & H2).
    destruct (dropCycle_frame ts (frameStart ts s))
      as (_ & _ & _ & _ & [H1|H1]).
    + right; right; left. exists (frameDelta ts s), b0.
      split; [|exact H2].
      unfold afterDescent in Hb0. rewrite H1 in Hb0. exact Hb0.
    + unfold afterDescent in Hb0. rewrite H1 in Hb0. discriminate.
  - unfold handlePointerMove. destruct (negb (pointerLocked s));
      right; left; reflexivity.
  - unfold handlePointerDown.
    destruct (Hshoot lvl now dn (set_pointerLocked true s)
                eq_refl eq_refl eq_refl) as [H|H];
      [right; left; exact H|right; right; right; exact H].
  - right; left. reflexivity.
  - destruct code; simpl; try (right; left; reflexivity).
    destruct (Hshoot lvl now dn s eq_refl eq_refl eq_refl) as [H|H];
      [right; left; exact H|right; right; right; exact H].
  - left. unfold resetLevelState.
    repeat (destruct (generateInitialGrid _ _)
            || destruct (generateShooterBubble _ _)).
    reflexivity.
Qed.

Lemma reachable_inFlight s b :
  reachable s -> activeBubble s = Some b -> inFlight b.
Proof.
  intros Hreach. revert b.
  induction Hreach as [activeLevel now seed|s i Hreach IH]; intros b Hb.
  - destruct (initialState_invariants activeLevel now seed)
      as (_ & _ & _ & _ & Hnone).
    cbv zeta in Hnone. rewrite Hnone in Hb. discriminate.
  - destruct (reachable_invariants s Hreach) as (Hq & Ha & _).
    destruct (step_activeBubble s i Hq)
      as [H|[H|[(d & b0 & Hb0 & H)|(now & dn & c & s0 & Haim & H)]]];
      rewrite H in Hb.
    + discriminate.
    + apply IH. exact Hb.
    + injection Hb as <-. apply moved_inFlight, IH. exact Hb0.
    + injection Hb as <-. apply launched_inFlight.
      unfold aimInRange. rewrite Haim. exact Ha.
Qed.

Lemma moved_between_walls deltaMs b :
  leftBound <= rightBound ->
  leftBound <= x (moved deltaMs b) <= rightBound.
Proof.
  intros Hwide. unfold moved.
  set (p := integrate deltaMs b).
  destruct (Rle_dec (x p) leftBound) as [Hl|Hl].
  - rewrite bounce_outside by (left; exact Hl). simpl.
    apply clamp_range. exact Hwide.
  - destruct (Rle_dec rightBound (x p)) as [Hr|Hr].
    + rewrite bounce_outside by (right; exact Hr). simpl.
      apply clamp_range. exact Hwide.
    + rewrite bounce_inside by lra. lra.
Qed.

Lemma launched_between_walls now dateNow c s :
  leftBound <= rightBound ->
  leftBound <= x (launched now dateNow c s) <= rightBound.
Proof. unfold leftBound, rightBound. simpl. intros H. lra. Qed.


(** X: direction of flight. *)
(** X1.  In every state the component can reach, the projectile in flight
    has the direction of an angle of the aim range, with [dx] mirrored or
    not: the launch sets [dx] and [dy] to the cosine and the sine of the aim
    angle and a wall bounce only negates [dx].  So it moves up ([dy < 0])
    and its [dx] lies strictly between -1 and 1.  Its speed is at most
    740. *)
Theorem projectile_keeps_upward_direction s b :
  reachable s -> activeBubble s = Some b ->
  (exists angle,
     aimAngleMin <= angle <= aimAngleMax
     /\ dy b = sin angle /\ (dx b = cos angle \/ dx b = - cos angle))
  /\ dy b < 0 /\ -1 < dx b < 1 /\ speed b <= 740.
Proof.
  intros Hreach Hb.
  destruct (reachable_inFlight s b Hreach Hb)
    as ((angle & Ha & Hdy & Hdx) & Hsp).
  pose proof (sin_negative_in_range angle Ha) as Hneg.
  pose proof (sin2_cos2 angle) as Hunit. unfold Rsqr in Hunit.
  split; [exists angle; repeat split; assumption || apply Ha|].
  split; [lra|]. split; [|exact Hsp].
  destruct Hdx as [-> | ->]; nra.
Qed.

(** X2.  When the left bound is not to the right of the right bound, the
    projectile of every reachable state lies between the two bounds. *)
Theorem projectile_stays_between_walls s b :
  leftBound <= rightBound ->
  reachable s -> activeBubble s = Some b ->
  leftBound <= x b <= rightBound.
Proof.
  intros Hwide Hreach. revert b.
  induction Hreach as [activeLevel now seed|s i Hreach IH]; intros b Hb.
  - destruct (initialState_invariants activeLevel now seed)
      as (_ & _ & _ & _ & Hnone).
    cbv zeta in Hnone. rewrite Hnone in Hb. discriminate.
  - destruct (reachable_invariants s Hreach) as (Hq & _ & _).
    destruct (step_activeBubble s i Hq)
      as [H|[H|[(d & b0 & Hb0 & H)|(now & dn & c & s0 & Haim & H)]]];
      rewrite H in Hb.
    + discriminate.
    + apply IH. exact Hb.
    + injection Hb as <-. apply moved_between_walls. exact Hwide.
    + injection Hb as <-. apply launched_between_walls. exact Hwide.
Qed.

(** X3.  A projectile that moves up with positive speed and is still in
    flight after a projectile step of positive length is strictly higher
    than before, still below the ceiling line, and has kept [dy] and its
    speed. *)
Theorem flying_projectile_rises now deltaMs s b0 b' :
  activeBubble s = Some b0 -> dy b0 < 0 ->
  0 < deltaMs -> 0 < speed b0 ->
  activeBubble (updateActiveBubble now deltaMs s) = Some b' ->
  y b' < y b0 /\ ceilingLine < y b' /\ dy b' = dy b0 /\ speed b' = speed b0.
Proof.
  intros Hb Hdy Hd Hsp Hb'.
  destruct (updateActiveBubble_outcome now deltaMs s b0 Hb)
    as [(_ & Hnone & _)|(Hs & Hsome & _)]; [congruence|].
  rewrite Hsome in Hb'. injection Hb' as <-.
  destruct (moved_fields deltaMs b0) as (_ & Hdy' & Hsp' & Hy & _).
  unfold stops in Hs. apply orb_false_iff in Hs. destruct Hs as [Hc _].
  unfold atCeiling in Hc. apply leb_false in Hc.
  split; [|split; [exact Hc|split; assumption]].
  rewrite Hy. assert (0 < speed b0 * (deltaMs / 1000)) by nra. nra.
Qed.

(** The state after [n] projectile steps of the same length. *)
Lemma flight_after n now deltaMs s b0 :
  activeBubble s = Some b0 ->
  let sn := Nat.iter n (updateActiveBubble now deltaMs) s in
  activeBubble sn = None
  \/ exists b,
       activeBubble sn = Some b
       /\ dy b = dy b0 /\ speed b = speed b0
       /\ y b = y b0 + INR n * (dy b0 * speed b0 * (deltaMs / 1000))
       /\ (n <> 0%nat -> ceilingLine < y b).
Proof.
  intros Hb. induction n as [|n IH].
  - right. exists b0. split; [exact Hb|]. split; [reflexivity|].
    split; [reflexivity|]. split; [simpl; lra|]. intros H. contradiction.
  - change (Nat.iter (S n) (updateActiveBubble now deltaMs) s)
      with (updateActiveBubble now deltaMs
              (Nat.iter n (updateActiveBubble now deltaMs) s)).
    cbv zeta in IH |- *.
    set (sn := Nat.iter n (updateActiveBubble now deltaMs) s) in *.
    destruct IH as [Hnone|(b & Hbn & Hdy & Hsp & Hy & _)].
    + left. rewrite updateActiveBubble_idle by exact Hnone. exact Hnone.
    + destruct (updateActiveBubble_outcome now deltaMs sn b Hbn)
        as [(_ & Hnone & _)|(Hs & Hsome & _)]; [left; exact Hnone|].
      right. exists (moved deltaMs b).
      destruct (moved_fields deltaMs b) as (_ & Hdy' & Hsp' & Hy' & _).
      split; [exact Hsome|]. split; [congruence|]. split; [congruence|].
      split.
      * rewrite Hy', Hy, Hdy, Hsp, S_INR. lra.
      * intros _. unfold stops in Hs. apply orb_false_iff in Hs.
        destruct Hs as [Hc _]. unfold atCeiling in Hc.
        apply leb_false in Hc. exact Hc.
Qed.

(** X4.  No projectile flies forever: when it moves up with positive speed
    and [n + 1] projectile steps of the same positive length cover its
    height above the ceiling line, the ref is empty after those steps. *)
Theorem projectile_lands_within_bound n now deltaMs s b0 :
  activeBubble s = Some b0 ->
  dy b0 < 0 -> 0 < speed b0 -> 0 < deltaMs ->
  y b0 - ceilingLine
  <= INR (S n) * (- dy b0 * speed b0 * (deltaMs / 1000)) ->
  activeBubble (Nat.iter (S n) (updateActiveBubble now deltaMs) s) = None.
Proof.
  intros Hb Hdy Hsp Hd Hfar.
  destruct (flight_after (S n) now deltaMs s b0 Hb)
    as [Hnone|(b & _ & _ & _ & Hy & Hc)]; [exact Hnone|].
  specialize (Hc ltac:(discriminate)). exfalso. lra.
Qed.

End FlightFacts.

Section EffectFacts.

Context {U : GameUtils}.

Lemma interval_frozen timestamp s f :
  freezeUntil s = Some f -> f <> 0 ->
  interval timestamp s =
  if timestamp <? f then descentInterval (level (runtime s)) * 1.65
  else descentInterval (level (runtime s)).
Proof.
  intros Hf Hnz. unfold interval, frozen. rewrite Hf.
  apply truthy_true in Hnz. rewrite Hnz. reflexivity.
Qed.

(** X5.  Firing a freeze bubble arms the freeze timer at launch, not at
    landing: from then on the descent interval is 1.65 times the level's
    until 5000 ms after the launch, and the level's interval again from that
    time on. *)
Theorem fired_freeze_slows_descent activeLevel now dateNow s c1 c2 :
  rejects s = false -> nextQueue s = [c1; c2] -> cand_type c1 = freeze ->
  now + 5000 <> 0 ->
  let s' := performShoot activeLevel now dateNow s in
  freezeUntil s' = Some (now + 5000)
  /\ (forall timestamp, timestamp < now + 5000 ->
        interval timestamp s' = descentInterval (level (runtime s)) * 1.65)
  /\ (forall timestamp, now + 5000 <= timestamp ->
        interval timestamp s' = descentInterval (level (runtime s))).
Proof.
  intros Hrej Hq Hfreeze Hnz. cbv zeta.
  assert (Hf : freezeUntil (performShoot activeLevel now dateNow s) =
               Some (now + 5000)).
  { unfold rejects in Hrej. unfold performShoot.
    destruct (cleared (runtime s) || (lives (runtime s) <=? 0));
      [discriminate|].
    destruct (activeBubble s); [discriminate|].
    destruct (activateNextBubble_pair activeLevel s c1 c2 Hq) as [Hhd _].
    destruct (activateNextBubble activeLevel s) as [shooter s1].
    simpl in Hhd. subst shooter. rewrite Hfreeze. reflexivity. }
  destruct (performShoot_accepted activeLevel now dateNow s c1 c2 Hrej Hq)
    as (_ & _ & _ & _ & Hrt & _).
  split; [exact Hf|]. split; intros timestamp Ht;
    rewrite (interval_frozen timestamp _ _ Hf Hnz), Hrt.
  - apply ltb_true in Ht. rewrite Ht. reflexivity.
  - apply ltb_false in Ht. rewrite Ht. reflexivity.
Qed.

Lemma triggerSpecials_freezeUntil now cells : forall s,
  freezeUntil
    (fold_left (fun st cell => triggerSpecialEffect now (cell_type cell) st)
       cells s) =
  if existsb isFreeze cells then Some (now + 5000) else freezeUntil s.
Proof.
  induction cells as [|c cells IH]; intros s; simpl; [reflexivity|].
  rewrite IH. unfold isFreeze at 2.
  destruct (cell_type c); simpl; destruct (existsb isFreeze cells);
    reflexivity.
Qed.

Lemma triggerSpecials_aimBoostUntil now cells : forall s,
  aimBoostUntil
    (fold_left (fun st cell => triggerSpecialEffect now (cell_type cell) st)
       cells s) =
  if existsb isAim cells then Some (now + 7000) else aimBoostUntil s.
Proof.
  induction cells as [|c cells IH]; intros s; simpl; [reflexivity|].
  rewrite IH. unfold isAim at 2.
  destruct (cell_type c); simpl; destruct (existsb isAim cells);
    reflexivity.
Qed.

(** [resolveLanding] in terms of the match it computes. *)
Lemma resolveLanding_unfold now b s :
  resolveLanding now b s =
  let m := landingMatch s b in
  let s0 := logEvent (Landed b) s in
  let s1 :=
    if (0 <? length (removed m))%nat
    then set_rng (snd (Math_random (rng s0))) (set_grid (landedGrid s b) s0)
    else set_grid (landedGrid s b) s0 in
  let s2 :=
    handleMatchResults (INR (length (removed m) + length (floating m)))
      (comboBonus m) s1 in
  let s3 :=
    fold_left (fun st cell => triggerSpecialEffect now (cell_type cell) st)
      (triggeredSpecials m) s2 in
  if gridCleared (grid s3)
  then set_runtime (with_cleared true (runtime s3)) s3
  else s3.
Proof.
  unfold resolveLanding, landingMatch, landedGrid. simpl.
  destruct (placeBubbleOnGrid (grid s) b) as [[g row] col].
  destruct (computeMatchResult g row col) as [m g']. reflexivity.
Qed.

(** X6.  A landing arms the freeze timer (5000 ms) exactly when a freeze
    cell is among the triggered specials of its match, and the aim timer
    (7000 ms) exactly when an aim cell is; otherwise the timer is kept.  The
    level is marked cleared when the grid that the match leaves is cleared,
    and a cleared mark is never taken back by a landing. *)
Theorem landing_sets_effect_timers now b s :
  let m := landingMatch s b in
  let s' := resolveLanding now b s in
  freezeUntil s' =
    (if existsb isFreeze (triggeredSpecials m) then Some (now + 5000)
     else freezeUntil s)
  /\ aimBoostUntil s' =
    (if existsb isAim (triggeredSpecials m) then Some (now + 7000)
     else aimBoostUntil s)
  /\ grid s' = landedGrid s b
  /\ (cleared (runtime s') = true <->
      gridCleared (landedGrid s b) = true \/ cleared (runtime s) = true).
Proof.
  cbv zeta. rewrite resolveLanding_unfold. cbv zeta.
  set (m := landingMatch s b).
  set (s1 := if (0 <? length (removed m))%nat then _ else _).
  set (s2 := handleMatchResults _ _ s1).
  set (s3 := fold_left _ _ s2).
  assert (H1 : freezeUntil s1 = freezeUntil s
               /\ aimBoostUntil s1 = aimBoostUntil s
               /\ grid s1 = landedGrid s b
               /\ cleared (runtime s1) = cleared (runtime s))
    by (subst s1; destruct (0 <? length (removed m))%nat; repeat split).
  destruct H1 as (Hf1 & Ha1 & Hg1 & Hc1).
  assert (H2 : freezeUntil s2 = freezeUntil s1
               /\ aimBoostUntil s2 = aimBoostUntil s1
               /\ grid s2 = grid s1
               /\ cleared (runtime s2) = cleared (runtime s1))
    by (subst s2; unfold handleMatchResults; destruct (_ >? 0);
        repeat split).
  destruct H2 as (Hf2 & Ha2 & Hg2 & Hc2).
  destruct (triggerSpecials_timers now (triggeredSpecials m) s2)
    as (Hrt3 & Hg3 & _).
  fold s3 in Hrt3, Hg3.
  assert (Hf3 : freezeUntil s3 =
                if existsb isFreeze (triggeredSpecials m)
                then Some (now + 5000) else freezeUntil s)
    by (subst s3; rewrite triggerSpecials_freezeUntil, Hf2, Hf1;
        reflexivity).
  assert (Ha3 : aimBoostUntil s3 =
                if existsb isAim (triggeredSpecials m)
                then Some (now + 7000) else aimBoostUntil s)
    by (subst s3; rewrite triggerSpecials_aimBoostUntil, Ha2, Ha1;
        reflexivity).
  assert (Hg : grid s3 = landedGrid s b) by congruence.
  assert (Hc : cleared (runtime s3) = cleared (runtime s)) by congruence.
  rewrite Hg.
  destruct (gridCleared (landedGrid s b)) eqn:Hclear; simpl.
  - rewrite Hf3, Ha3, Hg. repeat split; auto.
  - rewrite Hf3, Ha3, Hg, Hc. repeat split; auto.
    intros [H|H]; [discriminate|exact H].
Qed.

Lemma handleMatchResults_score removedCount bonus s :
  score (runtime (handleMatchResults removedCount bonus s)) =
  if removedCount >? 0 then
    score (runtime s) + (removedCount * 80
      + bonus * clamp (combo (runtime s) + 1) 1 MAX_COMBO_MULTIPLIER * 10
      + (if removedCount >=? 6 then 150 else 0))
  else score (runtime s).
Proof.
  unfold handleMatchResults. destruct (removedCount >? 0); reflexivity.
Qed.

(** X7.  With a combo bonus that is not negative, a landing adds at least 80
    to the score for every removed or floating cell, at least 150 more from
    six cells on, nothing when no cell went, and exactly 80 a cell when the
    bonus is zero and fewer than six cells went. *)
Theorem landing_score_gain now b s :
  let m := landingMatch s b in
  let popped := INR (length (removed m) + length (floating m)) in
  let s' := resolveLanding now b s in
  0 <= comboBonus m ->
  score (runtime s) + popped * 80 <= score (runtime s')
  /\ (6 <= popped ->
      score (runtime s) + popped * 80 + 150 <= score (runtime s'))
  /\ (popped = 0 -> score (runtime s') = score (runtime s))
  /\ (comboBonus m = 0 -> popped < 6 ->
      score (runtime s') = score (runtime s) + popped * 80).
Proof.
  cbv zeta. intros Hbonus. rewrite resolveLanding_unfold. cbv zeta.
  set (m := landingMatch s b) in *.
  set (popped := INR (length (removed m) + length (floating m))).
  set (s1 := if (0 <? length (removed m))%nat then _ else _).
  set (s2 := handleMatchResults _ _ s1).
  set (s3 := fold_left _ _ s2).
  assert (H1 : runtime s1 = runtime s)
    by (subst s1; destruct (0 <? length (removed m))%nat; reflexivity).
  destruct (triggerSpecials_timers now (triggeredSpecials m) s2)
    as (Hrt3 & _).
  fold s3 in Hrt3.
  assert (Hscore : score (runtime (if gridCleared (grid s3)
                           then set_runtime
                                  (with_cleared true (runtime s3)) s3
                           else s3)) = score (runtime s2))
    by (destruct (gridCleared (grid s3)); simpl; rewrite Hrt3; reflexivity).
  rewrite Hscore. subst s2. rewrite handleMatchResults_score, H1.
  fold popped.
  assert (Hpos : 0 <= popped) by apply pos_INR.
  pose proof (clamp_range (combo (runtime s) + 1) 1 MAX_COMBO_MULTIPLIER)
    as Hc.
  unfold MAX_COMBO_MULTIPLIER in *. specialize (Hc ltac:(lra)).
  set (c := clamp (combo (runtime s) + 1) 1 8) in *.
  assert (Hprod : 0 <= comboBonus m * c * 10) by nra.
  destruct (popped >? 0) eqn:Hgt.
  - apply gtb_true in Hgt. destruct (popped >=? 6) eqn:H6.
    + apply geb_true in H6. repeat split; intros; try lra.
    + apply geb_false in H6. repeat split; intros; try lra.
      match goal with H : comboBonus m = 0 |- _ => rewrite H end. lra.
  - apply gtb_false in Hgt. repeat split; intros; lra.
Qed.

(** X8.  [loseLife] on the last life takes that life, leaves the level not
    cleared and the ref empty, and every later fire request changes
    nothing. *)
Theorem last_life_ends_firing s :
  lives (runtime s) <= 1 ->
  let s1 := loseLife s in
  lives (runtime s1) = lives (runtime s) - 1
  /\ cleared (runtime s1) = false
  /\ activeBubble s1 = None
  /\ (forall activeLevel now dateNow,
        performShoot activeLevel now dateNow s1 = s1).
Proof.
  intros Hlast. cbv zeta.
  destruct (loseLife_frame s) as (Hab & _ & _ & _ & Hl & _).
  assert (Hcl : cleared (runtime (loseLife s)) = false).
  { unfold loseLife. simpl.
    destruct (generateInitialGrid _ _) as [g seed]. simpl.
    assert (Hz : (lives (runtime s) - 1 <=? 0) = true)
      by (apply leb_true; lra).
    rewrite Hz. reflexivity. }
  split; [exact Hl|]. split; [exact Hcl|]. split; [exact Hab|].
  intros activeLevel now dateNow. apply performShoot_rejected.
  apply rejects_iff. right; left. rewrite Hl. lra.
Qed.

(** X9.  Whatever the state, [resetLevelState] gives three lives, combo 1,
    no cleared mark, no shots, no effect timers, the level's time limit and
    the score of before (zero when the captured level index is 0); the pointer
    lock is kept, the next frame has delta 0, and the next fire request is
    accepted and launches straight up. *)
Theorem reset_makes_level_playable levelIndex lvl now activeLevel now'
  dateNow timestamp s :
  let s' := resetLevelState levelIndex lvl now s in
  lives (runtime s') = 3 /\ combo (runtime s') = 1
  /\ cleared (runtime s') = false
  /\ score (runtime s') =
     (if (levelIndex =? 0)%nat then 0 else score (runtime s))
  /\ timeLeft (runtime s') = timeLimitSeconds lvl
  /\ lastDropAt (runtime s') = now
  /\ shots s' = 0 /\ freezeUntil s' = None /\ aimBoostUntil s' = None
  /\ pointerLocked s' = pointerLocked s
  /\ frameDelta timestamp s' = 0
  /\ (exists b,
        activeBubble (performShoot activeLevel now' dateNow s') = Some b
        /\ dy b = -1 /\ shots (performShoot activeLevel now' dateNow s') = 1).
Proof.
  cbv zeta.
  assert (Hq : exists c1 c2,
            nextQueue (resetLevelState levelIndex lvl now s) = [c1; c2]).
  { unfold resetLevelState.
    repeat (destruct (generateInitialGrid _ _)
            || destruct (generateShooterBubble _ _)).
    eexists _, _. reflexivity. }
  destruct Hq as (c1 & c2 & Hq).
  assert (Hfields :
    let s' := resetLevelState levelIndex lvl now s in
    lives (runtime s') = 3 /\ combo (runtime s') = 1
    /\ cleared (runtime s') = false
    /\ score (runtime s') =
       (if (levelIndex =? 0)%nat then 0 else score (runtime s))
    /\ timeLeft (runtime s') = timeLimitSeconds lvl
    /\ lastDropAt (runtime s') = now
    /\ shots s' = 0 /\ freezeUntil s' = None /\ aimBoostUntil s' = None
    /\ pointerLocked s' = pointerLocked s
    /\ lastFrame s' = None /\ activeBubble s' = None
    /\ aimAngle s' = - PI / 2).
  { unfold resetLevelState.
    repeat (destruct (generateInitialGrid _ _)
            || destruct (generateShooterBubble _ _)).
    simpl. repeat split. }
  cbv zeta in Hfields.
  destruct Hfields as (Hl & Hc & Hcl & Hsc & Htl & Hld & Hsh & Hfr & Hab
                       & Hpl & Hlf & Hnone & Haim).
  set (s' := resetLevelState levelIndex lvl now s) in *.
  assert (Hrej : rejects s' = false).
  { unfold rejects. rewrite Hcl, Hnone, Hl.
    assert (Hz : (3 <=? 0) = false) by (apply leb_false; lra).
    rewrite Hz. reflexivity. }
  destruct (performShoot_accepted activeLevel now' dateNow s' c1 c2 Hrej Hq)
    as (Hb & Hshots & _).
  repeat (split; [assumption|]).
  split; [unfold frameDelta; rewrite Hlf; lra|].
  eexists. split; [exact Hb|]. split.
  - simpl. rewrite Haim.
    replace (- PI / 2) with (- (PI / 2)) by lra.
    rewrite sin_neg, sin_PI2. reflexivity.
  - rewrite Hshots, Hsh. lra.
Qed.

End EffectFacts.

Section TimingFacts.

Context {U : GameUtils}.

Lemma loseLife_runtime s :
  timeLeft (runtime (loseLife s)) = timeLeft (runtime s)
  /\ score (runtime (loseLife s)) = score (runtime s).
Proof.
  unfold loseLife. simpl. destruct (generateInitialGrid _ _) as [g seed].
  simpl. destruct (lives (runtime s) - 1 <=? 0); split; reflexivity.
Qed.

Lemma applyTimeLimit_expired now delta s limit :
  timeLimitSeconds (level (runtime s)) = Some limit ->
  JS.orElse (timeLeft (runtime s)) 0 - delta / 1000 <= 0 ->
  let s' := applyTimeLimit now delta s in
  timeLeft (runtime s') = Some 0
  /\ lives (runtime s') = lives (runtime s) - 1
  /\ level (runtime s') = level (runtime s).
Proof.
  intros Hlimit Hout. cbv zeta. unfold applyTimeLimit. rewrite Hlimit.
  apply leb_true in Hout. rewrite Hout. simpl. repeat split.
Qed.

(** X10.  On a level with a time limit [applyTimeLimit] leaves a time that
    is not negative.  While time remains it only lowers the time left by the
    frame delta in seconds.  When none remains the time left is 0, exactly
    one life is lost, the last-drop time is the clock reading and the
    cleared flag is the one of before, also at zero lives. *)
Theorem time_limit_counts_down now delta s limit :
  timeLimitSeconds (level (runtime s)) = Some limit ->
  let remaining := JS.orElse (timeLeft (runtime s)) 0 - delta / 1000 in
  let s' := applyTimeLimit now delta s in
  (exists t, timeLeft (runtime s') = Some t /\ 0 <= t)
  /\ level (runtime s') = level (runtime s)
  /\ (0 < remaining ->
      s' = set_runtime (with_timeLeft (Some remaining) (runtime s)) s)
  /\ (remaining <= 0 ->
      timeLeft (runtime s') = Some 0
      /\ lives (runtime s') = lives (runtime s) - 1
      /\ combo (runtime s') = 1
      /\ lastDropAt (runtime s') = now
      /\ cleared (runtime s') = cleared (runtime s)
      /\ activeBubble s' = None
      /\ newEvents s s' = [LifeLost]).
Proof.
  intros Hlimit. cbv zeta. unfold applyTimeLimit. rewrite Hlimit.
  set (remaining := JS.orElse (timeLeft (runtime s)) 0 - delta / 1000).
  destruct (remaining <=? 0) eqn:Hr.
  - apply leb_true in Hr.
    match goal with |- context [loseLife ?t] =>
      pose proof (loseLife_frame t) as H; cbv zeta in H; simpl in H end.
    destruct H as (Hab & _ & _ & Hh & _).
    simpl. split; [exists 0; split; [reflexivity|lra]|].
    split; [reflexivity|]. split; [intros; lra|]. intros _.
    repeat split; try assumption.
    apply newEvents_app. exact Hh.
  - apply leb_false in Hr. simpl.
    split; [exists remaining; split; [reflexivity|lra]|].
    split; [reflexivity|]. split; [reflexivity|]. intros; lra.
Qed.

(** X11.  Losing a life does not re-arm the timer: once the time left is 0
    on a level with a time limit, each further [applyTimeLimit] with a delta
    that is not negative costs one more life, so [n] calls cost [n]
    lives. *)
Theorem expired_timer_costs_a_life_per_call n now delta s limit :
  timeLimitSeconds (level (runtime s)) = Some limit ->
  timeLeft (runtime s) = Some 0 -> 0 <= delta ->
  let sn := Nat.iter n (applyTimeLimit now delta) s in
  lives (runtime sn) = lives (runtime s) - INR n
  /\ timeLeft (runtime sn) = Some 0
  /\ level (runtime sn) = level (runtime s).
Proof.
  intros Hlimit Hzero Hdelta. induction n as [|n IH].
  - simpl. repeat split; [lra|exact Hzero].
  - change (Nat.iter (S n) (applyTimeLimit now delta) s)
      with (applyTimeLimit now delta
              (Nat.iter n (applyTimeLimit now delta) s)).
    cbv zeta in IH |- *.
    set (sn := Nat.iter n (applyTimeLimit now delta) s) in *.
    destruct IH as (Hl & Ht & Hv).
    assert (Hlimit' : timeLimitSeconds (level (runtime sn)) = Some limit)
      by (rewrite Hv; exact Hlimit).
    assert (Hout : JS.orElse (timeLeft (runtime sn)) 0 - delta / 1000 <= 0)
      by (rewrite Ht; simpl; assert (0 <= delta / 1000) by lra; lra).
    destruct (applyTimeLimit_expired now delta sn limit Hlimit' Hout)
      as (Ht' & Hl' & Hv').
    rewrite Hl', Hl, Hv', Hv, S_INR. repeat split; [lra|exact Ht'].
Qed.

(** X12.  After a row drop at [timestamp], [dropCycle] does nothing at any
    time that is less than the level's descent interval later, frozen or
    not (for an interval that is not negative). *)
Theorem drops_are_an_interval_apart timestamp later s :
  dropDue timestamp s = true ->
  0 <= descentInterval (level (runtime s)) ->
  later - timestamp < descentInterval (level (runtime s)) ->
  dropCycle later (dropCycle timestamp s) = dropCycle timestamp s.
Proof.
  intros Hdue Hpos Hsoon.
  set (s1 := dropCycle timestamp s).
  assert (H1 : lastDropAt (runtime s1) = timestamp
               /\ level (runtime s1) = level (runtime s)).
  { subst s1. destruct (dropBreaches s) eqn:Hb.
    - destruct (dropCycle_breach timestamp s Hdue Hb)
        as (_ & _ & _ & Hlast & Hv & _).
      split; assumption.
    - destruct (dropCycle_safe timestamp s Hdue Hb) as (_ & Hrt & _).
      rewrite Hrt. split; reflexivity. }
  destruct H1 as (Hlast & Hv).
  apply dropCycle_idle. unfold dropDue. apply geb_false.
  rewrite Hlast. unfold interval. rewrite Hv.
  destruct (frozen later s1); lra.
Qed.

End TimingFacts.

Lemma getIndex_setIndex_same i v : forall arr,
  JS.getIndex i (JS.setIndex i v arr) = Some v.
Proof.
  unfold JS.getIndex.
  induction i as [|i IH]; intros [|a arr]; simpl; try reflexivity; apply IH.
Qed.

Lemma getIndex_setIndex_other i j v : forall arr,
  i <> j -> JS.getIndex j (JS.setIndex i v arr) = JS.getIndex j arr.
Proof.
  unfold JS.getIndex. revert j.
  induction i as [|i IH]; intros [|j] [|a arr] Hij; simpl;
    try reflexivity; try contradiction.
  - destruct j; reflexivity.
  - rewrite IH by congruence. destruct j; reflexivity.
  - apply IH. congruence.
Qed.

Lemma length_setIndex i v : forall arr,
  length (JS.setIndex i v arr) = Nat.max (length arr) (S i).
Proof.
  induction i as [|i IH]; intros [|a arr]; simpl; try reflexivity.
  - destruct (length arr); reflexivity.
  - rewrite IH. reflexivity.
  - rewrite IH. reflexivity.
Qed.

Section InputFacts.

Context {U : GameUtils}.

Lemma waveOffset_bound timestamp amplitude spd row :
  Rabs (waveOffset timestamp amplitude spd row) <= Rabs amplitude.
Proof.
  unfold waveOffset. rewrite !Rabs_mult.
  pose proof (SIN_bound (timestamp / (900 / spd) + INR row)) as [Hlo Hhi].
  assert (Hs : Rabs (sin (timestamp / (900 / spd) + INR row)) <= 1)
    by (apply Rabs_le; lra).
  assert (Hp : Rabs (if Nat.even row then 1 else -1) = 1).
  { destruct (Nat.even row); unfold Rabs; destruct (Rcase_abs _); lra. }
  rewrite Hp. pose proof (Rabs_pos amplitude).
  pose proof (Rabs_pos (sin (timestamp / (900 / spd) + INR row))). nra.
Qed.

Lemma wave_fold timestamp amplitude spd rows : forall offsets row,
  let offsets' :=
    fold_left
      (fun offs r => JS.setIndex r (waveOffset timestamp amplitude spd r) offs)
      rows offsets in
  (In row rows ->
   JS.getIndex row offsets' = Some (waveOffset timestamp amplitude spd row))
  /\ (~ In row rows -> JS.getIndex row offsets' = JS.getIndex row offsets)
  /\ (length offsets <= length offsets')%nat.
Proof.
  induction rows as [|r rows IH]; intros offsets row; simpl.
  - split; [contradiction|]. split; [reflexivity|lia].
  - destruct (IH (JS.setIndex r (waveOffset timestamp amplitude spd r)
                    offsets) row) as (Hin & Hout & Hlen).
    split; [|split].
    + intros [->|Hrow].
      * destruct (in_dec Nat.eq_dec row rows) as [Hlater|Hlater].
        -- apply Hin. exact Hlater.
        -- rewrite Hout by exact Hlater. apply getIndex_setIndex_same.
      * apply Hin. exact Hrow.
    + intros Hnot. rewrite Hout by tauto.
      apply getIndex_setIndex_other. tauto.
    + rewrite length_setIndex in Hlen. lia.
Qed.

(** X13.  [updateMovingRows] gives every row listed in [movingRows] an
    offset whose absolute value is at most that of the amplitude (20 by
    default), keeps the offset of every other row, never shortens the offset
    array and touches nothing else. *)
Theorem moving_rows_swing_within_amplitude timestamp s :
  let lvl := level (runtime s) in
  let amplitude := JS.orElse (movingAmplitude lvl) 20 in
  let s' := updateMovingRows timestamp s in
  (forall rows row,
     movingRows lvl = Some rows -> In row rows ->
     exists offset,
       JS.getIndex row (rowOffset s') = Some offset
       /\ Rabs offset <= Rabs amplitude)
  /\ (forall row,
        (forall rows, movingRows lvl = Some rows -> ~ In row rows) ->
        JS.getIndex row (rowOffset s') = JS.getIndex row (rowOffset s))
  /\ (length (rowOffset s) <= length (rowOffset s'))%nat
  /\ runtime s' = runtime s /\ grid s' = grid s
  /\ activeBubble s' = activeBubble s.
Proof.
  cbv zeta. unfold updateMovingRows.
  destruct (movingRows (level (runtime s))) as [[|r rows]|] eqn:Hrows.
  - split; [intros ? ? [= <-] []|]. repeat split; lia.
  - set (amplitude := JS.orElse (movingAmplitude (level (runtime s))) 20).
    set (spd := JS.orElse (movingSpeed (level (runtime s))) 1).
    simpl rowOffset.
    change (fold_left _ (r :: rows) (rowOffset s))
      with (fold_left
              (fun offs r0 =>
                 JS.setIndex r0 (waveOffset timestamp amplitude spd r0) offs)
              (r :: rows) (rowOffset s)).
    split; [|split; [|split]].
    + intros rows' row [= <-] Hin.
      destruct (wave_fold timestamp amplitude spd (r :: rows)
                  (rowOffset s) row) as (H & _).
      exists (waveOffset timestamp amplitude spd row).
      split; [apply H; exact Hin|apply waveOffset_bound].
    + intros row Hnot.
      destruct (wave_fold timestamp amplitude spd (r :: rows)
                  (rowOffset s) row) as (_ & H & _).
      apply H. apply (Hnot _ eq_refl).
    + apply (wave_fold timestamp amplitude spd (r :: rows) (rowOffset s) 0).
    + repeat split.
  - split; [intros ? ? [=]|]. repeat split; lia.
Qed.

Lemma triggerSpecials_controls now cells : forall s,
  controls
    (fold_left (fun st cell => triggerSpecialEffect now (cell_type cell) st)
       cells s) = controls s.
Proof.
  induction cells as [|c cells IH]; intros s; simpl; [reflexivity|].
  rewrite IH. destruct (cell_type c); reflexivity.
Qed.

Lemma resolveLanding_controls now b s :
  controls (resolveLanding now b s) = controls s.
Proof.
  unfold resolveLanding.
  destruct (placeBubbleOnGrid _ _) as [[g row] col].
  destruct (computeMatchResult g row col) as [m g'].
  set (s1 := if (0 <? length (removed m))%nat then _ else _).
  assert (H1 : controls s1 = controls s)
    by (subst s1; destruct (0 <? length (removed m))%nat; reflexivity).
  set (s2 := handleMatchResults _ _ s1).
  assert (H2 : controls s2 = controls s1)
    by (subst s2; unfold handleMatchResults; destruct (_ >? 0);
        reflexivity).
  set (s3 := fold_left _ _ s2).
  assert (H3 : controls s3 = controls s2)
    by apply triggerSpecials_controls.
  destruct (gridCleared (grid s3));
    [change (controls (set_runtime ?r s3)) with (controls s3)|];
    congruence.
Qed.

Lemma loseLife_controls s : controls (loseLife s) = controls s.
Proof.
  unfold loseLife. simpl. destruct (generateInitialGrid _ _) as [g seed].
  simpl. destruct (lives (runtime s) - 1 <=? 0); reflexivity.
Qed.

Lemma dropCycle_controls timestamp s :
  controls (dropCycle timestamp s) = controls s.
Proof.
  unfold dropCycle. destruct (dropDue timestamp s); [|reflexivity].
  destruct (dropNewRow _ _ _) as [g seed].
  destruct (gridReachedFailureLine _); [|reflexivity].
  rewrite loseLife_controls. reflexivity.
Qed.

Lemma updateActiveBubble_controls now deltaMs s :
  controls (updateActiveBubble now deltaMs s) = controls s.
Proof.
  unfold updateActiveBubble. destruct (activeBubble s) as [b0|];
    [|reflexivity].
  destruct (atCeiling _).
  - change (controls (set_activeBubble None ?t)) with (controls t).
    rewrite resolveLanding_controls. reflexivity.
  - destruct (firstContact _ _); [|reflexivity].
    change (controls (set_activeBubble None ?t)) with (controls t).
    rewrite resolveLanding_controls. reflexivity.
Qed.

Lemma finishFrame_controls timestamp now delta s :
  controls (finishFrame timestamp now delta s) = controls s.
Proof.
  unfold finishFrame.
  assert (H1 : controls (updateMovingRows timestamp s) = controls s).
  { unfold updateMovingRows.
    destruct (movingRows (level (runtime s))) as [[|r rows]|]; reflexivity. }
  set (s1 := updateMovingRows timestamp s) in *.
  destruct (timeLimitSeconds (level (runtime s1))) eqn:Hlimit;
    [|exact H1].
  unfold applyTimeLimit. rewrite Hlimit.
  destruct (_ <=? 0); [|exact H1].
  change (controls (set_runtime ?r ?t)) with (controls t).
  rewrite loseLife_controls. exact H1.
Qed.

Lemma animationLoop_controls timestamp now s :
  controls (animationLoop timestamp now s) =
  (aimStrength s, Some timestamp, pointerLocked s, shots s).
Proof.
  rewrite animationLoop_unfold, finishFrame_controls.
  unfold afterMotion. rewrite updateActiveBubble_controls.
  unfold afterDescent. rewrite dropCycle_controls. reflexivity.
Qed.

(** X14.  The delta of a frame is the time since the frame before, except
    that a frame at timestamp 0 is forgotten (the next delta is 0) and that
    the first frame after a reset has delta 0.  A frame changes neither the
    aim strength nor the number of shots. *)
Theorem frame_delta_is_time_since_last_frame timestamp now later s :
  frameDelta later (animationLoop timestamp now s) =
  (if JS.truthy timestamp then later - timestamp else 0)
  /\ (lastFrame s = None -> frameDelta timestamp s = 0)
  /\ aimStrength (animationLoop timestamp now s) = aimStrength s
  /\ shots (animationLoop timestamp now s) = shots s.
Proof.
  pose proof (animationLoop_controls timestamp now s) as H.
  unfold controls in H. injection H as Ha Hl _ Hs.
  split; [|split; [|split; assumption]].
  - unfold frameDelta. rewrite Hl.
    destruct (JS.truthy timestamp); [reflexivity|lra].
  - intros Hnone. unfold frameDelta. rewrite Hnone. lra.
Qed.

Lemma performShoot_controls activeLevel now dateNow s :
  aimStrength (performShoot activeLevel now dateNow s) = aimStrength s.
Proof.
  unfold performShoot.
  destruct (cleared (runtime s) || (lives (runtime s) <=? 0));
    [reflexivity|].
  destruct (activeBubble s); [reflexivity|].
  assert (H1 : aimStrength (snd (activateNextBubble activeLevel s)) =
               aimStrength s).
  { unfold activateNextBubble.
    destruct (0 <? length (tl (nextQueue s)))%nat;
      repeat (destruct (generateShooterBubble _ _)); reflexivity. }
  destruct (activateNextBubble activeLevel s) as [[sh|] s1]; simpl in *.
  - destruct (cand_type sh); simpl; exact H1.
  - exact H1.
Qed.

(** X15.  In every state the component can reach the aim strength lies
    between 0.45 and 1.  A pointer move without a pressed pointer changes
    nothing; with a pressed pointer, straight above the shooter it gives
    strength 1, and at 85 percent of the half width or further to a side it
    gives 0.45. *)
Theorem aim_strength_stays_in_range s :
  reachable s ->
  0.45 <= aimStrength s <= 1
  /\ (forall px py,
        pointerLocked s = false -> handlePointerMove px py s = s)
  /\ (forall py,
        pointerLocked s = true -> 0 < width GAME_METRICS ->
        aimStrength (handlePointerMove (width GAME_METRICS / 2) py s) = 1)
  /\ (forall px py,
        pointerLocked s = true -> 0 < width GAME_METRICS ->
        0.85 * (width GAME_METRICS / 2)
        <= Rabs (px - width GAME_METRICS / 2) ->
        aimStrength (handlePointerMove px py s) = 0.45).
Proof.
  intros Hreach. split.
  - induction Hreach as [activeLevel now seed|s i _ IH].
    + unfold initialState.
      repeat (destruct (generateInitialGrid _ _)
              || destruct (generateShooterBubble _ _)).
      simpl. lra.
    + destruct i
        as [seed|ts now|px py|lvl now dn| |lvl now dn code|idx lvl now];
        simpl.
      * exact IH.
      * pose proof (animationLoop_controls ts now s) as H.
        unfold controls in H. injection H as -> _ _ _. exact IH.
      * unfold handlePointerMove. destruct (negb (pointerLocked s));
          [exact IH|]. simpl. apply clamp_range. lra.
      * unfold handlePointerDown. rewrite performShoot_controls. exact IH.
      * exact IH.
      * destruct code; simpl; try exact IH.
        rewrite performShoot_controls. exact IH.
      * unfold resetLevelState.
        repeat (destruct (generateInitialGrid _ _)
                || destruct (generateShooterBubble _ _)).
        simpl. lra.
  - split; [|split].
    + intros px py Hlock. unfold handlePointerMove. rewrite Hlock.
      reflexivity.
    + intros py Hlock Hw. unfold handlePointerMove. rewrite Hlock. simpl.
      replace (width GAME_METRICS / 2 - width GAME_METRICS / 2) with 0
        by lra.
      rewrite Rabs_R0. unfold Rdiv at 1. rewrite Rmult_0_l.
      rewrite Rmin_left by lra. replace (1 - 0) with 1 by lra.
      apply clamp_inside. lra.
    + intros px py Hlock Hw Hfar. unfold handlePointerMove. rewrite Hlock.
      simpl.
      assert (Hq : 0.85 <= Rabs (px - width GAME_METRICS / 2)
                           / (width GAME_METRICS / 2)).
      { set (half := width GAME_METRICS / 2) in *.
        assert (Hhalf : 0 < half) by (unfold half; lra).
        replace 0.85 with (0.85 * half / half) by (field; lra).
        apply Rmult_le_compat_r; [|exact Hfar].
        left. apply Rinv_0_lt_compat. exact Hhalf. }
      rewrite Rmin_right by exact Hq. apply clamp_below; lra.
Qed.

(** X16.  With the aim angle in its range, ArrowLeft lowers it by 0.08 and
    ArrowRight raises it by 0.08 while the result stays in the range, and
    they leave it at the smallest or the largest angle when the result would
    leave the range; either way the new angle is in the range, ArrowLeft
    never raises it and ArrowRight never lowers it, and neither key changes
    anything else. *)
Theorem arrow_keys_step_and_saturate activeLevel now dateNow s :
  aimAngleMin <= aimAngle s <= aimAngleMax ->
  let left := handleKeyDown activeLevel now dateNow ArrowLeft in
  let right := handleKeyDown activeLevel now dateNow ArrowRight in
  (aimAngleMin <= aimAngle s - 0.08 ->
   aimAngle (left s) = aimAngle s - 0.08)
  /\ (aimAngle s + 0.08 <= aimAngleMax ->
      aimAngle (right s) = aimAngle s + 0.08)
  /\ (aimAngle s - 0.08 <= aimAngleMin -> aimAngle (left s) = aimAngleMin)
  /\ (aimAngleMax <= aimAngle s + 0.08 ->
      aimAngle (right s) = aimAngleMax)
  /\ aimAngleMin <= aimAngle (left s) <= aimAngle s
  /\ aimAngle s <= aimAngle (right s) <= aimAngleMax
  /\ left s = set_aimAngle (aimAngle (left s)) s
  /\ right s = set_aimAngle (aimAngle (right s)) s.
Proof.
  intros [Hlo Hhi]. cbv zeta. simpl.
  pose proof aimAngle_bounds_ordered as Hord.
  assert (Hleft : aimAngleMin
                  <= clamp (aimAngle s - 0.08) aimAngleMin aimAngleMax
                  <= aimAngle s).
  { destruct (Rle_dec aimAngleMin (aimAngle s - 0.08)) as [H|H].
    - rewrite clamp_inside by lra. lra.
    - rewrite clamp_below by lra. lra. }
  assert (Hright : aimAngle s
                   <= clamp (aimAngle s + 0.08) aimAngleMin aimAngleMax
                   <= aimAngleMax).
  { destruct (Rle_dec (aimAngle s + 0.08) aimAngleMax) as [H|H].
    - rewrite clamp_inside by lra. lra.
    - rewrite clamp_above by lra. lra. }
  split; [|split; [|split; [|split; [|split; [|split; [|split]]]]]].
  - intros Hroom. apply clamp_inside. lra.
  - intros Hroom. apply clamp_inside. lra.
  - intros Hnear. apply clamp_below; lra.
  - intros Hnear. apply clamp_above; lra.
  - exact Hleft.
  - exact Hright.
  - reflexivity.
  - reflexivity.
Qed.

End InputFacts.

(** * Properties of the display functions *)

Section DisplayFacts.

Import String.StringSyntax.
Local Open Scope string_scope.
Local Open Scope list_scope.
Local Open Scope R_scope.

Lemma numEq_true a b : numEq a b = true <-> a = b.
Proof.
  unfold numEq. destruct (Req_dec_T a b); split; intros; auto;
    try discriminate; contradiction.
Qed.

Lemma numEq_refl a : numEq a a = true.
Proof. apply numEq_true. reflexivity. Qed.

Lemma computeStarRating_cases score shots livesLeft difficulty lvl :
  let r := computeStarRating score shots livesLeft difficulty lvl in
  let sn := scoreNorm score livesLeft difficulty in
  let acc := accuracy score shots in
  (r = 3 /\ 8000 + levelNumber lvl * 340 <= sn /\ 120 < acc)
  \/ (r = 2 /\ 5500 + levelNumber lvl * 260 <= sn /\ 95 < acc
      /\ ~ (8000 + levelNumber lvl * 340 <= sn /\ 120 < acc))
  \/ (r = 1 /\ 3000 + levelNumber lvl * 160 <= sn
      /\ ~ (8000 + levelNumber lvl * 340 <= sn /\ 120 < acc)
      /\ ~ (5500 + levelNumber lvl * 260 <= sn /\ 95 < acc))
  \/ (r = 0 /\ sn < 3000 + levelNumber lvl * 160
      /\ ~ (8000 + levelNumber lvl * 340 <= sn /\ 120 < acc)
      /\ ~ (5500 + levelNumber lvl * 260 <= sn /\ 95 < acc)).
Proof.
  cbv zeta. unfold computeStarRating, starThresholds.
  fold (scoreNorm score livesLeft difficulty). fold (accuracy score shots).
  set (sn := scoreNorm score livesLeft difficulty).
  set (acc := accuracy score shots).
  destruct (sn >=? 8000 + levelNumber lvl * 340) eqn:H2;
    destruct (acc >? 120) eqn:A2;
    destruct (sn >=? 5500 + levelNumber lvl * 260) eqn:H1;
    destruct (acc >? 95) eqn:A1;
    destruct (sn >=? 3000 + levelNumber lvl * 160) eqn:H0; simpl;
    rewrite ?geb_true, ?geb_false, ?gtb_true, ?gtb_false in *;
    try (left; repeat split; (reflexivity || lra));
    try (right; left; repeat split; try reflexivity; try lra;
         intros [? ?]; lra);
    try (right; right; left; repeat split; try reflexivity; try lra;
         intros [? ?]; lra);
    try (right; right; right; repeat split; try reflexivity; try lra;
         intros [? ?]; lra).
Qed.

(** X17.  [computeStarRating] returns 0, 1, 2 or 3.  Three stars need an
    accuracy above 120 and two or more an accuracy above 95.  More lives
    left never lower the rating.  For a level number that is not negative
    there is at least one star exactly when the normalised score reaches the
    first threshold. *)
Theorem star_rating_properties score shots livesLeft difficulty lvl :
  let r := computeStarRating score shots livesLeft difficulty lvl in
  (r = 0 \/ r = 1 \/ r = 2 \/ r = 3)
  /\ (r = 3 -> 120 < score / Rmax shots 1)
  /\ (2 <= r -> 95 < score / Rmax shots 1)
  /\ (forall more,
        livesLeft <= more ->
        r <= computeStarRating score shots more difficulty lvl)
  /\ (0 <= levelNumber lvl ->
      (1 <= r <->
       3000 + levelNumber lvl * 160
       <= score * difficultyModifier difficulty + livesLeft * 400)).
Proof.
  cbv zeta.
  pose proof (computeStarRating_cases score shots livesLeft difficulty lvl)
    as H.
  cbv zeta in H. unfold scoreNorm, accuracy in H.
  split; [|split; [|split; [|split]]].
  - destruct H as [(-> & _)|[(-> & _)|[(-> & _)|(-> & _)]]]; auto.
  - destruct H as [(-> & _ & Ha)|[(-> & _)|[(-> & _)|(-> & _)]]];
      intros; lra.
  - destruct H as [(-> & _ & Ha)|[(-> & _ & Ha & _)|[(-> & _)|(-> & _)]]];
      intros; lra.
  - intros more Hmore.
    pose proof (computeStarRating_cases score shots more difficulty lvl)
      as H'.
    cbv zeta in H'. unfold scoreNorm, accuracy in H'.
    destruct H as [(-> & ?)|[(-> & ?)|[(-> & ?)|(-> & ?)]]];
      destruct H' as [(-> & ?)|[(-> & ?)|[(-> & ?)|(-> & ?)]]];
      try lra; exfalso; intuition lra.
  - intros Hlevel.
    destruct H as [(-> & ?)|[(-> & ?)|[(-> & ?)|(-> & ?)]]];
      split; intros; try lra; intuition lra.
Qed.

Lemma find_append {A} (f : A -> bool) (l1 l2 : list A) :
  find f (l1 ++ l2) =
  match find f l1 with Some a => Some a | None => find f l2 end.
Proof.
  induction l1 as [|a l1 IH]; simpl; [reflexivity|].
  destruct (f a); [reflexivity|exact IH].
Qed.

(** X18.  After the stars of a level are recorded, [currentLevelStars]
    returns them for that level, the list holds exactly one entry for the
    level, the stars of every other level are as before, and the list grew
    by one entry at most.  With no entry the stars are 0. *)
Theorem recorded_stars_are_found lvl starRating score prev other :
  let stars := recordStars lvl starRating score prev in
  currentLevelStars stars lvl = starRating
  /\ length
       (filter (fun entry => numEq (star_level entry) (levelNumber lvl))
          stars) = 1%nat
  /\ (levelNumber other <> levelNumber lvl ->
      currentLevelStars stars other = currentLevelStars prev other)
  /\ (length stars <= S (length prev))%nat
  /\ currentLevelStars [] lvl = 0.
Proof.
  cbv zeta. unfold recordStars, currentLevelStars.
  set (kept :=
         filter
           (fun entry => negb (numEq (star_level entry) (levelNumber lvl)))
           prev).
  set (isLevel := fun entry => numEq (star_level entry) (levelNumber lvl)).
  assert (Hnone : forall e, In e kept -> isLevel e = false).
  { intros e He. apply filter_In in He. destruct He as [_ He].
    apply negb_true_iff in He. exact He. }
  split; [|split; [|split; [|split]]].
  - rewrite find_append.
    assert (Hf : find isLevel kept = None).
    { destruct (find isLevel kept) as [e|] eqn:Hfind; [|reflexivity].
      apply find_some in Hfind. destruct Hfind as [Hin He].
      rewrite (Hnone e Hin) in He. discriminate. }
    rewrite Hf. simpl. unfold isLevel. simpl. rewrite numEq_refl.
    reflexivity.
  - rewrite filter_app, length_app.
    assert (Hk : filter isLevel kept = []).
    { induction kept as [|e kept' IH]; [reflexivity|]. simpl.
      rewrite (Hnone e) by (left; reflexivity).
      apply IH. intros e' He'. apply Hnone. right. exact He'. }
    rewrite Hk. simpl. unfold isLevel at 1. simpl. rewrite numEq_refl.
    reflexivity.
  - intros Hother.
    set (isOther :=
           fun entry => numEq (star_level entry) (levelNumber other)).
    rewrite find_append.
    assert (Hsame : find isOther kept = find isOther prev).
    { clear Hnone. subst kept.
      induction prev as [|e prev' IH]; [reflexivity|]. simpl.
      fold (isLevel e). destruct (isLevel e) eqn:He; simpl.
      - assert (Ho : isOther e = false).
        { unfold isOther, isLevel in *. apply numEq_true in He.
          destruct (numEq (star_level e) (levelNumber other)) eqn:Hn;
            [|reflexivity].
          apply numEq_true in Hn. congruence. }
        rewrite Ho. exact IH.
      - destruct (isOther e); [reflexivity|exact IH]. }
    rewrite Hsame.
    destruct (find isOther prev) as [e|]; [reflexivity|].
    simpl. unfold isOther at 1. simpl.
    assert (Hn : numEq (levelNumber lvl) (levelNumber other) = false).
    { destruct (numEq (levelNumber lvl) (levelNumber other)) eqn:Hn;
        [|reflexivity].
      apply numEq_true in Hn. congruence. }
    rewrite Hn. reflexivity.
  - rewrite length_app. simpl.
    pose proof (filter_length_le
                  (fun entry =>
                     negb (numEq (star_level entry) (levelNumber lvl)))
                  prev) as Hle.
    fold kept in Hle. lia.
  - reflexivity.
Qed.

Lemma starSummary_fold stars : forall earned total,
  fold_left (fun acc entry => (fst acc + star_stars entry, snd acc + 3))
    stars (earned, total) =
  (earned + fold_right (fun entry sum => star_stars entry + sum) 0 stars,
   total + 3 * INR (length stars)).
Proof.
  induction stars as [|e stars IH]; intros earned total.
  - simpl. f_equal; lra.
  - cbn [fold_left fold_right length fst snd]. rewrite IH, S_INR.
    f_equal; lra.
Qed.

(** X19.  [starSummary] totals three stars for each level up to the
    current one and three more for each entry, and earns the sum of the
    entries.  With every entry between 0 and 3 stars the earned stars cannot
    exceed three per entry, so they stay at least 3 below the total as soon
    as there is a level. *)
Theorem star_summary_totals levelCount levelIndex stars :
  let earned := fst (starSummary levelCount levelIndex stars) in
  let total := snd (starSummary levelCount levelIndex stars) in
  total = Rmin levelCount (levelIndex + 1) * 3 + 3 * INR (length stars)
  /\ earned = fold_right (fun entry sum => star_stars entry + sum) 0 stars
  /\ ((forall entry, In entry stars -> 0 <= star_stars entry <= 3) ->
      0 <= earned <= 3 * INR (length stars)
      /\ (1 <= levelCount -> 0 <= levelIndex -> earned + 3 <= total)).
Proof.
  cbv zeta. unfold starSummary. rewrite starSummary_fold. simpl.
  split; [reflexivity|]. split; [lra|]. intros Hrange.
  assert (Hsum : 0 <= fold_right (fun entry sum => star_stars entry + sum)
                        0 stars <= 3 * INR (length stars)).
  { induction stars as [|e stars IH]; [simpl; lra|].
    cbn [fold_right length]. rewrite S_INR.
    pose proof (Hrange e (or_introl eq_refl)).
    assert (H' : forall entry, In entry stars -> 0 <= star_stars entry <= 3)
      by (intros entry He; apply Hrange; right; exact He).
    specialize (IH H'). lra. }
  split; [lra|]. intros Hcount Hindex.
  assert (1 <= Rmin levelCount (levelIndex + 1))
    by (apply Rmin_glb; lra).
  lra.
Qed.

Lemma filter_all_kept {A} (f : A -> bool) (l : list A) :
  length (filter f l) = length l -> filter f l = l.
Proof.
  induction l as [|a l IH]; simpl; [reflexivity|].
  destruct (f a); simpl; intros H.
  - f_equal. apply IH. lia.
  - pose proof (filter_length_le f l). lia.
Qed.

Lemma pruneEffects_filter now effects :
  pruneEffects now effects =
  filter (fun fx => now - fx_createdAt fx <? fx_duration fx) effects.
Proof.
  unfold pruneEffects.
  destruct (length (filter _ effects) =? length effects)%nat eqn:Hlen;
    simpl; [|reflexivity].
  apply Nat.eqb_eq in Hlen. symmetry. apply filter_all_kept. exact Hlen.
Qed.

(** X20.  [pruneEffects] yields the effects that are younger than their
    duration, in the order they had, although it stores the filtered list
    only when an effect expired: an effect is in the result exactly when it
    was in the list and is younger than its duration, and the result of a
    list followed by another is the result of the first followed by the
    result of the second; pruning twice at the same time is pruning once;
    and the effect of a landing survives a pruning exactly until 420 ms
    after it was created. *)
Theorem prune_keeps_unexpired_effects now effects :
  pruneEffects now effects =
  filter (fun fx => now - fx_createdAt fx <? fx_duration fx) effects
  /\ (forall fx,
        In fx (pruneEffects now effects) <->
        In fx effects /\ now - fx_createdAt fx < fx_duration fx)
  /\ (forall older newer,
        pruneEffects now (older ++ newer) =
        pruneEffects now older ++ pruneEffects now newer)
  /\ pruneEffects now (pruneEffects now effects) = pruneEffects now effects
  /\ (length (pruneEffects now effects) <= length effects)%nat
  /\ (forall created dateNow rnd bubble m,
        In (landingEffect created dateNow rnd bubble m)
          (pruneEffects now
             (addEffect (landingEffect created dateNow rnd bubble m)
                effects))
        <-> now - created < 420).
Proof.
  split; [apply pruneEffects_filter|]. split; [|split; [|split; [|split]]].
  - intros fx. rewrite pruneEffects_filter, filter_In, ltb_true.
    reflexivity.
  - intros older newer. rewrite !pruneEffects_filter. apply filter_app.
  - rewrite !pruneEffects_filter.
    induction effects as [|fx effects IH]; simpl; [reflexivity|].
    destruct (now - fx_createdAt fx <? fx_duration fx) eqn:Hfx; simpl;
      [rewrite Hfx, IH; reflexivity|exact IH].
  - rewrite pruneEffects_filter. apply filter_length_le.
  - intros created dateNow rnd bubble m.
    rewrite pruneEffects_filter, filter_In, ltb_true. unfold addEffect.
    simpl. split; [intros [_ H]; exact H|].
    intros H. split; [|exact H]. apply in_or_app. right. left. reflexivity.
Qed.

Lemma padStart2_length text :
  (2 <= String.length (padStart2 text))%nat
  /\ ((String.length text <= 2)%nat ->
      String.length (padStart2 text) = 2%nat).
Proof.
  unfold padStart2.
  destruct text as [|a [|b text]]; simpl; split; intros; lia.
Qed.

Lemma toString_two_digits z :
  (0 <= z < 100)%Z -> (String.length (toString z) <= 2)%nat.
Proof.
  intros Hz.
  assert (Hall :
    forallb (fun n => (String.length (toString (Z.of_nat n)) <=? 2)%nat)
      (seq 0 100) = true) by (vm_compute; reflexivity).
  rewrite forallb_forall in Hall.
  specialize (Hall (Z.to_nat z)).
  rewrite Z2Nat.id in Hall by lia.
  apply Nat.leb_le, Hall, in_seq. lia.
Qed.

Lemma length_append a b :
  String.length (String.append a b) =
  (String.length a + String.length b)%nat.
Proof.
  induction a as [|c a IH]; simpl; [reflexivity|]. rewrite IH. reflexivity.
Qed.

(** X21.  [formatTime] shows nothing for an undefined time.  Otherwise it
    shows minutes of at least two characters, a colon and seconds of exactly
    two characters; below 6000 seconds the text has five characters; below
    one second, and so for every negative time, it is 00:00; and the
    fraction of a second is dropped. *)
Theorem formatTime_shape t :
  formatTime None = String.EmptyString
  /\ (exists mins secs,
        formatTime (Some t) =
        String.append mins (String.append ":" secs)
        /\ (2 <= String.length mins)%nat /\ String.length secs = 2%nat
        /\ secs = padStart2 (toString (Z.max 0 (Zfloor t) mod 60)))
  /\ (t < 6000 -> String.length (formatTime (Some t)) = 5%nat)
  /\ (t < 1 -> formatTime (Some t) = "00:00")
  /\ (forall n frac,
        t = IZR n + frac -> 0 <= frac < 1 ->
        formatTime (Some t) = formatTime (Some (IZR n))).
Proof.
  split; [reflexivity|].
  pose proof (Zfloor_bound t) as Hfloor.
  assert (Hmod : (0 <= Z.max 0 (Zfloor t) mod 60 < 100)%Z)
    by (pose proof (Z.mod_pos_bound (Z.max 0 (Zfloor t)) 60); lia).
  split; [|split; [|split]].
  - eexists _, _. split; [reflexivity|]. split; [apply padStart2_length|].
    split; [|reflexivity].
    apply padStart2_length, toString_two_digits. exact Hmod.
  - intros Hsmall. unfold formatTime. cbv zeta.
    rewrite !length_append. simpl.
    assert (Hz : (Zfloor t < 6000)%Z).
    { apply lt_IZR. lra. }
    assert (Hdiv : (0 <= Z.max 0 (Zfloor t) / 60 < 100)%Z).
    { split; [apply Z.div_pos; lia|].
      apply Z.div_lt_upper_bound; lia. }
    rewrite (proj2 (padStart2_length _) (toString_two_digits _ Hdiv)).
    rewrite (proj2 (padStart2_length _) (toString_two_digits _ Hmod)).
    reflexivity.
  - intros Hneg. unfold formatTime. cbv zeta.
    assert (Hz : (Zfloor t < 1)%Z) by (apply lt_IZR; lra).
    replace (Z.max 0 (Zfloor t)) with 0%Z by lia. reflexivity.
  - intros n frac -> Hfrac. unfold formatTime.
    rewrite (Zfloor_eq n (IZR n + frac)) by lra.
    rewrite ZfloorZ. reflexivity.
Qed.

End DisplayFacts.

(** * The further properties on the sample engine *)

Section FurtherSampleRuns.

Import String.StringSyntax.
Local Open Scope string_scope.
Local Open Scope list_scope.
Local Open Scope R_scope.

#[local] Existing Instance Sample.utils.

(** [Sample.fired] is reachable and holds the launched projectile. *)
Lemma fired_reachable : reachable Sample.fired.
Proof. apply reachable_step, start_reachable. Qed.

Lemma fired_bubble :
  exists c, activeBubble Sample.fired = Some (launched 10 1 c Sample.start).
Proof.
  destruct (performShoot_accepted Sample.level1 10 1 Sample.start
              _ _ start_accepts eq_refl) as (Hab & _).
  eexists. exact Hab.
Qed.

(** The sample walls are 44 and 468. *)
Lemma sample_walls : leftBound <= rightBound.
Proof. unfold leftBound, rightBound. simpl. lra. Qed.

(** X1 at [Sample.fired]. *)
Lemma projectile_keeps_upward_direction_witness :
  reachable Sample.fired
  /\ exists b, activeBubble Sample.fired = Some b
               /\ dy b < 0 /\ -1 < dx b < 1 /\ speed b <= 740.
Proof.
  split; [exact fired_reachable|].
  destruct fired_bubble as (c & Hb).
  exists (launched 10 1 c Sample.start). split; [exact Hb|].
  apply (projectile_keeps_upward_direction Sample.fired _
           fired_reachable Hb).
Defined.

(** X2 at [Sample.fired]. *)
Lemma projectile_stays_between_walls_witness :
  leftBound <= rightBound /\ reachable Sample.fired
  /\ exists b, activeBubble Sample.fired = Some b
               /\ leftBound <= x b <= rightBound.
Proof.
  split; [exact sample_walls|]. split; [exact fired_reachable|].
  destruct fired_bubble as (c & Hb).
  exists (launched 10 1 c Sample.start). split; [exact Hb|].
  exact (projectile_stays_between_walls Sample.fired _ sample_walls
           fired_reachable Hb).
Defined.

(** The projectile of [Sample.underObstacle] is still in flight after 20 ms. *)
Lemma underObstacle_flies :
  activeBubble (updateActiveBubble 20 20 Sample.underObstacle) =
  Some (moved 20 (Sample.rising 84 72)).
Proof.
  assert (Hpass : updateActiveBubble 20 20 Sample.underObstacle =
                  set_activeBubble (Some (moved 20 (Sample.rising 84 72)))
                    Sample.underObstacle).
  { apply updateActiveBubble_passes.
    - reflexivity.
    - rewrite rising_moved by lra. unfold ceilingLine. simpl. lra.
    - intros row col cell Hcell _.
      exact (underObstacle_all_obstacles row col cell Hcell). }
  rewrite Hpass. reflexivity.
Qed.

(** X3 at [Sample.underObstacle]. *)
Lemma flying_projectile_rises_witness :
  activeBubble Sample.underObstacle = Some (Sample.rising 84 72)
  /\ dy (Sample.rising 84 72) < 0 /\ 0 < 20
  /\ 0 < speed (Sample.rising 84 72)
  /\ y (moved 20 (Sample.rising 84 72)) < y (Sample.rising 84 72).
Proof.
  assert (Hdy : dy (Sample.rising 84 72) < 0) by (simpl; lra).
  assert (Hd : 0 < 20) by lra.
  assert (Hsp : 0 < speed (Sample.rising 84 72)) by (simpl; lra).
  split; [reflexivity|]. split; [exact Hdy|]. split; [exact Hd|].
  split; [exact Hsp|].
  apply (flying_projectile_rises 20 20 Sample.underObstacle
           (Sample.rising 84 72) _ eq_refl Hdy Hd Hsp underObstacle_flies).
Defined.

(** X4 at [Sample.underCeiling]: one step of 20 ms covers the 5 pixels. *)
Lemma projectile_lands_within_bound_witness :
  activeBubble Sample.underCeiling = Some (Sample.rising 200 55)
  /\ activeBubble
       (Nat.iter 1 (updateActiveBubble 120 20) Sample.underCeiling) = None.
Proof.
  split; [reflexivity|].
  apply (projectile_lands_within_bound 0 120 20 Sample.underCeiling
           (Sample.rising 200 55) eq_refl);
    unfold ceilingLine; simpl; lra.
Defined.

(** [Sample.freezeLoaded] accepts a fire request. *)
Lemma freezeLoaded_accepts : rejects Sample.freezeLoaded = false.
Proof. exact start_accepts. Qed.

(** X5 at [Sample.freezeLoaded], fired at time 10 and asked at time 3000. *)
Lemma fired_freeze_slows_descent_witness :
  rejects Sample.freezeLoaded = false
  /\ 10 + 5000 <> 0
  /\ interval 3000
       (performShoot Sample.level1 10 1 Sample.freezeLoaded) =
     descentInterval Sample.level1 * 1.65.
Proof.
  assert (Hnz : 10 + 5000 <> 0) by lra.
  split; [exact freezeLoaded_accepts|]. split; [exact Hnz|].
  destruct (fired_freeze_slows_descent Sample.level1 10 1
              Sample.freezeLoaded _ _ freezeLoaded_accepts eq_refl eq_refl
              Hnz) as (_ & Hslow & _).
  apply Hslow. lra.
Defined.

(** The combo bonus of the sample match engine is a count. *)
Lemma sample_bonus_nonnegative g row col :
  0 <= comboBonus (fst (Sample.computeMatchResult g row col)).
Proof.
  unfold Sample.computeMatchResult.
  destruct (cellAt g row col) as [placed|].
  - cbv beta iota zeta delta [fst comboBonus]. apply pos_INR.
  - cbv beta iota zeta delta [fst comboBonus]. lra.
Qed.

Lemma sample_landing_bonus s b : 0 <= comboBonus (landingMatch s b).
Proof.
  unfold landingMatch.
  destruct (placeBubbleOnGrid (grid s) b) as [[g row] col].
  apply sample_bonus_nonnegative.
Qed.

(** X7 at [Sample.underCeiling]. *)
Lemma landing_score_gain_witness :
  0 <= comboBonus
         (landingMatch Sample.underCeiling (Sample.rising 200 43))
  /\ score (runtime Sample.underCeiling)
     <= score (runtime (resolveLanding 120 (Sample.rising 200 43)
                          Sample.underCeiling)).
Proof.
  pose proof (sample_landing_bonus Sample.underCeiling
                (Sample.rising 200 43)) as Hbonus.
  split; [exact Hbonus|].
  pose proof (landing_score_gain 120 (Sample.rising 200 43)
                Sample.underCeiling) as H.
  cbv zeta in H. destruct (H Hbonus) as (Hgain & _).
  pose proof (pos_INR
                (length (removed (landingMatch Sample.underCeiling
                                    (Sample.rising 200 43)))
                 + length (floating (landingMatch Sample.underCeiling
                                       (Sample.rising 200 43))))).
  lra.
Defined.

(** X8 at [Sample.lastLife]. *)
Lemma last_life_ends_firing_witness :
  lives (runtime Sample.lastLife) <= 1
  /\ performShoot Sample.level1 10 1 (loseLife Sample.lastLife) =
     loseLife Sample.lastLife.
Proof.
  assert (Hlast : lives (runtime Sample.lastLife) <= 1) by (simpl; lra).
  split; [exact Hlast|].
  apply (last_life_ends_firing Sample.lastLife Hlast).
Defined.

(** X10 at [Sample.timed] (time remains) and [Sample.expired] (none). *)
Lemma time_limit_counts_down_witness :
  timeLimitSeconds (level (runtime Sample.timed)) = Some 90
  /\ (0 < JS.orElse (timeLeft (runtime Sample.timed)) 0 - 16 / 1000
      /\ timeLeft (runtime (applyTimeLimit 16 16 Sample.timed)) =
         Some (90 - 16 / 1000))
  /\ (timeLimitSeconds (level (runtime Sample.expired)) = Some 90
      /\ JS.orElse (timeLeft (runtime Sample.expired)) 0 - 16 / 1000 <= 0
      /\ lives (runtime (applyTimeLimit 16 16 Sample.expired)) =
         lives (runtime Sample.expired) - 1).
Proof.
  assert (Hleft : 0 < JS.orElse (timeLeft (runtime Sample.timed)) 0
                      - 16 / 1000) by (simpl; lra).
  assert (Hout : JS.orElse (timeLeft (runtime Sample.expired)) 0
                 - 16 / 1000 <= 0) by (simpl; lra).
  split; [reflexivity|]. split.
  - split; [exact Hleft|].
    destruct (time_limit_counts_down 16 16 Sample.timed 90 eq_refl)
      as (_ & _ & Hrun & _).
    rewrite (Hrun Hleft). reflexivity.
  - split; [reflexivity|]. split; [exact Hout|].
    destruct (time_limit_counts_down 16 16 Sample.expired 90 eq_refl)
      as (_ & _ & _ & Hexp).
    apply (Hexp Hout).
Defined.

(** X11 at [Sample.expired]: three calls, three lives. *)
Lemma expired_timer_costs_a_life_per_call_witness :
  timeLimitSeconds (level (runtime Sample.expired)) = Some 90
  /\ timeLeft (runtime Sample.expired) = Some 0 /\ 0 <= 16
  /\ lives (runtime (Nat.iter 3 (applyTimeLimit 16 16) Sample.expired)) =
     lives (runtime Sample.expired) - INR 3.
Proof.
  assert (Hd : 0 <= 16) by lra.
  split; [reflexivity|]. split; [reflexivity|]. split; [exact Hd|].
  apply (expired_timer_costs_a_life_per_call 3 16 16 Sample.expired 90
           eq_refl eq_refl Hd).
Defined.

(** X12 at [Sample.start]: a drop at 12000, nothing at 20000. *)
Lemma drops_are_an_interval_apart_witness :
  dropDue 12000 Sample.start = true
  /\ 0 <= descentInterval (level (runtime Sample.start))
  /\ 20000 - 12000 < descentInterval (level (runtime Sample.start))
  /\ dropCycle 20000 (dropCycle 12000 Sample.start) =
     dropCycle 12000 Sample.start.
Proof.
  assert (Hpos : 0 <= descentInterval (level (runtime Sample.start)))
    by (simpl; lra).
  assert (Hsoon : 20000 - 12000
                  < descentInterval (level (runtime Sample.start)))
    by (simpl; lra).
  split; [exact start_drop_due|]. split; [exact Hpos|].
  split; [exact Hsoon|].
  exact (drops_are_an_interval_apart 12000 20000 Sample.start
           start_drop_due Hpos Hsoon).
Defined.

(** X13 at [Sample.timed], whose rows 1 and 3 swing by 12. *)
Lemma moving_rows_swing_within_amplitude_witness :
  movingRows (level (runtime Sample.timed)) = Some [1%nat; 3%nat]
  /\ In 3%nat [1%nat; 3%nat]
  /\ exists offset,
       JS.getIndex 3 (rowOffset (updateMovingRows 500 Sample.timed)) =
       Some offset
       /\ Rabs offset <= Rabs 12.
Proof.
  assert (Hin : In 3%nat [1%nat; 3%nat]) by (simpl; auto).
  split; [reflexivity|]. split; [exact Hin|].
  destruct (moving_rows_swing_within_amplitude 500 Sample.timed)
    as (H & _).
  exact (H [1%nat; 3%nat] 3%nat eq_refl Hin).
Defined.

(** X14 at [Sample.start], before its first frame. *)
Lemma frame_delta_is_time_since_last_frame_witness :
  lastFrame Sample.start = None /\ frameDelta 16 Sample.start = 0.
Proof.
  split; [reflexivity|].
  destruct (frame_delta_is_time_since_last_frame 16 16 32 Sample.start)
    as (_ & H & _).
  exact (H eq_refl).
Defined.

(** X15 at [Sample.start], whose pointer is not pressed. *)
Lemma aim_strength_stays_in_range_witness :
  reachable Sample.start
  /\ 0.45 <= aimStrength Sample.start <= 1
  /\ pointerLocked Sample.start = false
  /\ handlePointerMove 10 10 Sample.start = Sample.start.
Proof.
  destruct (aim_strength_stays_in_range Sample.start start_reachable)
    as (Hrange & Hfree & _).
  split; [exact start_reachable|]. split; [exact Hrange|].
  split; [reflexivity|]. apply Hfree. reflexivity.
Defined.

(** The aim angle of [Sample.start] is more than 0.08 above the smallest. *)
Lemma start_aim_has_room :
  aimAngleMin <= aimAngle Sample.start <= aimAngleMax
  /\ aimAngleMin <= aimAngle Sample.start - 0.08.
Proof.
  unfold aimAngleMin, aimAngleMax. simpl.
  pose proof PI2_3_2. pose proof PI_4. lra.
Qed.

(** X16 at [Sample.start]. *)
Lemma arrow_keys_step_and_saturate_witness :
  aimAngleMin <= aimAngle Sample.start <= aimAngleMax
  /\ aimAngleMin <= aimAngle Sample.start - 0.08
  /\ aimAngle (handleKeyDown Sample.level1 0 0 ArrowLeft Sample.start) =
     aimAngle Sample.start - 0.08.
Proof.
  destruct start_aim_has_room as (Hrange & Hroom).
  split; [exact Hrange|]. split; [exact Hroom|].
  destruct (arrow_keys_step_and_saturate Sample.level1 0 0 Sample.start
              Hrange) as (H & _).
  apply (H Hroom).
Defined.

(** X17 for one and three lives left. *)
Lemma star_rating_properties_witness :
  1 <= 3 /\ 0 <= levelNumber Sample.level1
  /\ computeStarRating 9000 50 1 "Easy" Sample.level1
     <= computeStarRating 9000 50 3 "Easy" Sample.level1.
Proof.
  assert (Hmore : 1 <= 3) by lra.
  split; [exact Hmore|]. split; [simpl; lra|].
  destruct (star_rating_properties 9000 50 1 "Easy" Sample.level1)
    as (_ & _ & _ & Hmono & _).
  exact (Hmono 3 Hmore).
Defined.

(** X18: recording level 1 keeps the star of level 2. *)
Lemma recorded_stars_are_found_witness :
  levelNumber Sample.level2 <> levelNumber Sample.level1
  /\ currentLevelStars
       (recordStars Sample.level1 3 9000
          [mkStarTrack 2 1 4000; mkStarTrack 1 2 7000])
       Sample.level2 = 1.
Proof.
  assert (Hdiff : levelNumber Sample.level2 <> levelNumber Sample.level1)
    by (simpl; lra).
  split; [exact Hdiff|].
  destruct (recorded_stars_are_found Sample.level1 3 9000
              [mkStarTrack 2 1 4000; mkStarTrack 1 2 7000] Sample.level2)
    as (_ & _ & Hother & _).
  rewrite (Hother Hdiff). unfold currentLevelStars. simpl.
  assert (H : numEq 2 2 = true) by (apply numEq_true; reflexivity).
  rewrite H. reflexivity.
Defined.

(** X19 for two entries on the second of twenty levels. *)
Lemma star_summary_totals_witness :
  (forall entry,
     In entry [mkStarTrack 1 3 9000; mkStarTrack 2 1 4000] ->
     0 <= star_stars entry <= 3)
  /\ 1 <= 20 /\ 0 <= 1
  /\ fst (starSummary 20 1 [mkStarTrack 1 3 9000; mkStarTrack 2 1 4000]) + 3
     <= snd (starSummary 20 1 [mkStarTrack 1 3 9000; mkStarTrack 2 1 4000]).
Proof.
  assert (Hrange : forall entry,
            In entry [mkStarTrack 1 3 9000; mkStarTrack 2 1 4000] ->
            0 <= star_stars entry <= 3)
    by (intros entry [<-|[<-|[]]]; simpl; lra).
  assert (Hcount : 1 <= 20) by lra.
  assert (Hindex : 0 <= 1) by lra.
  split; [exact Hrange|]. split; [exact Hcount|]. split; [exact Hindex|].
  destruct (star_summary_totals 20 1
              [mkStarTrack 1 3 9000; mkStarTrack 2 1 4000])
    as (_ & _ & H).
  destruct (H Hrange) as (_ & Hgap). exact (Hgap Hcount Hindex).
Defined.

(** X21 at 125.5 seconds. *)
Lemma formatTime_shape_witness :
  125.5 < 6000 /\ String.length (formatTime (Some 125.5)) = 5%nat.
Proof.
  assert (Hsmall : 125.5 < 6000) by lra.
  split; [exact Hsmall|].
  destruct (formatTime_shape 125.5) as (_ & _ & Hlen & _).
  exact (Hlen Hsmall).
Defined.

End FurtherSampleRuns.
